(** * On-device confirmation and navigation engine (legacy/firmware/layout2.c)

    A shallow embedding of the text-shaping helpers [address_n_str],
    [split_message], [split_message_hex] and of the polling function
    [layoutHomeInfo] with the layouts it calls, followed by the properties
    of the specification that were checked against them.

    Conventions.
    - [uint32_t] values are [Z] in [0, 2^32); subtraction wraps modulo 2^32.
    - C [char] and [uint8_t] are [ascii]; a C string value is a [string],
      a [char] array is a [list ascii] of the array's size.
    - The firmware build is modelled: [EMULATOR] and [BITCOIN_ONLY] are 0.
    - [_()] is the identity on string literals. *)

From Stdlib Require Import ZArith List String Ascii Bool Lia.
Import ListNotations.

Local Open Scope string_scope.
Local Open Scope Z_scope.

(** ** C string helpers shared by the humanizer and the pager *)

(** [strlcpy(dst, src, size)]: the C string left in [dst]. *)
Definition strlcpy (src : string) (size : nat) : string :=
  substring 0 (size - 1) src.

(** [strlcat(dst, src, size)]: [src] is appended as far as [size - 1]
    characters in total allow; a [dst] already that long is left alone. *)
Definition strlcat (dst src : string) (size : nat) : string :=
  dst ++ substring 0 (size - 1 - String.length dst) src.

(** ['0' + n] *)
Definition digit_char (n : Z) : ascii := ascii_of_nat (48 + Z.to_nat n).

(** * PathHumanizer: [address_n_str] *)

Module Humanizer.

(** The fields of [CoinInfo] that [address_n_str] reads.  [bech32_prefix]
    is a pointer: [None] is the null pointer. *)
Record CoinInfo : Type := mkCoinInfo {
  coin_shortcut : string;
  has_segwit : bool;
  bech32_prefix : option string
}.

(** [coin->coin_shortcut + 1]: the shortcut without its first character
    (the registry stores shortcuts with a leading space, " BTC").  The
    registry holds no empty shortcut; the model maps one to the empty
    string. *)
Definition shortcut_plus1 (s : string) : string :=
  match s with
  | EmptyString => EmptyString
  | String _ t => t
  end.

Definition ticker (c : CoinInfo) : string := shortcut_plus1 (coin_shortcut c).

Definition HARDENED : Z := 0x80000000.
Definition BIP32_MAX_LAST_ELEMENT : Z := 1000000.

(** [(x & 0x80000000) != 0] *)
Definition hardened (x : Z) : bool := negb (Z.land x HARDENED =? 0).

(** [x & 0x7fffffff] *)
Definition unharden (x : Z) : Z := Z.land x 0x7fffffff.

(** [slip44_extras]: a null result is [None]. *)
Definition slip44_extras (coin_type : Z) : option string :=
  if Z.land coin_type HARDENED =? 0 then None
  else
    let v := Z.land coin_type 0x7fffffff in
    if v =? 40 then Some "EXP"
    else if v =? 43 then Some "NEM"
    else if v =? 60 then Some "ETH"
    else if v =? 61 then Some "ETC"
    else if v =? 108 then Some "UBQ"
    else if v =? 137 then Some "RSK"
    else if v =? 37310 then Some "tRSK"
    else None.

(** [address_n[k]] *)
Definition at_index (address_n : list Z) (k : nat) : Z := nth k address_n 0.

(** The guard of the "known BIP44/49 path" block. *)
Definition known_path (address_n : list Z) : bool :=
  (List.length address_n =? 5)%nat
  && ((at_index address_n 0 =? HARDENED + 44)
      || (at_index address_n 0 =? HARDENED + 49)
      || (at_index address_n 0 =? HARDENED + 84))
  && hardened (at_index address_n 1)
  && hardened (at_index address_n 2)
  && (at_index address_n 3 <=? 1)
  && (at_index address_n 4 <=? BIP32_MAX_LAST_ELEMENT).

(** The [do { *c = '0' + (i % 10); c--; i /= 10; } while (i > 0);] loop,
    writing leftwards in front of [c].  [fuel] bounds the iterations that
    follow the first one. *)
Fixpoint put_decimal (fuel : nat) (i : Z) (c : string) : string :=
  let c' := String (digit_char (i mod 10)) c in
  let i' := i / 10 in
  match fuel with
  | O => c'
  | S fuel' => if 0 <? i' then put_decimal fuel' i' c' else c'
  end.

(** One round of the [for] loop: quote, digits, slash, right to left.
    A value below 2^31 has at most ten digits. *)
Definition put_component (i : Z) (c : string) : string :=
  let c1 := if hardened i then String "'" c else c in
  let c2 := put_decimal 9 (unharden i) c1 in
  String "/" c2.

(** The raw rendering at the end of [address_n_str]: the loop runs from the
    last component down to the first, then "Path: m" is written in front. *)
Definition raw_path (address_n : list Z) : string :=
  "Path: m" ++ fold_right put_component EmptyString address_n.

(** The account number as written into [acc[3]]. *)
Definition acc_string (accnum : Z) : string :=
  if accnum <? 10 then String (digit_char accnum) EmptyString
  else String (digit_char (accnum / 10))
         (String (digit_char (accnum mod 10)) EmptyString).

Section WithRegistry.

(** [coinBySlip44] is the external coin registry; it is called with the
    path component as it stands in the path, hardened bit included. *)
Variable coinBySlip44 : Z -> option CoinInfo.

(** The ticker table of the last [else] branch; [slip44_extras] in the
    firmware build, nothing when [BITCOIN_ONLY] is set. *)
Variable extras : Z -> option string.

(** The three-way choice of [abbr] and [legacy]. *)
Definition choose_abbr (native_segwit p2sh_segwit : bool) (coin_type : Z)
  : bool * option string :=
  let coin := coinBySlip44 coin_type in
  if native_segwit then
    match coin with
    | Some c =>
        if has_segwit c
           && match bech32_prefix c with Some _ => true | None => false end
        then (false, Some (ticker c)) else (false, None)
    | None => (false, None)
    end
  else if p2sh_segwit then
    match coin with
    | Some c => if has_segwit c then (false, Some (ticker c)) else (false, None)
    | None => (false, None)
    end
  else
    match coin with
    | Some c => (has_segwit c, Some (ticker c))
    | None => (false, extras coin_type)
    end.

Definition address_n_str_with (address_n : list Z) (address_is_account : bool)
  : string :=
  if (8 <? List.length address_n)%nat then "Unknown long path"
  else if (List.length address_n =? 0)%nat then "Path: m"
  else
    let fallback := raw_path address_n in
    if known_path address_n then
      let native_segwit := at_index address_n 0 =? HARDENED + 84 in
      let p2sh_segwit := at_index address_n 0 =? HARDENED + 49 in
      let '(legacy, abbr) :=
        choose_abbr native_segwit p2sh_segwit (at_index address_n 1) in
      let accnum :=
        if address_is_account then unharden (at_index address_n 4) + 1
        else unharden (at_index address_n 2) + 1 in
      match abbr with
      | Some a =>
          if accnum <? 100 then
            let path := strlcpy a 100 in
            let path := if legacy then strlcat path " legacy" 100 else path in
            let path :=
              if native_segwit then strlcat path " segwit" 100 else path in
            let path :=
              if address_is_account then strlcat path " address #" 100
              else strlcat path " account #" 100 in
            strlcat path (acc_string accnum) 100
          else fallback
      | None => fallback
      end
    else fallback.

End WithRegistry.

(** [address_n_str] of the firmware build. *)
Definition address_n_str (coinBySlip44 : Z -> option CoinInfo)
  : list Z -> bool -> string :=
  address_n_str_with coinBySlip44 slip44_extras.

(** A registry with the Bitcoin entry only. *)
Definition btc_info : CoinInfo := mkCoinInfo " BTC" true (Some "bc").

Definition btc_registry (coin_type : Z) : option CoinInfo :=
  if coin_type =? HARDENED + 0 then Some btc_info else None.

Definition empty_registry (coin_type : Z) : option CoinInfo := None.

Definition h (i : Z) : Z := HARDENED + i.

(** The paths of the specification's examples. *)
Definition btc_legacy_path : list Z := [h 44; h 0; h 0; 0; 0].
Definition btc_segwit_path : list Z := [h 84; h 0; h 0; 0; 0].
Definition long_path : list Z := [h 44; h 0; h 0; 0; 0; 1; 2; 3; 4].

End Humanizer.

(** * MessagePager: [split_message] and [split_message_hex] *)

Module Pager.

Definition NUL : ascii := Ascii.zero.

(** Wrap-around of [uint32_t] arithmetic. *)
Definition u32 (x : Z) : Z := x mod 2 ^ 32.

(** The C string found at the start of [mem]: the characters before the
    first NUL.  A buffer is modelled by the bytes it holds; a NUL follows
    the last one. *)
Fixpoint cstr (mem : list ascii) : list ascii :=
  match mem with
  | [] => []
  | c :: rest => if Ascii.eqb c NUL then [] else c :: cstr rest
  end.

(** [msg + off]: [None] when the pointer leaves the buffer and its
    terminator. *)
Definition offset (msg : list ascii) (off : Z) : option (list ascii) :=
  if (0 <=? off) && (off <=? Z.of_nat (List.length msg))
  then Some (skipn (Z.to_nat off) msg) else None.

(** The array [buf] with element [k] replaced by [c]. *)
Fixpoint upd (k : nat) (c : ascii) (buf : list ascii) : list ascii :=
  match buf, k with
  | [], _ => []
  | _ :: rest, O => c :: rest
  | x :: rest, S k' => x :: upd k' c rest
  end.

(** [buf[k] = c]: [None] when [k] is outside the array. *)
Definition store (buf : list ascii) (k : Z) (c : ascii) : option (list ascii) :=
  if (0 <=? k) && (k <? Z.of_nat (List.length buf))
  then Some (upd (Z.to_nat k) c buf)
  else None.

(** [strlcpy(dst, src, size)] on a [char] array [dst] of at least [size]
    elements, [size >= 1]: at most [size - 1] characters of the C string at
    [src], then the terminator. *)
Definition strlcpy_row (dst src : list ascii) (size : nat) : list ascii :=
  let chars := firstn (size - 1) (cstr src) in
  (chars ++ NUL :: skipn (S (List.length chars)) dst)%list.

Definition bind {A B : Type} (x : option A) (f : A -> option B) : option B :=
  match x with
  | Some a => f a
  | None => None
  end.

Notation "x <- e ;; k" := (bind e (fun x => k))
  (at level 61, e at next level, right associativity).

(** One row of [static char str[4][32 + 1]] after [memzero]. *)
Definition blank_row : list ascii := repeat NUL 33.

(** [if (len > rowlen * k) strlcpy(str[k], (char * )msg + rowlen * k, rowlen + 1);]
    on the zeroed row. *)
Definition copy_row (msg : list ascii) (len rowlen : Z) (k : Z)
  : option (list ascii) :=
  if rowlen * k <? len then
    src <- offset msg (rowlen * k) ;;
    Some (strlcpy_row blank_row src (Z.to_nat (rowlen + 1)))
  else Some blank_row.

(** [split_message]: the four rows of [str], or [None] when an access
    falls outside an array.  [rowlen] is at most 32 after the clamp, so
    the products do not wrap; the index [rowlen - 3] does below 3. *)
Definition split_message (msg : list ascii) (len rowlen : Z)
  : option (list (list ascii)) :=
  let rowlen := if 32 <? rowlen then 32 else rowlen in
  let r0 := strlcpy_row blank_row msg (Z.to_nat (rowlen + 1)) in
  r1 <- copy_row msg len rowlen 1 ;;
  r2 <- copy_row msg len rowlen 2 ;;
  r3 <- copy_row msg len rowlen 3 ;;
  r3 <- (if rowlen * 4 <? len then
           a <- store r3 (u32 (rowlen - 1)) "." ;;
           b <- store a (u32 (rowlen - 2)) "." ;;
           store b (u32 (rowlen - 3)) "."
         else Some r3) ;;
  Some [r0; r1; r2; r3].

(** [ret[k]] read as a C string. *)
Definition line (p : list (list ascii)) (k : nat) : string :=
  string_of_list_ascii (cstr (nth k p [])).

(** [is_valid_ascii]: the loop over [size] bytes.  Behind the last byte of
    the buffer it reads the terminator, a NUL, and answers [false]. *)
Definition is_valid_ascii (data : list ascii) (size : Z) : bool :=
  forallb (fun c => negb (N.ltb (N_of_ascii c) 32 || N.ltb 126 (N_of_ascii c)))
          (firstn (Z.to_nat size) data)
  && (size <=? Z.of_nat (List.length data)).

Section Hex.

(** The digit table [hexdigits] of util.c, indexed by a nibble. *)
Variable hexdigits : Z -> ascii.

Definition byte_val (c : ascii) : Z := Z.of_N (N_of_ascii c).

(** The characters [data2hex] writes for [data]. *)
Definition hex_chars (data : list ascii) : list ascii :=
  flat_map (fun c => [hexdigits (Z.land (Z.shiftr (byte_val c) 4) 0xF);
                      hexdigits (Z.land (byte_val c) 0xF)]) data.

(** Modelled from the spec: [data2hex] (util.c) is not part of the file;
    it hex-encodes [len] bytes of [data] into [str], two digits a byte,
    high nibble first, and terminates the string.  [None] when [data]
    holds fewer than [len] bytes or [str] is too short. *)
Definition data2hex (data : list ascii) (len : Z) (str : list ascii)
  : option (list ascii) :=
  if (0 <=? len) && (len <=? Z.of_nat (List.length data))
     && (2 * len <? Z.of_nat (List.length str))
  then
    let chars := hex_chars (firstn (Z.to_nat len) data) in
    Some (chars ++ NUL :: skipn (S (List.length chars)) str)%list
  else None.

Definition split_message_hex (msg : list ascii) (len : Z)
  : option (list (list ascii)) :=
  let hex := repeat NUL (32 * 2 + 1) in
  let size := if 32 <? len then 32 else len in
  hex <- data2hex msg size hex ;;
  hex <- (if 32 <? len then
            a <- store hex 63 "." ;;
            store a 62 "."
          else Some hex) ;;
  split_message hex (size * 2) 16.

(** The text of the specification: the digits of the first 32 bytes,
    the last two of them replaced by dots when there are more bytes. *)
Definition hex_text (msg : list ascii) : list ascii :=
  let digits := hex_chars (firstn 32 msg) in
  if (32 <? List.length msg)%nat
  then (firstn 62 digits ++ ["."; "."]%char)%list
  else digits.

End Hex.

Definition nonzero (c : ascii) : Prop := c <> NUL.

Definition ellipsis : list ascii := ["."; "."; "."]%char.

(** The upper-case digit table. *)
Definition upper_hexdigits (n : Z) : ascii :=
  nth (Z.to_nat n) (list_ascii_of_string "0123456789ABCDEF") NUL.

Definition bytes (s : string) : list ascii := list_ascii_of_string s.

(** Inputs of the examples: 45 text bytes, the same with a zero byte at
    position 30, nine bytes, and a three-byte input holding a zero byte. *)
Definition text45 : list ascii :=
  bytes "0123456789abcdefghijABCDEFGHIJ0123456789abcde".
Definition binary45 : list ascii :=
  (bytes "0123456789abcdefghijABCDEFGHIJ" ++ NUL :: bytes "123456789abcde")%list.
Definition text9 : list ascii := bytes "012345678".
Definition binary3 : list ascii := ["A"; NUL; "B"]%char.

End Pager.

(** * NavigationStateMachine: [layoutHomeInfo] *)

Module Navigation.

(** The functions [layoutLast] is compared with or set to; [LayoutOther]
    stands for any layout function outside this file. *)
Inductive Layout : Type :=
| LayoutHome
| LayoutScreensaver
| LayoutDeviceInfo
| LayoutDialogSwipe
| LayoutProgressSwipe
| LayoutResetWord
| LayoutAddress
| LayoutXPUB
| LayoutOther (id : nat).

Definition is_home (l : Layout) : bool :=
  match l with LayoutHome => true | _ => false end.
Definition is_screensaver (l : Layout) : bool :=
  match l with LayoutScreensaver => true | _ => false end.
Definition is_device_info (l : Layout) : bool :=
  match l with LayoutDeviceInfo => true | _ => false end.

(** The calls a tick makes to the display and to the other subsystems.
    [DrawHome] is the drawing part of [layoutHome] (home screen bitmap or
    label, backup prompts, BLE name); [DrawDeviceInfo] is the [switch] of
    [layoutDeviceInfo]. *)
Inductive Call : Type :=
| OledClear
| OledRefresh
| LayoutSwipe
| DrawHome
| DrawDeviceInfo (ucPage : Z)
| LayoutStatusLogo (force : bool)
| RecoveryAbort
| SigningAbort
| SessionClear (lock : bool)
| Shutdown.

Definition Call_eq_dec (a b : Call) : {a = b} + {a <> b}.
Proof. decide equality; try apply Z.eq_dec; apply bool_dec. Defined.

(** How often [c] was called. *)
Definition calls_of (c : Call) (l : list Call) : nat := count_occ Call_eq_dec l c.

(** The [button] structure after [buttonUpdate()]. *)
Record Buttons : Type := mkButtons {
  NoUp : bool;
  YesUp : bool;
  UpUp : bool;
  DownUp : bool
}.

(** What one tick reads from outside.  The clock does not advance during a
    tick: every [timer_ms()] of the tick returns [now].  The answer of
    [layoutStatusLogo] may depend on the calls made before it. *)
Record Env : Type := mkEnv {
  button : Buttons;
  layoutNeedRefresh : bool;
  now : Z;
  config_getAutoLockDelayMs : Z;
  sys_nfcState : bool;
  sys_usbState : bool;
  status_logo : list Call -> bool -> bool
}.

(** The globals and function statics the tick owns. *)
Record State : Type := mkState {
  layoutLast : Layout;
  info_page : Z;
  system_millis_display_info_start : Z;
  system_millis_lock_start : Z;
  system_millis_logo_refresh : Z
}.

(** The state together with the calls made so far in the tick. *)
Record World : Type := mkWorld {
  st : State;
  calls : list Call
}.

Definition call (c : Call) (w : World) : World :=
  mkWorld (st w) (calls w ++ [c])%list.

Definition set_layoutLast (l : Layout) (w : World) : World :=
  let s := st w in
  mkWorld (mkState l (info_page s) (system_millis_display_info_start s)
             (system_millis_lock_start s) (system_millis_logo_refresh s))
          (calls w).

Definition set_info_page (n : Z) (w : World) : World :=
  let s := st w in
  mkWorld (mkState (layoutLast s) n (system_millis_display_info_start s)
             (system_millis_lock_start s) (system_millis_logo_refresh s))
          (calls w).

Definition set_display_info_start (t : Z) (w : World) : World :=
  let s := st w in
  mkWorld (mkState (layoutLast s) (info_page s) t
             (system_millis_lock_start s) (system_millis_logo_refresh s))
          (calls w).

Definition set_lock_start (t : Z) (w : World) : World :=
  let s := st w in
  mkWorld (mkState (layoutLast s) (info_page s)
             (system_millis_display_info_start s) t
             (system_millis_logo_refresh s))
          (calls w).

Definition set_logo_refresh (t : Z) (w : World) : World :=
  let s := st w in
  mkWorld (mkState (layoutLast s) (info_page s)
             (system_millis_display_info_start s)
             (system_millis_lock_start s) t)
          (calls w).

Definition DEVICE_INFO_PAGE_NUM : Z := 4.

(** [timer_ms() - since], in [uint32_t]. *)
Definition elapsed (e : Env) (since : Z) : Z := (now e - since) mod 2 ^ 32.

Section Tick.

Variable e : Env.

Definition layoutStatusLogo (force : bool) (w : World) : bool * World :=
  (status_logo e (calls w) force, call (LayoutStatusLogo force) w).

(** [recovery_abort(); signing_abort(); session_clear(true);] *)
Definition abort_and_clear (w : World) : World :=
  call (SessionClear true) (call SigningAbort (call RecoveryAbort w)).

Definition layoutScreensaver (w : World) : World :=
  call OledRefresh (call OledClear (set_layoutLast LayoutScreensaver w)).

Definition layoutHome (w : World) : World :=
  let w :=
    if is_home (layoutLast (st w)) || is_screensaver (layoutLast (st w))
    then call OledClear w else call LayoutSwipe w in
  let w := set_layoutLast LayoutHome w in
  let w := call DrawHome w in
  let '(changed, w) := layoutStatusLogo true w in
  let w := if changed then abort_and_clear w else w in
  let w := call OledRefresh w in
  set_lock_start (now e) w.

Definition layoutDeviceInfo (ucPage : Z) (w : World) : World :=
  let w := call (DrawDeviceInfo ucPage) w in
  let w := call OledRefresh w in
  let w := set_layoutLast LayoutDeviceInfo w in
  set_display_info_start (now e) w.

(** The first [if] / [else if] of [layoutHomeInfo]: paging through the
    device information. *)
Definition info_navigation (w : World) : World :=
  let b := button e in
  if is_home (layoutLast (st w)) then
    if UpUp b || DownUp b then
      let w := set_info_page (if UpUp b then DEVICE_INFO_PAGE_NUM else 1) w in
      layoutDeviceInfo (info_page (st w)) w
    else w
  else if is_device_info (layoutLast (st w)) then
    let w :=
      if 10 * 1000 <=? elapsed e (system_millis_display_info_start (st w))
      then set_info_page 0 w else w in
    let w :=
      if UpUp b then
        if negb (info_page (st w) =? 0) then
          let w := set_info_page (info_page (st w) - 1) w in
          layoutDeviceInfo (info_page (st w)) w
        else w
      else if DownUp b then
        if info_page (st w) <? DEVICE_INFO_PAGE_NUM then
          let w := set_info_page (info_page (st w) + 1) w in
          layoutDeviceInfo (info_page (st w)) w
        else set_info_page 0 w
      else if NoUp b then set_info_page 0 w
      else w in
    if info_page (st w) =? 0 then layoutHome w else w
  else w.

(** "if homescreen is shown for too long": the auto-lock and the status
    poll of every second.  [shutdown()] is a call like the others: the
    function goes on behind it. *)
Definition home_timeouts (w : World) : World :=
  if is_home (layoutLast (st w)) then
    let w :=
      if config_getAutoLockDelayMs e
           <=? elapsed e (system_millis_lock_start (st w))
      then
        if sys_nfcState e || sys_usbState e
        then layoutScreensaver (call (SessionClear true) w)
        else call Shutdown w
      else w in
    if 1000 <=? elapsed e (system_millis_logo_refresh (st w)) then
      let '(changed, w) := layoutStatusLogo false w in
      let w := if changed then layoutHome (abort_and_clear w) else w in
      set_logo_refresh (now e) w
    else w
  else w.

(** "wake from screensaver on any button", else the cancel button. *)
Definition wake_or_abort (w : World) : World :=
  let b := button e in
  if is_screensaver (layoutLast (st w))
     && (NoUp b || YesUp b || UpUp b || DownUp b)
  then layoutHome w
  else if negb (is_home (layoutLast (st w)))
          && negb (is_screensaver (layoutLast (st w)))
  then
    if NoUp b then call SigningAbort (call RecoveryAbort w) else w
  else w.

Definition layoutHomeInfo (w : World) : World :=
  let w := if layoutNeedRefresh e then layoutHome w else w in
  let w := info_navigation w in
  let w := home_timeouts w in
  wake_or_abort w.

(** One tick from state [s]: the state left behind and the calls made. *)
Definition tick (s : State) : World := layoutHomeInfo (mkWorld s []).

End Tick.

Definition no_buttons : Buttons := mkButtons false false false false.

(** Answers of [layoutStatusLogo]: no status change at all, and a change
    that the poll of every second (called with [false]) reports. *)
Definition quiet_logo (_ : list Call) (_ : bool) : bool := false.
Definition poll_reports (_ : list Call) (force : bool) : bool := negb force.

(** Environments and states of the examples.  The clock reads 5000 or
    700000 ms, the auto-lock delay is ten minutes, USB is connected. *)
Definition cancel_env : Env :=
  mkEnv (mkButtons true false false false) false 5000 600000 false true quiet_logo.
Definition confirm_env : Env :=
  mkEnv (mkButtons false true false false) false 5000 600000 false true quiet_logo.
Definition prev_next_env : Env :=
  mkEnv (mkButtons false false true true) false 5000 600000 false true quiet_logo.
Definition idle_env : Env :=
  mkEnv no_buttons false 700000 600000 false true quiet_logo.
Definition idle_unplugged_env : Env :=
  mkEnv no_buttons false 700000 600000 false false quiet_logo.
Definition idle_status_change_env : Env :=
  mkEnv no_buttons false 700000 600000 false true poll_reports.

Definition cancel_refresh_env : Env :=
  mkEnv (mkButtons true false false false) true 5000 600000 false true quiet_logo.
Definition idle_refresh_env : Env :=
  mkEnv no_buttons true 700000 600000 false true quiet_logo.

Definition home_state : State := mkState LayoutHome 0 0 1000 4500.
Definition info_state : State := mkState LayoutDeviceInfo 2 4000 1000 4500.
Definition dialog_state : State := mkState LayoutDialogSwipe 0 0 1000 4500.

(** The tick entered a screen when it ran the layout that draws it. *)
Definition is_draw_home (c : Call) : bool :=
  match c with DrawHome => true | _ => false end.
Definition is_draw_info (c : Call) : bool :=
  match c with DrawDeviceInfo _ => true | _ => false end.

Definition entered_home (w : World) : bool := existsb is_draw_home (calls w).
Definition entered_info_page (w : World) : bool :=
  existsb is_draw_info (calls w).

(** The two timers during a tick that started in state [s]: each one holds
    the current time once its screen was entered and its old value until
    then. *)
Definition stamps (e : Env) (s : State) (w : World) : Prop :=
  system_millis_lock_start (st w)
  = (if entered_home w then now e else system_millis_lock_start s)
  /\ system_millis_display_info_start (st w)
     = (if entered_info_page w then now e
        else system_millis_display_info_start s).

End Navigation.

(** * The dialogs that shape their text with the pager *)

Module Dialogs.

Import Pager.

(** [strlen(s)] *)
Definition strlen (s : list ascii) : Z := Z.of_nat (List.length (cstr s)).

(** A row as [strlcpy] leaves it in zeroed memory: the characters, then
    zeros up to the 33 bytes of the row. *)
Definition padded (chars : list ascii) : list ascii :=
  (chars ++ repeat NUL (33 - List.length chars))%list.

(** The four lines of a dialog, joined. *)
Definition all_lines (p : list (list ascii)) : list ascii :=
  (cstr (nth 0 p []) ++ cstr (nth 1 p []) ++ cstr (nth 2 p [])
   ++ cstr (nth 3 p []))%list.

(** The characters row [k] takes from the input: up to [r] characters of
    the string that starts [r * k] bytes in, when [len] reaches that far. *)
Definition row_text (msg : list ascii) (len r k : Z) : list ascii :=
  if r * k <? len
  then firstn (Z.to_nat r) (cstr (skipn (Z.to_nat (r * k)) msg))
  else [].

(** Printable ASCII, the range [is_valid_ascii] accepts. *)
Definition printable (c : ascii) : Prop :=
  (32 <= N_of_ascii c <= 126)%N.

Section Messages.

Variable hexdigits : Z -> ascii.

(** [str] of [layoutSignMessage] (row width 18), [layoutVerifyMessage] and
    [layoutConfirmOpReturn] (row width 20): hexadecimal unless the bytes
    are printable.  Both language branches hand [str[0..3]] to the
    dialog. *)
Definition message_rows (rowlen : Z) (msg : list ascii) (len : Z)
  : option (list (list ascii)) :=
  if negb (is_valid_ascii msg len) then split_message_hex hexdigits msg len
  else split_message msg len rowlen.

Definition layoutSignMessage_rows : list ascii -> Z -> option (list (list ascii)) :=
  message_rows 18.
Definition layoutVerifyMessage_rows : list ascii -> Z -> option (list (list ascii)) :=
  message_rows 20.
Definition layoutConfirmOpReturn_rows : list ascii -> Z -> option (list (list ascii)) :=
  message_rows 20.

(** [str] of [layoutPublicKey]: [split_message_hex(pubkey + 1, 32 * 2)]. *)
Definition layoutPublicKey_rows (pubkey : list ascii)
  : option (list (list ascii)) :=
  src <- offset pubkey 1 ;;
  split_message_hex hexdigits src (32 * 2).

(** [str] of [layoutCosiCommitSign], a [char str[4][17]]: the 32 bytes as
    four rows of 16 digits, or a fixed text for any other length. *)
Definition layoutCosiCommitSign_rows (data : list ascii) (len : Z)
  : option (list (list ascii)) :=
  let blank := repeat NUL 17 in
  if len =? 32 then
    r0 <- data2hex hexdigits data 8 blank ;;
    d1 <- offset data 8 ;;
    r1 <- data2hex hexdigits d1 8 blank ;;
    d2 <- offset data 16 ;;
    r2 <- data2hex hexdigits d2 8 blank ;;
    d3 <- offset data 24 ;;
    r3 <- data2hex hexdigits d3 8 blank ;;
    Some [r0; r1; r2; r3]
  else
    Some [strlcpy_row blank (bytes "Data") 17;
          strlcpy_row blank (bytes "of") 17;
          strlcpy_row blank (bytes "unsupported") 17;
          strlcpy_row blank (bytes "length") 17].

End Messages.

(** [strncmp(a, b, n) == 0] *)
Fixpoint strncmp_eq (a b : list ascii) (n : nat) : bool :=
  match n with
  | O => true
  | S n' =>
      let ca := hd NUL a in
      let cb := hd NUL b in
      if Ascii.eqb ca cb
      then if Ascii.eqb ca NUL then true else strncmp_eq (tl a) (tl b) n'
      else false
  end.

(** The head of [render_address_dialog]: a cashaddr prefix and its colon
    are skipped.  [None] stands for a null [coin] or a null
    [coin->cashaddr_prefix]. *)
Definition strip_cashaddr (cashaddr_prefix : option (list ascii))
           (address : list ascii) : list ascii :=
  match cashaddr_prefix with
  | Some prefix =>
      let prefix_len := List.length (cstr prefix) in
      if strncmp_eq address prefix prefix_len
         && Ascii.eqb (nth prefix_len address NUL) ":"
      then skipn (prefix_len + 1) address
      else address
  | None => address
  end.

(** [numlines] and [linelen] of [render_address_dialog]; [int] division
    truncates. *)
Definition address_linelen (addrlen : Z) : Z :=
  let numlines := if addrlen <=? 42 then 2 else 3 in
  let linelen := Z.quot (addrlen - 1) numlines + 1 in
  if 21 <? linelen then 21 else linelen.

(** [str] of [render_address_dialog]. *)
Definition render_address_rows (cashaddr_prefix : option (list ascii))
           (address : list ascii) : option (list (list ascii)) :=
  let address := strip_cashaddr cashaddr_prefix address in
  let addrlen := strlen address in
  split_message address addrlen (address_linelen addrlen).

(** [!str[3][0]]: the place of the fourth line is free for [extra_line]
    (the humanized path of a change output) or the rule. *)
Definition extra_line_drawn (p : list (list ascii)) : bool :=
  Ascii.eqb (nth 0 (nth 3 p []) NUL) NUL.

(** The address rows [layoutAddress] draws without QR code, top to
    bottom: the first [num_lines] lines of the pager, or the address
    itself when it has at most ten characters. *)
Definition layoutAddress_rows (address : list ascii)
  : option (list (list ascii)) :=
  let addrlen := strlen address in
  if 10 <? addrlen then
    let rowlen := 21 in
    let num_lines :=
      if addrlen <=? 42 then 2%nat else if addrlen <=? 63 then 3%nat else 4%nat in
    str <- split_message address addrlen rowlen ;;
    Some (map cstr (firstn num_lines str))
  else Some [cstr address].

(** The text [layoutAddress] hands to the QR encoder when [ignorecase] is
    set: the loop over [addrlen + 1] characters. *)
Definition upcase_char (c : ascii) : ascii :=
  if (N.leb 97 (N_of_ascii c) && N.leb (N_of_ascii c) 122)%bool
  then ascii_of_N (N_of_ascii c + 65 - 97) else c.
Definition address_upcase (address : list ascii) : list ascii :=
  map upcase_char (cstr address).

(** [str] of [layoutXPUB]: [xpub += page * 81], then four rows of 21. *)
Definition layoutXPUB_rows (xpub : list ascii) (page : Z)
  : option (list (list ascii)) :=
  src <- offset xpub (page * 81) ;;
  split_message src (strlen src) 21.

Section NEM.

(** [NEM_ADDRESS_SIZE] of nem.h. *)
Variable NEM_ADDRESS_SIZE : Z.

(** The three address lines of [layoutNEMDialog]. *)
Definition layoutNEMDialog_rows (address : list ascii)
  : option (list (list ascii)) :=
  let size := Z.to_nat (Z.quot NEM_ADDRESS_SIZE 3 + 1) in
  let first_third := firstn (size - 1) (cstr address) in
  src2 <- offset address (Z.quot NEM_ADDRESS_SIZE 3) ;;
  let second_third := firstn (size - 1) (cstr src2) in
  src3 <- offset address (Z.quot (NEM_ADDRESS_SIZE * 2) 3) ;;
  Some [first_third; second_third; cstr src3].

End NEM.

(** [is_slip18] *)
Definition is_slip18 (address_n : list Z) : bool :=
  (List.length address_n =? 2)%nat
  && (Humanizer.at_index address_n 0 =? 0x80000000 + 10018)
  && Humanizer.hardened (Humanizer.at_index address_n 1)
  && (Z.land (Humanizer.at_index address_n 1) 0x7FFFFFFF <=? 9).

(** [desc] of [layoutCosiCommitSign]. *)
Definition layoutCosiCommitSign_desc (address_n : list Z) (final_sign : bool)
  : list ascii :=
  let desc :=
    if final_sign then bytes "CoSi sign message?"
    else bytes "CoSi commit message?" in
  if is_slip18 address_n then
    let digit := digit_char (Z.land (Humanizer.at_index address_n 1) 0x7FFFFFFF) in
    if final_sign
    then cstr (upd 16 digit (strlcpy_row (repeat NUL 32) (bytes "CoSi sign index #?") 32))
    else cstr (upd 18 digit (strlcpy_row (repeat NUL 32) (bytes "CoSi commit index #?") 32))
  else desc.

(** ['0' + n] for an [int] [n], stored in a [char]: the low eight bits. *)
Definition char_from_0 (n : Z) : ascii :=
  ascii_of_N (Z.to_N ((48 + n) mod 256)).

(** [index_str] of [layoutResetWord] and the string drawn from it:
    [word_pos < 10 ? index_str + 1 : index_str].  [/] and [%] are those of
    [int]: they truncate towards zero. *)
Definition index_str (word_pos : Z) : list ascii :=
  let s := bytes "##th word is:" in
  let s := if word_pos <? 10 then upd 0 " "%char s
           else upd 0 (char_from_0 (Z.quot word_pos 10)) s in
  let s := upd 1 (char_from_0 (Z.rem word_pos 10)) s in
  if (word_pos =? 1) || (word_pos =? 21) then upd 3 "t"%char (upd 2 "s"%char s)
  else if (word_pos =? 2) || (word_pos =? 22) then upd 3 "d"%char (upd 2 "n"%char s)
  else if (word_pos =? 3) || (word_pos =? 23) then upd 3 "d"%char (upd 2 "r"%char s)
  else s.

Definition layoutResetWord_label (word_pos : Z) : string :=
  string_of_list_ascii
    (cstr (if word_pos <? 10 then skipn 1 (index_str word_pos)
           else index_str word_pos)).

(** The English ordinal of a position, as one writes it. *)
Definition ordinal_suffix (n : Z) : string :=
  if (11 <=? n mod 100) && (n mod 100 <=? 13) then "th"
  else if n mod 10 =? 1 then "st"
  else if n mod 10 =? 2 then "nd"
  else if n mod 10 =? 3 then "rd"
  else "th".

Definition ordinal_label (n : Z) : string :=
  (Humanizer.put_decimal 9 n "" ++ ordinal_suffix n ++ " word is:")%string.

Section AutoLockDelay.

(** [bn_format_uint64(num, NULL, NULL, 0, 0, false, out, outlen)]: the
    amount formatter of bignum.c, here without prefix, suffix and
    decimals; [outlen] is the room it is given. *)
Variable bn_format_uint64 : Z -> nat -> string.

(** [unit] and [num] of [layoutConfirmAutoLockDelay]. *)
Definition auto_lock_amount (delay_ms : Z) : Z * string :=
  let num := delay_ms / 1000 in
  if 60 * 60 * 1000 <=? delay_ms then (num / (60 * 60), "hour")
  else if 60 * 1000 <=? delay_ms then (num / 60, "minute")
  else (num, "second").

(** [line] of [layoutConfirmAutoLockDelay], a [char] array of
    [sizeof("after 4294967296 minutes?")] bytes. *)
Definition layoutConfirmAutoLockDelay_line (delay_ms : Z) : string :=
  let size := 26%nat in
  let '(num, unit) := auto_lock_amount delay_ms in
  let line := strlcpy "after " size in
  let off := String.length line in
  let line := (line ++ bn_format_uint64 num (size - off))%string in
  let line := strlcat line " " size in
  let line := strlcat line unit size in
  let line := if 1 <? num then strlcat line "s" size else line in
  strlcat line "?" size.

End AutoLockDelay.

(** The milliseconds in a unit of [auto_lock_amount]. *)
Definition unit_ms (unit : string) : Z :=
  if String.eqb unit "hour" then 3600000
  else if String.eqb unit "minute" then 60000
  else 1000.

(** Examples: a compressed public key of 33 bytes and a second one that
    differs in its last byte; an extended public key of 111 characters. *)
Definition pubkey_a : list ascii :=
  (ascii_of_nat 2 :: bytes "0123456789abcdefghijklmnopqrstuv")%list.
Definition pubkey_b : list ascii :=
  (ascii_of_nat 2 :: bytes "0123456789abcdefghijklmnopqrstuZ")%list.
Definition xpub111 : list ascii :=
  bytes "xpub6BosfCnifzxcFwrSzQiqu2DBVTshkCXacvNsWGYJVVhhawA7d4R5WSWGFNbi8Aw6ZRc1brxMyWMzG3DSSSSoekkudhUd9yLb6qx39T9nMdj".
Definition address34 : list ascii := bytes "1BvBMSEYstWetqTFn5Au4m4GFg7xJaNVN2".
Definition nem_address40 : list ascii :=
  bytes "NBZMQO7ZPBYNBDUR7F75MAKA2S3DHDCIFG775N3D".
Definition digest32 : list ascii := bytes "0123456789abcdefghijklmnopqrstuv".
Definition cashaddr54 : list ascii :=
  bytes "bitcoincash:qpm2qsznhks23z7629mms6s4cwef74vcwvy22gdx6a".

End Dialogs.

(** * Predicates on the navigation state *)

Module Screens.

Import Navigation.

(** The page counter is in range, and a device information screen shows
    one of the pages 1 to 4. *)
Definition page_ok (s : State) : Prop :=
  0 <= info_page s <= DEVICE_INFO_PAGE_NUM
  /\ (layoutLast s = LayoutDeviceInfo -> 1 <= info_page s).

(** Nothing is due in state [s] at the time of [e]: no timer has run out
    and the device information shows a page. *)
Definition settled (e : Env) (s : State) : Prop :=
  (layoutLast s = LayoutHome ->
   elapsed e (system_millis_lock_start s) < config_getAutoLockDelayMs e
   /\ elapsed e (system_millis_logo_refresh s) < 1000)
  /\ (layoutLast s = LayoutDeviceInfo ->
      elapsed e (system_millis_display_info_start s) < 10 * 1000
      /\ info_page s <> 0).

(** No call to [layoutStatusLogo] reports a change during the tick. *)
Definition status_quiet (e : Env) : Prop :=
  forall (done : list Call) (force : bool), status_logo e done force = false.

(** The calls that only draw. *)
Definition is_display (c : Call) : bool :=
  match c with
  | OledClear | OledRefresh | LayoutSwipe | DrawHome | DrawDeviceInfo _ => true
  | _ => false
  end.

(** The shape of the calls of a tick: drawing; a status query, followed by
    the aborts and the session clear when it reports a change; the lock
    ([session_clear] with a transport, [shutdown] without); the aborts of
    the cancel button. *)
Inductive tick_calls (e : Env) : list Call -> Prop :=
| calls_none : tick_calls e []
| calls_display (l : list Call) (c : Call) :
    is_display c = true -> tick_calls e l -> tick_calls e (l ++ [c])
| calls_status_same (l : list Call) (force : bool) :
    status_logo e l force = false -> tick_calls e l ->
    tick_calls e (l ++ [LayoutStatusLogo force])
| calls_status_changed (l : list Call) (force : bool) :
    status_logo e l force = true -> tick_calls e l ->
    tick_calls e (l ++ [LayoutStatusLogo force; RecoveryAbort; SigningAbort;
                        SessionClear true])
| calls_lock (l : list Call) :
    sys_nfcState e || sys_usbState e = true -> tick_calls e l ->
    tick_calls e (l ++ [SessionClear true])
| calls_shutdown (l : list Call) :
    sys_nfcState e || sys_usbState e = false -> tick_calls e l ->
    tick_calls e (l ++ [Shutdown])
| calls_cancel (l : list Call) :
    NoUp (button e) = true -> tick_calls e l ->
    tick_calls e (l ++ [RecoveryAbort; SigningAbort]).

(** Environments of the examples: the next-page and the previous-page
    edge, and an idle tick at 5000 ms. *)
Definition next_env : Env :=
  mkEnv (mkButtons false false false true) false 5000 600000 false true quiet_logo.
Definition prev_env : Env :=
  mkEnv (mkButtons false false true false) false 5000 600000 false true quiet_logo.
Definition quiet_env : Env :=
  mkEnv no_buttons false 5000 600000 false true quiet_logo.
Definition late_env : Env :=
  mkEnv no_buttons false 20000 600000 false true quiet_logo.
Definition saver_state : State := mkState LayoutScreensaver 3 0 1000 4500.

End Screens.

(** * Reading a rendered path *)

Module PathText.

(** ['0' <= c <= '9'] *)
Definition is_digit (c : ascii) : bool :=
  (N.leb 48 (N_of_ascii c) && N.leb (N_of_ascii c) 57)%bool.

Fixpoint all_digits (s : string) : bool :=
  match s with
  | EmptyString => true
  | String c s' => is_digit c && all_digits s'
  end.

(** Empty, or starting with something else than a digit. *)
Definition no_digit_ahead (s : string) : bool :=
  match s with
  | EmptyString => true
  | String c _ => negb (is_digit c)
  end.

(** The number a string of decimal digits denotes, read from the left
    after [acc]. *)
Fixpoint decimal_value (acc : Z) (s : string) : Z :=
  match s with
  | EmptyString => acc
  | String c s' => decimal_value (10 * acc + (Z.of_N (N_of_ascii c) - 48)) s'
  end.

(** Every component is a [uint32_t]. *)
Definition uint32_path (address_n : list Z) : Prop :=
  Forall (fun i => 0 <= i < 2 ^ 32) address_n.

(** The widest path: eight hardened components of ten digits. *)
Definition widest_path : list Z := repeat 4294967295 8.

End PathText.

Import Humanizer Pager Navigation.
Import Dialogs Screens PathText.

(** * Properties of the path humanizer *)

Section HumanizerFacts.

Variable coinBySlip44 : Z -> option CoinInfo.

Lemma unharden_range (x : Z) : 0 <= unharden x < 2 ^ 31.
Proof.
  unfold unharden.
  change 0x7fffffff with (Z.ones 31).
  rewrite Z.land_ones by lia.
  apply Z.mod_pos_bound. lia.
Qed.

(** The digit loop stops by itself: fuel beyond the number of digits is
    never used. *)
Lemma put_decimal_fuel (n k : nat) :
  forall (i : Z) (c : string),
    0 <= i < 10 ^ Z.of_nat (S n) ->
    put_decimal (n + k) i c = put_decimal n i c.
Proof.
  induction n as [|n IH]; intros i c Hi.
  - assert (Hq : i / 10 = 0) by (apply Z.div_small; simpl in Hi; lia).
    destruct k as [|k]; simpl; [reflexivity|].
    rewrite Hq. reflexivity.
  - cbn [Nat.add put_decimal].
    destruct (0 <? i / 10) eqn:Hpos; [|reflexivity].
    apply IH. split.
    + apply Z.div_pos; lia.
    + apply Z.div_lt_upper_bound; [lia|].
      replace (10 * 10 ^ Z.of_nat (S n)) with (10 ^ Z.of_nat (S (S n))); [lia|].
      rewrite (Nat2Z.inj_succ (S n)), Z.pow_succ_r by lia. reflexivity.
Qed.

(** Ten iterations render every unhardened component completely. *)
Lemma put_decimal_complete (k : nat) (x : Z) (c : string) :
  put_decimal (9 + k) (unharden x) c = put_decimal 9 (unharden x) c.
Proof.
  apply put_decimal_fuel.
  pose proof (unharden_range x) as H.
  change (10 ^ Z.of_nat 10) with 10000000000.
  change (2 ^ 31) with 2147483648 in H. lia.
Qed.

Lemma long_path_any_table (extras : Z -> option string)
      (address_n : list Z) (address_is_account : bool) :
  (8 < List.length address_n)%nat ->
  address_n_str_with coinBySlip44 extras address_n address_is_account
  = "Unknown long path".
Proof.
  intros Hlen. unfold address_n_str_with.
  apply Nat.ltb_lt in Hlen. rewrite Hlen. reflexivity.
Qed.

(** The raw rendering of a non-empty path starts with "Path: m/". *)
Lemma raw_path_prefix (i : Z) (rest : list Z) :
  exists tail : string, raw_path (i :: rest) = "Path: m/" ++ tail.
Proof.
  unfold raw_path. cbn [fold_right]. unfold put_component at 1.
  eexists. reflexivity.
Qed.

Lemma known_path_length (address_n : list Z) :
  known_path address_n = true -> List.length address_n = 5%nat.
Proof.
  unfold known_path. intros H.
  repeat (apply andb_prop in H; destruct H as [H _]).
  now apply Nat.eqb_eq.
Qed.

(** On a known path the registry decides alone, unless the purpose is 44
    and the coin is not registered. *)
Lemma choose_abbr_ignores_table (ex1 ex2 : Z -> option string)
      (native_segwit p2sh_segwit : bool) (coin_type : Z) :
  native_segwit = true \/ p2sh_segwit = true
  \/ coinBySlip44 coin_type <> None ->
  choose_abbr coinBySlip44 ex1 native_segwit p2sh_segwit coin_type
  = choose_abbr coinBySlip44 ex2 native_segwit p2sh_segwit coin_type.
Proof.
  unfold choose_abbr. intros H.
  destruct native_segwit; [reflexivity|].
  destruct p2sh_segwit; [reflexivity|].
  destruct (coinBySlip44 coin_type); [reflexivity|].
  destruct H as [H|[H|H]]; congruence.
Qed.

Lemma choose_abbr_segwit_unregistered (extras : Z -> option string)
      (native_segwit p2sh_segwit : bool) (coin_type : Z) :
  native_segwit = true \/ p2sh_segwit = true ->
  coinBySlip44 coin_type = None ->
  choose_abbr coinBySlip44 extras native_segwit p2sh_segwit coin_type
  = (false, None).
Proof.
  unfold choose_abbr. intros H Hreg. rewrite Hreg.
  destruct native_segwit; [reflexivity|].
  destruct p2sh_segwit; [reflexivity|].
  destruct H; discriminate.
Qed.

End HumanizerFacts.

(** C3. A derivation path of more than 8 components is rendered as the
    fixed sentinel "Unknown long path", whatever its components, whatever
    [address_is_account] and whatever the coin registry holds. *)
Theorem address_n_str_long_path
        (coinBySlip44 : Z -> option CoinInfo)
        (address_n : list Z) (address_is_account : bool) :
  (8 < List.length address_n)%nat ->
  address_n_str coinBySlip44 address_n address_is_account
  = "Unknown long path".
Proof. apply long_path_any_table. Qed.

Lemma address_n_str_long_path_witness :
  (8 < List.length long_path)%nat
  /\ address_n_str btc_registry long_path true = "Unknown long path".
Proof.
  split.
  - simpl. lia.
  - apply (address_n_str_long_path btc_registry long_path true).
    simpl. lia.
Defined.

(** Cut down to its first five components the same path is a known one:
    the sentinel is not a partial parse. *)
Example long_path_not_partially_parsed :
  address_n_str btc_registry (firstn 5 long_path) false
  = "BTC legacy account #1".
Proof. reflexivity. Qed.

(** What [address_n_str] does on a known path, once [choose_abbr] has
    answered. *)
Lemma address_n_str_known (reg : Z -> option CoinInfo)
      (extras : Z -> option string) (p : list Z) (acc : bool)
      (legacy : bool) (abbr : option string) :
  known_path p = true ->
  choose_abbr reg extras (at_index p 0 =? HARDENED + 84)
              (at_index p 0 =? HARDENED + 49) (at_index p 1) = (legacy, abbr) ->
  address_n_str_with reg extras p acc
  = match abbr with
    | Some a =>
        let accnum := if acc then unharden (at_index p 4) + 1
                      else unharden (at_index p 2) + 1 in
        if accnum <? 100 then
          let path := strlcpy a 100 in
          let path := if legacy then strlcat path " legacy" 100 else path in
          let path := if at_index p 0 =? HARDENED + 84
                      then strlcat path " segwit" 100 else path in
          let path := if acc then strlcat path " address #" 100
                      else strlcat path " account #" 100 in
          strlcat path (acc_string accnum) 100
        else raw_path p
    | None => raw_path p
    end.
Proof.
  intros Hk Hc. unfold address_n_str_with.
  rewrite (known_path_length p Hk), Hk, Hc. reflexivity.
Qed.

(** C4, as the code has it.  With coin type 0 registered under the ticker
    "BTC" with segwit support, the path 44'/0'/0'/0/0 is rendered as
    "BTC legacy account #1"; the path 84'/0'/0'/0/0 is rendered as
    "BTC segwit account #1" when the entry also has a bech32 prefix, and as
    the raw path otherwise.  An account number below 10 is one digit. *)
Theorem address_n_str_btc_accounts
        (coinBySlip44 : Z -> option CoinInfo) (coin : CoinInfo) :
  coinBySlip44 (h 0) = Some coin ->
  ticker coin = "BTC" ->
  has_segwit coin = true ->
  address_n_str coinBySlip44 btc_legacy_path false = "BTC legacy account #1"
  /\ (bech32_prefix coin <> None ->
      address_n_str coinBySlip44 btc_segwit_path false
      = "BTC segwit account #1")
  /\ (bech32_prefix coin = None ->
      address_n_str coinBySlip44 btc_segwit_path false
      = "Path: m/84'/0'/0'/0/0").
Proof.
  intros Hreg Htick Hseg. unfold address_n_str.
  repeat split.
  - rewrite (address_n_str_known _ _ btc_legacy_path false true (Some "BTC"));
      [reflexivity | reflexivity |].
    unfold choose_abbr. change (at_index btc_legacy_path 1) with (h 0).
    rewrite Hreg, Hseg, Htick. reflexivity.
  - intros Hbech.
    rewrite (address_n_str_known _ _ btc_segwit_path false false (Some "BTC"));
      [reflexivity | reflexivity |].
    unfold choose_abbr. change (at_index btc_segwit_path 1) with (h 0).
    rewrite Hreg, Hseg, Htick.
    destruct (bech32_prefix coin); [reflexivity | congruence].
  - intros Hbech.
    rewrite (address_n_str_known _ _ btc_segwit_path false false None);
      [reflexivity | reflexivity |].
    unfold choose_abbr. change (at_index btc_segwit_path 1) with (h 0).
    rewrite Hreg, Hseg, Hbech. reflexivity.
Qed.

Lemma address_n_str_btc_accounts_witness :
  address_n_str btc_registry btc_legacy_path false = "BTC legacy account #1"
  /\ address_n_str btc_registry btc_segwit_path false = "BTC segwit account #1".
Proof.
  destruct (address_n_str_btc_accounts btc_registry btc_info)
    as (Hlegacy & Hsegwit & _); try reflexivity.
  split; [exact Hlegacy | apply Hsegwit; discriminate].
Defined.

(** C4 as the specification words it fails on the Bitcoin entry itself:
    the account number 1 is written "1", not "01". *)
Lemma address_n_str_btc_padding_counterexample :
  btc_registry (h 0) = Some btc_info
  /\ ticker btc_info = "BTC"
  /\ has_segwit btc_info = true
  /\ address_n_str btc_registry btc_legacy_path false <> "BTC legacy account #01"
  /\ address_n_str btc_registry btc_segwit_path false <> "BTC segwit account #01".
Proof.
  repeat split; try reflexivity; vm_compute; discriminate.
Qed.

(** "Segwit support" alone does not name the 84' path: without a bech32
    prefix it is not recognised. *)
Example segwit_without_bech32 :
  address_n_str (fun t => if t =? h 0 then Some (mkCoinInfo " BTC" true None) else None)
                btc_segwit_path false
  = "Path: m/84'/0'/0'/0/0".
Proof. reflexivity. Qed.

(** Account numbers from 10 to 99 take two digits, 100 falls back. *)
Example two_digit_account :
  address_n_str btc_registry [h 44; h 0; h 98; 0; 0] false = "BTC legacy account #99"
  /\ address_n_str btc_registry [h 44; h 0; h 99; 0; 0] false = "Path: m/44'/0'/99'/0/0".
Proof. split; reflexivity. Qed.

(** C5. On a known five-component path the extras table takes part only
    when the purpose is 44 and the registry has no entry for the coin
    type: otherwise the result is the same for every table.  For the
    purposes 84 and 49 with an unregistered coin type the result is the
    raw rendering, which starts with "Path: m/". *)
Theorem extras_only_for_unregistered_purpose_44
        (coinBySlip44 : Z -> option CoinInfo)
        (address_n : list Z) (address_is_account : bool) :
  known_path address_n = true ->
  (at_index address_n 0 <> h 44 \/ coinBySlip44 (at_index address_n 1) <> None ->
   forall table : Z -> option string,
     address_n_str_with coinBySlip44 table address_n address_is_account
     = address_n_str coinBySlip44 address_n address_is_account)
  /\ (at_index address_n 0 = h 84 \/ at_index address_n 0 = h 49 ->
      coinBySlip44 (at_index address_n 1) = None ->
      address_n_str coinBySlip44 address_n address_is_account
      = raw_path address_n
      /\ exists tail : string, raw_path address_n = "Path: m/" ++ tail).
Proof.
  intros Hk. split.
  - intros Hcase table. unfold address_n_str.
    destruct (choose_abbr coinBySlip44 slip44_extras
                (at_index address_n 0 =? HARDENED + 84)
                (at_index address_n 0 =? HARDENED + 49)
                (at_index address_n 1)) as [legacy abbr] eqn:Hc.
    rewrite (address_n_str_known _ _ _ _ legacy abbr Hk Hc).
    apply address_n_str_known; [exact Hk|].
    rewrite <- Hc. apply choose_abbr_ignores_table.
    destruct Hcase as [Hp|Hreg]; [|now right; right].
    (* a known path whose purpose is not 44 has purpose 49 or 84 *)
    unfold known_path in Hk.
    do 4 (apply andb_prop in Hk; destruct Hk as [Hk _]).
    apply andb_prop in Hk. destruct Hk as [_ Hk].
    apply orb_prop in Hk. destruct Hk as [Hk|Hk].
    + apply orb_prop in Hk. destruct Hk as [Hk|Hk].
      * apply Z.eqb_eq in Hk. unfold h in Hp. contradiction.
      * right; left. exact Hk.
    + left. exact Hk.
  - intros Hpurpose Hreg. split.
    + unfold address_n_str.
      apply (address_n_str_known _ _ _ _ false None Hk).
      apply choose_abbr_segwit_unregistered; [|exact Hreg].
      unfold h in Hpurpose.
      destruct Hpurpose as [Hp|Hp]; rewrite Hp; [left | right]; reflexivity.
    + pose proof (known_path_length _ Hk) as Hlen.
      destruct address_n as [|i rest]; [discriminate|].
      apply raw_path_prefix.
Qed.

Lemma extras_only_for_unregistered_purpose_44_witness :
  address_n_str_with btc_registry (fun _ => Some "XXX") [h 84; h 60; h 0; 0; 0] false
  = address_n_str btc_registry [h 84; h 60; h 0; 0; 0] false
  /\ address_n_str btc_registry [h 84; h 60; h 0; 0; 0] false
     = raw_path [h 84; h 60; h 0; 0; 0].
Proof.
  destruct (extras_only_for_unregistered_purpose_44
              btc_registry [h 84; h 60; h 0; 0; 0] false eq_refl)
    as [Hsame Hraw].
  split.
  - apply Hsame. left. discriminate.
  - apply Hraw; [left|]; reflexivity.
Defined.

(** The table is the last resort of purpose 44: Ethereum is not in the
    registry and is named under 44' only. *)
Example extras_used_for_purpose_44 :
  address_n_str btc_registry [h 44; h 60; h 0; 0; 0] false = "ETH account #1"
  /\ address_n_str btc_registry [h 49; h 60; h 0; 0; 0] false = "Path: m/49'/60'/0'/0/0"
  /\ address_n_str btc_registry [h 84; h 60; h 0; 0; 0] false = "Path: m/84'/60'/0'/0/0"
  /\ address_n_str_with btc_registry (fun _ => None) [h 44; h 60; h 0; 0; 0] false
     = "Path: m/44'/60'/0'/0/0".
Proof. repeat split; reflexivity. Qed.

(** The seven entries of the table, as rendered under purpose 44. *)
Example extras_table_entries :
  map (fun t => address_n_str empty_registry [h 44; h t; h 0; 0; 0] false)
      [40; 43; 60; 61; 108; 137; 37310; 0]
  = ["EXP account #1"; "NEM account #1"; "ETH account #1"; "ETC account #1";
     "UBQ account #1"; "RSK account #1"; "tRSK account #1";
     "Path: m/44'/0'/0'/0/0"]%list.
Proof. reflexivity. Qed.

(** * Properties of the message pager *)

Lemma cstr_app_nonzero (a b : list ascii) :
  Forall nonzero a -> cstr (a ++ b) = (a ++ cstr b)%list.
Proof.
  induction 1 as [|c a Hc _ IH]; [reflexivity|].
  cbn [app cstr]. rewrite IH.
  destruct (Ascii.eqb_spec c NUL) as [E|_]; [contradiction|reflexivity].
Qed.

Lemma cstr_nonzero (a : list ascii) : Forall nonzero a -> cstr a = a.
Proof.
  intros H. rewrite <- (app_nil_r a) at 1.
  rewrite cstr_app_nonzero by assumption. apply app_nil_r.
Qed.

Lemma cstr_zeros (n : nat) : cstr (repeat NUL n) = [].
Proof. destruct n; reflexivity. Qed.

(** Zero bytes behind a buffer do not change the string read from it. *)
Lemma cstr_app_zeros (l : list ascii) (n : nat) :
  cstr (l ++ repeat NUL n) = cstr l.
Proof.
  induction l as [|c l IH]; [apply cstr_zeros|].
  cbn [app cstr]. rewrite IH. reflexivity.
Qed.

Lemma skipn_zeros (k n : nat) : skipn k (repeat NUL n) = repeat NUL (n - k).
Proof.
  revert n. induction k as [|k IH]; intros [|n]; try reflexivity.
  cbn [skipn repeat Nat.sub]. apply IH.
Qed.

Lemma length_blank_row : List.length blank_row = 33%nat.
Proof. reflexivity. Qed.

(** [strlcpy] into a zeroed row leaves the copied characters followed by
    zeros. *)
Lemma strlcpy_row_blank (src : list ascii) (size : nat) :
  (1 <= size <= 33)%nat ->
  let chars := firstn (size - 1) (cstr src) in
  strlcpy_row blank_row src size
  = (chars ++ repeat NUL (33 - List.length chars))%list.
Proof.
  intros Hsize chars. unfold strlcpy_row. fold chars.
  assert (Hlen : (List.length chars <= size - 1)%nat)
    by (unfold chars; rewrite length_firstn; lia).
  unfold blank_row. rewrite skipn_zeros.
  replace (33 - List.length chars)%nat with (S (33 - S (List.length chars)))
    by lia.
  reflexivity.
Qed.

Lemma upd_three (c : ascii) :
  forall (k : nat) (l : list ascii),
    (k + 3 <= List.length l)%nat ->
    upd k c (upd (k + 1) c (upd (k + 2) c l))
    = (firstn k l ++ [c; c; c] ++ skipn (k + 3) l)%list.
Proof.
  induction k as [|k IH]; intros l Hl.
  - destruct l as [|x0 [|x1 [|x2 l]]]; simpl in Hl; try lia. reflexivity.
  - destruct l as [|x l]; simpl in Hl; [lia|].
    cbn [Nat.add upd firstn skipn app]. f_equal.
    apply IH. lia.
Qed.

Lemma upd_two (c : ascii) :
  forall (k : nat) (l : list ascii),
    (k + 2 <= List.length l)%nat ->
    upd k c (upd (k + 1) c l)
    = (firstn k l ++ [c; c] ++ skipn (k + 2) l)%list.
Proof.
  induction k as [|k IH]; intros l Hl.
  - destruct l as [|x0 [|x1 l]]; simpl in Hl; try lia. reflexivity.
  - destruct l as [|x l]; simpl in Hl; [lia|].
    cbn [Nat.add upd firstn skipn app]. f_equal.
    apply IH. lia.
Qed.

Lemma length_upd (k : nat) (c : ascii) :
  forall l : list ascii, List.length (upd k c l) = List.length l.
Proof.
  induction k as [|k IH]; intros [|x l]; try reflexivity.
  cbn [upd List.length]. now rewrite IH.
Qed.

Lemma copy_row_not_reached (msg : list ascii) (len rowlen k : Z) :
  len <= rowlen * k -> copy_row msg len rowlen k = Some blank_row.
Proof.
  intros H. unfold copy_row.
  destruct (rowlen * k <? len) eqn:E; [apply Z.ltb_lt in E; lia|reflexivity].
Qed.

Lemma line_of_padded (p : list (list ascii)) (k : nat) (text : list ascii) (n : nat) :
  nth k p [] = (text ++ repeat NUL n)%list ->
  Forall nonzero text ->
  line p k = string_of_list_ascii text.
Proof.
  intros Hrow Htext. unfold line.
  rewrite Hrow, cstr_app_zeros, cstr_nonzero by assumption. reflexivity.
Qed.

(** The callers that test [is_valid_ascii] first hand over text without
    zero byte. *)
Lemma is_valid_ascii_nonzero (data : list ascii) :
  is_valid_ascii data (Z.of_nat (List.length data)) = true ->
  Forall nonzero data.
Proof.
  unfold is_valid_ascii. rewrite Nat2Z.id, firstn_all.
  intros H. apply andb_true_iff in H. destruct H as [H _].
  rewrite forallb_forall in H.
  apply Forall_forall. intros c Hc. specialize (H c Hc).
  intros ->. discriminate H.
Qed.

(** A string ends at its first zero byte. *)
Lemma cstr_head (head tail : list ascii) :
  Forall nonzero head -> cstr (head ++ NUL :: tail) = head.
Proof.
  intros H. rewrite cstr_app_nonzero by assumption.
  cbn [cstr]. rewrite Ascii.eqb_refl. apply app_nil_r.
Qed.

(** C7, as the code has it.  The input [head ++ rest] is no longer than
    the row width and than a row's 32 characters and is followed by its
    terminator; [head] is the input up to its first zero byte: all of it
    when it holds none ([rest] is empty), and otherwise [rest] starts with
    that zero byte.  Row 0 holds [head] and zeros, so line 0 is [head]: the
    whole input when there is no zero byte, the input up to the first zero
    byte when there is one.  Lines 1 to 3 are empty and no ellipsis is
    written. *)
Theorem split_message_single_row (head rest : list ascii) (rowlen : Z) :
  let msg := (head ++ rest)%list in
  Z.of_nat (List.length msg) <= rowlen ->
  (List.length msg <= 32)%nat ->
  Forall nonzero head ->
  rest = [] \/ (exists tail : list ascii, rest = NUL :: tail) ->
  let p := [(head ++ repeat NUL (33 - List.length head))%list;
            blank_row; blank_row; blank_row] in
  split_message msg (Z.of_nat (List.length msg)) rowlen = Some p
  /\ line p 0 = string_of_list_ascii head
  /\ line p 1 = "" /\ line p 2 = "" /\ line p 3 = "".
Proof.
  intros msg Hrow Hcap Htext Hrest p.
  assert (Hstr : cstr msg = head).
  { unfold msg. destruct Hrest as [ -> | [tail -> ] ].
    - rewrite app_nil_r. now apply cstr_nonzero.
    - now apply cstr_head. }
  assert (Hhead : (List.length head <= List.length msg)%nat)
    by (unfold msg; rewrite length_app; lia).
  split.
  - unfold split_message.
    set (r := if 32 <? rowlen then 32 else rowlen).
    assert (Hr : Z.of_nat (List.length msg) <= r <= 32).
    { unfold r. destruct (32 <? rowlen) eqn:E.
      - lia.
      - apply Z.ltb_ge in E. lia. }
    rewrite !copy_row_not_reached by lia. cbn [bind].
    destruct (r * 4 <? Z.of_nat (List.length msg)) eqn:E;
      [apply Z.ltb_lt in E; lia|]. cbn [bind].
    rewrite strlcpy_row_blank by lia. cbv zeta.
    rewrite Hstr.
    rewrite firstn_all2 by lia. reflexivity.
  - repeat split; try reflexivity.
    apply (line_of_padded p 0 head (33 - List.length head));
      [reflexivity|assumption].
Qed.

Lemma split_message_single_row_witness :
  (line [(bytes "Sign this" ++ repeat NUL (33 - 9))%list;
         blank_row; blank_row; blank_row] 0 = "Sign this"
   /\ split_message (bytes "Sign this") 9 20
      = Some [(bytes "Sign this" ++ repeat NUL (33 - 9))%list;
              blank_row; blank_row; blank_row])
  /\ split_message binary3 3 20
     = Some [("A"%char :: repeat NUL (33 - 1))%list;
             blank_row; blank_row; blank_row].
Proof.
  assert (Htext : Forall nonzero (bytes "Sign this"))
    by (repeat constructor; discriminate).
  assert (Ha : Forall nonzero ["A"%char])
    by (repeat constructor; discriminate).
  split.
  - destruct (split_message_single_row (bytes "Sign this") [] 20)
      as (Hp & H0 & _);
      [simpl; lia | simpl; lia | exact Htext | now left |].
    split; [exact H0 | exact Hp].
  - destruct (split_message_single_row ["A"%char] [NUL; "B"%char] 20)
      as (Hp & _);
      [simpl; lia | simpl; lia | exact Ha | right; now eexists |].
    exact Hp.
Defined.

(** C7 as the specification words it fails on an input that holds a zero
    byte: [strlcpy] stops there, and neither the line nor the row holds
    the input. *)
Lemma split_message_zero_byte_counterexample :
  exists p : list (list ascii),
    split_message binary3 3 20 = Some p
    /\ line p 0 = "A"
    /\ line p 0 <> string_of_list_ascii binary3
    /\ firstn 3 (nth 0 p []) <> binary3.
Proof.
  eexists. split; [reflexivity|].
  repeat split; vm_compute; discriminate.
Qed.

Lemma copy_row_reached (msg : list ascii) (len rowlen k : Z) :
  0 <= rowlen <= 32 -> 0 <= k ->
  rowlen * k < len -> rowlen * k <= Z.of_nat (List.length msg) ->
  let chars :=
    firstn (Z.to_nat rowlen) (cstr (skipn (Z.to_nat (rowlen * k)) msg)) in
  copy_row msg len rowlen k
  = Some (chars ++ repeat NUL (33 - List.length chars))%list.
Proof.
  intros Hr Hk Hlen Hbuf chars. unfold copy_row, offset.
  destruct (rowlen * k <? len) eqn:E; [|apply Z.ltb_ge in E; lia].
  destruct ((0 <=? rowlen * k) && (rowlen * k <=? Z.of_nat (List.length msg)))
    eqn:E2.
  - cbn [bind]. rewrite strlcpy_row_blank by lia. cbv zeta.
    replace (Z.to_nat (rowlen + 1) - 1)%nat with (Z.to_nat rowlen) by lia.
    reflexivity.
  - apply andb_false_iff in E2.
    destruct E2 as [E2|E2]; [apply Z.leb_gt in E2 | apply Z.leb_gt in E2]; nia.
Qed.

Lemma store_in_bounds (buf : list ascii) (k : Z) (c : ascii) :
  0 <= k < Z.of_nat (List.length buf) ->
  store buf k c = Some (upd (Z.to_nat k) c buf).
Proof.
  intros H. unfold store.
  destruct (0 <=? k) eqn:E1; [|apply Z.leb_gt in E1; lia].
  destruct (k <? Z.of_nat (List.length buf)) eqn:E2;
    [reflexivity | apply Z.ltb_ge in E2; lia].
Qed.

(** The three stores of the ellipsis on a full-size row. *)
Lemma store_ellipsis (row : list ascii) (rowlen : Z) :
  List.length row = 33%nat -> 3 <= rowlen <= 32 ->
  (a <- store row (u32 (rowlen - 1)) "." ;;
   b <- store a (u32 (rowlen - 2)) "." ;;
   store b (u32 (rowlen - 3)) ".")
  = Some (firstn (Z.to_nat (rowlen - 3)) row ++ ["."; "."; "."]
          ++ skipn (Z.to_nat rowlen) row)%list%char.
Proof.
  intros Hlen Hr. unfold u32.
  rewrite !Z.mod_small by lia.
  rewrite store_in_bounds by lia. cbn [bind].
  rewrite store_in_bounds by (rewrite length_upd; lia). cbn [bind].
  rewrite store_in_bounds by (rewrite !length_upd; lia).
  replace (Z.to_nat (rowlen - 1)) with (Z.to_nat (rowlen - 3) + 2)%nat by lia.
  replace (Z.to_nat (rowlen - 2)) with (Z.to_nat (rowlen - 3) + 1)%nat by lia.
  rewrite upd_three by lia.
  replace (Z.to_nat (rowlen - 3) + 3)%nat with (Z.to_nat rowlen) by lia.
  reflexivity.
Qed.

Lemma length_padded (chars : list ascii) :
  (List.length chars <= 33)%nat ->
  List.length (chars ++ repeat NUL (33 - List.length chars)) = 33%nat.
Proof. intros H. rewrite length_app, repeat_length. lia. Qed.

(** What lies behind the row width in a row filled by [strlcpy] is zero. *)
Lemma skipn_padded (chars : list ascii) (n : nat) :
  (List.length chars <= n)%nat ->
  exists m : nat,
    skipn n (chars ++ repeat NUL (33 - List.length chars)) = repeat NUL m.
Proof.
  intros H. rewrite skipn_app, skipn_all2 by lia.
  rewrite skipn_zeros. eexists. reflexivity.
Qed.

(** C6, as the code has it.  For a row width from 3 to 32 and an input
    longer than four rows, the three characters of row 3 at the positions
    [rowlen - 3] to [rowlen - 1] are overwritten with dots; when the bytes
    in front of them hold no zero byte, line 3 is these bytes followed by
    "...".  The ellipsis is the only sign of the truncation. *)
Theorem split_message_ellipsis (msg : list ascii) (rowlen : Z) :
  3 <= rowlen <= 32 ->
  4 * rowlen < Z.of_nat (List.length msg) ->
  exists p : list (list ascii),
    split_message msg (Z.of_nat (List.length msg)) rowlen = Some p
    /\ (forall k : Z, rowlen - 3 <= k < rowlen ->
        nth (Z.to_nat k) (nth 3 p []) NUL = "."%char)
    /\ (let chunk := firstn (Z.to_nat (rowlen - 3))
                            (skipn (Z.to_nat (3 * rowlen)) msg) in
        Forall nonzero chunk ->
        line p 3 = string_of_list_ascii (chunk ++ ellipsis)).
Proof.
  intros Hr Hlen. unfold split_message.
  destruct (32 <? rowlen) eqn:E; [apply Z.ltb_lt in E; lia|clear E].
  rewrite !copy_row_reached by lia. cbv zeta. cbn [bind].
  destruct (rowlen * 4 <? Z.of_nat (List.length msg)) eqn:E;
    [clear E | apply Z.ltb_ge in E; lia].
  set (chars := firstn (Z.to_nat rowlen)
                       (cstr (skipn (Z.to_nat (rowlen * 3)) msg))).
  assert (Hchars : (List.length chars <= Z.to_nat rowlen)%nat)
    by (unfold chars; rewrite length_firstn; lia).
  set (row := (chars ++ repeat NUL (33 - List.length chars))%list).
  assert (Hrow : List.length row = 33%nat) by (apply length_padded; lia).
  rewrite store_ellipsis by assumption. cbn [bind].
  eexists. split; [reflexivity|]. cbn [nth]. split.
  - intros k Hk.
    rewrite app_nth2 by (rewrite length_firstn; lia).
    rewrite length_firstn, Hrow.
    assert (Hcase : k = rowlen - 3 \/ k = rowlen - 2 \/ k = rowlen - 1) by lia.
    destruct Hcase as [ -> | [ -> | -> ] ].
    + replace (_ - _)%nat with 0%nat by lia. reflexivity.
    + replace (_ - _)%nat with 1%nat by lia. reflexivity.
    + replace (_ - _)%nat with 2%nat by lia. reflexivity.
  - set (chunk := firstn (Z.to_nat (rowlen - 3))
                         (skipn (Z.to_nat (3 * rowlen)) msg)).
    intros Hchunk. unfold line. cbn [nth]. f_equal.
    assert (Hcl : List.length chunk = Z.to_nat (rowlen - 3)).
    { unfold chunk. rewrite length_firstn, length_skipn. lia. }
    assert (Hsplit : exists t : list ascii, chars = (chunk ++ t)%list).
    { unfold chars.
      replace (Z.to_nat (rowlen * 3)) with (Z.to_nat (3 * rowlen)) by lia.
      rewrite <- (firstn_skipn (Z.to_nat (rowlen - 3))
                    (skipn (Z.to_nat (3 * rowlen)) msg)).
      fold chunk. rewrite cstr_app_nonzero by assumption.
      rewrite firstn_app, (firstn_all2 (n := Z.to_nat rowlen) chunk) by lia.
      eexists. reflexivity. }
    assert (Hfront : firstn (Z.to_nat (rowlen - 3)) row = chunk).
    { destruct Hsplit as [t Ht]. unfold row. rewrite Ht, <- app_assoc.
      rewrite firstn_app, Hcl, Nat.sub_diag, firstn_all2 by lia.
      apply app_nil_r. }
    rewrite Hfront.
    destruct (skipn_padded chars (Z.to_nat rowlen) Hchars) as [m Hm].
    fold row in Hm. rewrite Hm.
    rewrite cstr_app_nonzero by assumption.
    change (["."; "."; "."]%char ++ repeat NUL m)%list
      with (ellipsis ++ repeat NUL m)%list.
    rewrite cstr_app_zeros.
    rewrite cstr_nonzero; [reflexivity|].
    repeat constructor; discriminate.
Qed.

Lemma split_message_ellipsis_witness :
  exists p : list (list ascii),
    split_message text45 45 10 = Some p
    /\ line p 3 = "0123456...".
Proof.
  destruct (split_message_ellipsis text45 10) as (p & Hp & _ & Hline);
    [lia | simpl; lia |].
  exists p. split; [exact Hp|].
  apply Hline. repeat constructor; discriminate.
Defined.

(** C6 as the specification words it fails in two ways: a row narrower
    than three characters cannot hold the ellipsis (the third store falls
    in front of the row), and a zero byte at the start of row 3 leaves
    line 3 empty although the dots are stored behind it. *)
Lemma split_message_ellipsis_counterexample :
  split_message text9 9 2 = None
  /\ exists p : list (list ascii),
       split_message binary45 45 10 = Some p /\ line p 3 = "".
Proof.
  split; [reflexivity|].
  eexists. split; reflexivity.
Qed.

(** The pager reads its input as strings only: zeros behind the [len]
    bytes of the text do not show. *)
Lemma copy_row_padding (text : list ascii) (n : nat) (len rowlen k : Z) :
  0 <= rowlen -> 0 <= k -> len <= Z.of_nat (List.length text) ->
  copy_row (text ++ repeat NUL n) len rowlen k = copy_row text len rowlen k.
Proof.
  intros Hr Hk Hlen. unfold copy_row, offset.
  destruct (rowlen * k <? len) eqn:E; [apply Z.ltb_lt in E|reflexivity].
  rewrite length_app, repeat_length.
  assert (H0 : 0 <= rowlen * k) by nia.
  destruct (0 <=? rowlen * k) eqn:E0; [|apply Z.leb_gt in E0; lia].
  destruct (rowlen * k <=? Z.of_nat (List.length text)) eqn:E1;
    [apply Z.leb_le in E1 | apply Z.leb_gt in E1; lia].
  destruct (rowlen * k <=? Z.of_nat (List.length text + n)) eqn:E2;
    [|apply Z.leb_gt in E2; lia].
  cbn [andb bind]. unfold strlcpy_row.
  rewrite skipn_app.
  replace (Z.to_nat (rowlen * k) - List.length text)%nat with 0%nat by lia.
  cbn [skipn]. rewrite cstr_app_zeros. reflexivity.
Qed.

Lemma split_message_padding (text : list ascii) (n : nat) (len rowlen : Z) :
  0 <= rowlen -> len <= Z.of_nat (List.length text) ->
  split_message (text ++ repeat NUL n) len rowlen = split_message text len rowlen.
Proof.
  intros Hr Hlen. unfold split_message.
  set (r := if 32 <? rowlen then 32 else rowlen).
  assert (H0 : 0 <= r) by (unfold r; destruct (32 <? rowlen); lia).
  rewrite !copy_row_padding by lia.
  unfold strlcpy_row. rewrite cstr_app_zeros. reflexivity.
Qed.

Section HexFacts.

Variable hexdigits : Z -> ascii.

Lemma length_hex_chars (data : list ascii) :
  List.length (hex_chars hexdigits data) = (2 * List.length data)%nat.
Proof.
  induction data as [|c data IH]; [reflexivity|].
  unfold hex_chars in *. cbn [flat_map app List.length]. rewrite IH. lia.
Qed.

Lemma hex_text_length (msg : list ascii) :
  List.length (hex_text hexdigits msg) = (2 * Nat.min 32 (List.length msg))%nat.
Proof.
  unfold hex_text.
  destruct (32 <? List.length msg)%nat eqn:E.
  - apply Nat.ltb_lt in E.
    rewrite length_app, length_firstn, length_hex_chars, length_firstn.
    cbn [List.length]. lia.
  - apply Nat.ltb_ge in E.
    rewrite length_hex_chars, length_firstn. lia.
Qed.

Lemma data2hex_blank (msg : list ascii) (size : Z) :
  0 <= size <= 32 -> size <= Z.of_nat (List.length msg) ->
  let digits := hex_chars hexdigits (firstn (Z.to_nat size) msg) in
  data2hex hexdigits msg size (repeat NUL 65)
  = Some (digits ++ repeat NUL (65 - List.length digits))%list.
Proof.
  intros Hsize Hmsg digits. unfold data2hex. rewrite repeat_length.
  destruct (0 <=? size) eqn:E0; [|apply Z.leb_gt in E0; lia].
  destruct (size <=? Z.of_nat (List.length msg)) eqn:E1;
    [|apply Z.leb_gt in E1; lia].
  destruct (2 * size <? Z.of_nat 65) eqn:E2; [|apply Z.ltb_ge in E2; lia].
  cbn [andb]. fold digits. rewrite skipn_zeros.
  assert (Hd : (List.length digits <= 64)%nat).
  { unfold digits. rewrite length_hex_chars, length_firstn. lia. }
  replace (65 - List.length digits)%nat
    with (S (65 - S (List.length digits))) by lia.
  reflexivity.
Qed.

End HexFacts.

Lemma split_message_hex_as_text (hexdigits : Z -> ascii) (msg : list ascii) :
  split_message_hex hexdigits msg (Z.of_nat (List.length msg))
  = split_message (hex_text hexdigits msg)
                  (2 * Z.min (Z.of_nat (List.length msg)) 32) 16.
Proof.
  set (len := Z.of_nat (List.length msg)).
  assert (Hlen : len = Z.of_nat (List.length msg)) by reflexivity.
  clearbody len.
  unfold split_message_hex, hex_text.
  change (32 * 2 + 1)%nat with 65%nat.
  destruct (32 <? len) eqn:E.
  - apply Z.ltb_lt in E.
    destruct (32 <? List.length msg)%nat eqn:En;
      [|apply Nat.ltb_ge in En; lia].
    rewrite data2hex_blank by lia. cbv zeta. cbn [bind].
    change (Z.to_nat 32) with 32%nat.
    set (digits := hex_chars hexdigits (firstn 32 msg)).
    assert (Hd : List.length digits = 64%nat)
      by (unfold digits; rewrite length_hex_chars, length_firstn; lia).
    rewrite Hd. change (65 - 64)%nat with 1%nat.
    rewrite store_in_bounds by (rewrite length_app, Hd; simpl; lia).
    cbn [bind].
    rewrite store_in_bounds
      by (rewrite length_upd, length_app, Hd; simpl; lia).
    change (Z.to_nat 63) with (62 + 1)%nat.
    change (Z.to_nat 62) with 62%nat.
    rewrite upd_two by (rewrite length_app, Hd; simpl; lia).
    rewrite firstn_app, skipn_app, Hd.
    rewrite (skipn_all2 (n := 62 + 2) digits) by lia.
    change (62 - 64)%nat with 0%nat. change (62 + 2 - 64)%nat with 0%nat.
    cbn [firstn skipn]. rewrite !app_nil_r, !app_nil_l.
    replace (2 * Z.min len 32) with (32 * 2) by lia.
    rewrite app_assoc.
    apply (split_message_padding (firstn 62 digits ++ ["."; "."]%char) 1);
      [lia|].
    rewrite length_app, length_firstn, Hd. simpl. lia.
  - apply Z.ltb_ge in E.
    destruct (32 <? List.length msg)%nat eqn:En;
      [apply Nat.ltb_lt in En; lia|].
    rewrite data2hex_blank by lia. cbv zeta. cbn [bind].
    rewrite Hlen, Nat2Z.id.
    rewrite !firstn_all2 by lia.
    replace (2 * Z.min (Z.of_nat (List.length msg)) 32)
      with (Z.of_nat (List.length msg) * 2) by lia.
    apply split_message_padding; [lia|].
    rewrite length_hex_chars. lia.
Qed.

(** The bytes behind the 32nd take no part in the result. *)
Lemma split_message_hex_first_32 (hexdigits : Z -> ascii)
      (msg msg' : list ascii) :
  (32 < List.length msg)%nat -> (32 < List.length msg')%nat ->
  firstn 32 msg = firstn 32 msg' ->
  split_message_hex hexdigits msg (Z.of_nat (List.length msg))
  = split_message_hex hexdigits msg' (Z.of_nat (List.length msg')).
Proof.
  intros H H' Heq.
  rewrite !split_message_hex_as_text.
  unfold hex_text. rewrite Heq.
  pose proof H as Hb. pose proof H' as Hb'.
  apply Nat.ltb_lt in Hb, Hb'. rewrite Hb, Hb'.
  f_equal. lia.
Qed.

Example split_message_hex_45_bytes :
  option_map (fun p => (line p 0, line p 1, line p 2, line p 3))
             (split_message_hex upper_hexdigits text45 45)
  = Some ("3031323334353637", "3839616263646566", "6768696A41424344",
          "45464748494A30..").
Proof. reflexivity. Qed.

Example split_message_hex_9_bytes :
  option_map (fun p => (line p 0, line p 1, line p 2, line p 3))
             (split_message_hex upper_hexdigits text9 9)
  = Some ("3031323334353637", "38", "", "").
Proof. reflexivity. Qed.

(** * Properties of the navigation state machine *)

Section TickFacts.

Variable e : Env.

(** What [layoutHome] leaves in the state: the Home screen and a fresh
    lock timer; the calls it makes do not touch the rest. *)
Lemma layoutHome_state (w : World) :
  st (layoutHome e w)
  = mkState LayoutHome (info_page (st w))
            (system_millis_display_info_start (st w)) (now e)
            (system_millis_logo_refresh (st w)).
Proof.
  unfold layoutHome, layoutStatusLogo.
  destruct (is_home (layoutLast (st w)) || is_screensaver (layoutLast (st w)));
    cbn; destruct (status_logo e _ true); reflexivity.
Qed.

Lemma layoutDeviceInfo_state (ucPage : Z) (w : World) :
  st (layoutDeviceInfo e ucPage w)
  = mkState LayoutDeviceInfo (info_page (st w)) (now e)
            (system_millis_lock_start (st w))
            (system_millis_logo_refresh (st w)).
Proof. reflexivity. Qed.

(** Away from Home and the screensaver the last block only looks at the
    cancel button. *)
Lemma wake_or_abort_elsewhere (w : World) :
  is_home (layoutLast (st w)) = false ->
  is_screensaver (layoutLast (st w)) = false ->
  wake_or_abort e w
  = if NoUp (button e) then call SigningAbort (call RecoveryAbort w) else w.
Proof.
  intros Hh Hs. unfold wake_or_abort. rewrite Hh, Hs. reflexivity.
Qed.

Lemma home_timeouts_elsewhere (w : World) :
  is_home (layoutLast (st w)) = false -> home_timeouts e w = w.
Proof. intros Hh. unfold home_timeouts. rewrite Hh. reflexivity. Qed.

Lemma info_navigation_elsewhere (w : World) :
  is_home (layoutLast (st w)) = false ->
  is_device_info (layoutLast (st w)) = false ->
  info_navigation e w = w.
Proof.
  intros Hh Hd. unfold info_navigation. rewrite Hh, Hd. reflexivity.
Qed.

(** From Home the previous-page button wins over the next-page one. *)
Lemma info_navigation_home_prev (w : World) :
  layoutLast (st w) = LayoutHome ->
  UpUp (button e) = true ->
  st (info_navigation e w)
  = mkState LayoutDeviceInfo DEVICE_INFO_PAGE_NUM (now e)
            (system_millis_lock_start (st w))
            (system_millis_logo_refresh (st w)).
Proof.
  intros Hh Hup. unfold info_navigation. rewrite Hh, Hup. reflexivity.
Qed.

End TickFacts.

(** C10. On the Home screen a tick with both the previous-page and the
    next-page edge set shows information page 4: [layoutLast] becomes
    [layoutDeviceInfo] and [info_page] is 4, not 1. *)
Theorem home_prev_wins_over_next (e : Env) (s : State) :
  layoutLast s = LayoutHome ->
  UpUp (button e) = true ->
  DownUp (button e) = true ->
  layoutLast (st (tick e s)) = LayoutDeviceInfo
  /\ info_page (st (tick e s)) = 4.
Proof.
  intros Hhome Hup _. unfold tick, layoutHomeInfo.
  set (w0 := if layoutNeedRefresh e then layoutHome e (mkWorld s []) else mkWorld s []).
  assert (H0 : layoutLast (st w0) = LayoutHome).
  { unfold w0. destruct (layoutNeedRefresh e); [|exact Hhome].
    rewrite layoutHome_state. reflexivity. }
  pose proof (info_navigation_home_prev e w0 H0 Hup) as H1.
  set (w1 := info_navigation e w0) in *.
  rewrite home_timeouts_elsewhere by (rewrite H1; reflexivity).
  rewrite wake_or_abort_elsewhere by (rewrite H1; reflexivity).
  destruct (NoUp (button e)); cbn [call st]; rewrite H1; split; reflexivity.
Qed.

Lemma home_prev_wins_over_next_witness :
  layoutLast (st (tick prev_next_env home_state)) = LayoutDeviceInfo
  /\ info_page (st (tick prev_next_env home_state)) = 4.
Proof.
  apply (home_prev_wins_over_next prev_next_env home_state); reflexivity.
Defined.

(** C1, as the code has it.  With no home refresh pending, on a screen
    that is neither Home, the screensaver nor the device information, a
    tick with the cancel edge set calls [recovery_abort] and
    [signing_abort] once each, calls nothing else, and leaves the screen
    and the rest of the state as they were. *)
Theorem cancel_on_dialog_aborts (e : Env) (s : State) :
  layoutNeedRefresh e = false ->
  layoutLast s <> LayoutHome ->
  layoutLast s <> LayoutScreensaver ->
  layoutLast s <> LayoutDeviceInfo ->
  NoUp (button e) = true ->
  calls_of SigningAbort (calls (tick e s)) = 1%nat
  /\ calls_of RecoveryAbort (calls (tick e s)) = 1%nat
  /\ layoutLast (st (tick e s)) = layoutLast s
  /\ tick e s = mkWorld s [RecoveryAbort; SigningAbort].
Proof.
  intros Hrefresh Hh Hs Hd Hno.
  assert (Htick : tick e s = mkWorld s [RecoveryAbort; SigningAbort]).
  { unfold tick, layoutHomeInfo. rewrite Hrefresh.
    assert (is_home (layoutLast s) = false
            /\ is_screensaver (layoutLast s) = false
            /\ is_device_info (layoutLast s) = false) as (Eh & Es & Ed)
      by (destruct (layoutLast s); repeat split; congruence).
    rewrite info_navigation_elsewhere by assumption.
    rewrite home_timeouts_elsewhere by assumption.
    rewrite wake_or_abort_elsewhere by assumption.
    rewrite Hno. reflexivity. }
  rewrite Htick. repeat split; reflexivity.
Qed.

Lemma cancel_on_dialog_aborts_witness :
  tick cancel_env dialog_state
  = mkWorld dialog_state [RecoveryAbort; SigningAbort].
Proof.
  apply (cancel_on_dialog_aborts cancel_env dialog_state);
    [reflexivity | discriminate | discriminate | discriminate | reflexivity].
Defined.

(** C1 as the specification words it fails on a device information page:
    the cancel edge leads back to Home and no abort is called.  It also
    fails on a dialog when a home refresh is pending: the tick draws Home
    first and the cancel edge finds no dialog any more. *)
Lemma cancel_on_info_page_counterexample :
  (layoutLast info_state <> LayoutHome
   /\ layoutLast info_state <> LayoutScreensaver
   /\ NoUp (button cancel_env) = true
   /\ calls_of SigningAbort (calls (tick cancel_env info_state)) = 0%nat
   /\ calls_of RecoveryAbort (calls (tick cancel_env info_state)) = 0%nat
   /\ layoutLast (st (tick cancel_env info_state)) = LayoutHome
   /\ layoutLast (st (tick cancel_env info_state)) <> layoutLast info_state)
  /\ (layoutLast dialog_state = LayoutDialogSwipe
      /\ NoUp (button cancel_refresh_env) = true
      /\ calls_of SigningAbort (calls (tick cancel_refresh_env dialog_state)) = 0%nat
      /\ calls_of RecoveryAbort (calls (tick cancel_refresh_env dialog_state)) = 0%nat
      /\ layoutLast (st (tick cancel_refresh_env dialog_state)) = LayoutHome).
Proof.
  repeat split; try discriminate; reflexivity.
Qed.

Section AutoLock.

Variable e : Env.
Variable s : State.

Hypothesis on_home : layoutLast s = LayoutHome.
Hypothesis no_edge : button e = no_buttons.
Hypothesis no_refresh : layoutNeedRefresh e = false.
Hypothesis delay_elapsed :
  config_getAutoLockDelayMs e <= elapsed e (system_millis_lock_start s).

(** The first block does nothing and the lock fires. *)
Lemma idle_home_reaches_lock :
  tick e s
  = wake_or_abort e
      (let w :=
         if sys_nfcState e || sys_usbState e
         then layoutScreensaver (call (SessionClear true) (mkWorld s []))
         else call Shutdown (mkWorld s []) in
       if 1000 <=? elapsed e (system_millis_logo_refresh (st w)) then
         let '(changed, w) := layoutStatusLogo e false w in
         let w := if changed then layoutHome e (abort_and_clear w) else w in
         set_logo_refresh (now e) w
       else w).
Proof.
  unfold tick, layoutHomeInfo. rewrite no_refresh.
  unfold info_navigation. cbn [st]. rewrite on_home, no_edge. cbn [is_home UpUp DownUp no_buttons orb].
  unfold home_timeouts. cbn [st]. rewrite on_home. cbn [is_home].
  apply Z.leb_le in delay_elapsed. rewrite delay_elapsed. reflexivity.
Qed.

Lemma wake_or_abort_idle (w : World) : wake_or_abort e w = w.
Proof.
  unfold wake_or_abort. rewrite no_edge. cbn [NoUp YesUp UpUp DownUp no_buttons orb].
  rewrite andb_false_r.
  destruct (negb (is_home (layoutLast (st w)))
            && negb (is_screensaver (layoutLast (st w)))); reflexivity.
Qed.

(** With a transport present and a poll that is not due or reports no
    change, the session is cleared once and the screensaver stays. *)
Lemma idle_home_locks :
  sys_nfcState e || sys_usbState e = true ->
  elapsed e (system_millis_logo_refresh s) < 1000
  \/ (forall done : list Call, status_logo e done false = false) ->
  tick e s
  = mkWorld (mkState LayoutScreensaver (info_page s)
               (system_millis_display_info_start s)
               (system_millis_lock_start s)
               (if 1000 <=? elapsed e (system_millis_logo_refresh s)
                then now e else system_millis_logo_refresh s))
            ([SessionClear true; OledClear; OledRefresh]
             ++ if 1000 <=? elapsed e (system_millis_logo_refresh s)
                then [LayoutStatusLogo false] else [])%list.
Proof.
  intros Htransport Hpoll.
  rewrite idle_home_reaches_lock, wake_or_abort_idle, Htransport.
  cbn [layoutScreensaver call set_layoutLast st calls
       system_millis_logo_refresh app].
  destruct (1000 <=? elapsed e (system_millis_logo_refresh s)) eqn:Edue.
  - destruct Hpoll as [Hnot|Hquiet]; [apply Z.leb_le in Edue; lia|].
    unfold layoutStatusLogo. cbn [calls]. rewrite Hquiet. reflexivity.
  - reflexivity.
Qed.

(** Without a transport [shutdown] is called, once, whatever the status
    poll does afterwards. *)
Lemma idle_home_shuts_down :
  sys_nfcState e || sys_usbState e = false ->
  calls_of Shutdown (calls (tick e s)) = 1%nat.
Proof.
  intros Htransport.
  rewrite idle_home_reaches_lock, wake_or_abort_idle, Htransport.
  cbn [call st calls app system_millis_logo_refresh].
  destruct (1000 <=? elapsed e (system_millis_logo_refresh s));
    [|reflexivity].
  unfold layoutStatusLogo. cbn [calls call st].
  destruct (status_logo e _ false); [|reflexivity].
  unfold layoutHome, layoutStatusLogo, abort_and_clear.
  cbn [call st calls layoutLast]. rewrite on_home.
  cbn [is_home orb call st calls set_layoutLast].
  destruct (status_logo e _ true); reflexivity.
Qed.

End AutoLock.

(** C2, as the code has it.  On the Home screen, with no button edge, no
    home refresh pending and the auto-lock delay elapsed since
    [system_millis_lock_start]: when NFC or USB is present and the status
    poll is not due or reports no change, the tick calls
    [session_clear(true)] once and ends on the screensaver; when neither
    is present the tick calls [shutdown] once. *)
Theorem auto_lock_on_home (e : Env) (s : State) :
  layoutLast s = LayoutHome ->
  button e = no_buttons ->
  layoutNeedRefresh e = false ->
  config_getAutoLockDelayMs e <= elapsed e (system_millis_lock_start s) ->
  (sys_nfcState e || sys_usbState e = true ->
   elapsed e (system_millis_logo_refresh s) < 1000
   \/ (forall done : list Call, status_logo e done false = false) ->
   calls_of (SessionClear true) (calls (tick e s)) = 1%nat
   /\ layoutLast (st (tick e s)) = LayoutScreensaver)
  /\ (sys_nfcState e || sys_usbState e = false ->
      calls_of Shutdown (calls (tick e s)) = 1%nat).
Proof.
  intros Hhome Hedge Hrefresh Hdelay. split.
  - intros Htransport Hpoll.
    rewrite (idle_home_locks e s Hhome Hedge Hrefresh Hdelay Htransport Hpoll).
    cbn [st calls layoutLast].
    destruct (1000 <=? elapsed e (system_millis_logo_refresh s));
      split; reflexivity.
  - apply idle_home_shuts_down; assumption.
Qed.

Lemma auto_lock_on_home_witness :
  (calls_of (SessionClear true) (calls (tick idle_env home_state)) = 1%nat
   /\ layoutLast (st (tick idle_env home_state)) = LayoutScreensaver)
  /\ calls_of Shutdown (calls (tick idle_unplugged_env home_state)) = 1%nat.
Proof.
  split.
  - apply (auto_lock_on_home idle_env home_state);
      [reflexivity | reflexivity | reflexivity | vm_compute; discriminate
      | reflexivity | right; reflexivity].
  - apply (auto_lock_on_home idle_unplugged_env home_state);
      [reflexivity | reflexivity | reflexivity | vm_compute; discriminate
      | reflexivity].
Defined.

(** C2 as the specification words it fails when the status poll of the
    same tick reports a change: the session is cleared a second time and
    the tick ends on Home, not on the screensaver.  It also fails when a
    home refresh is pending: [layoutHome] restarts the lock timer before
    it is looked at, and nothing is locked. *)
Lemma auto_lock_status_change_counterexample :
  (layoutLast home_state = LayoutHome
   /\ button idle_status_change_env = no_buttons
   /\ config_getAutoLockDelayMs idle_status_change_env
      <= elapsed idle_status_change_env (system_millis_lock_start home_state)
   /\ sys_usbState idle_status_change_env = true
   /\ calls_of (SessionClear true)
               (calls (tick idle_status_change_env home_state)) = 2%nat
   /\ layoutLast (st (tick idle_status_change_env home_state)) = LayoutHome)
  /\ (button idle_refresh_env = no_buttons
      /\ config_getAutoLockDelayMs idle_refresh_env
         <= elapsed idle_refresh_env (system_millis_lock_start home_state)
      /\ sys_usbState idle_refresh_env = true
      /\ calls_of (SessionClear true)
                  (calls (tick idle_refresh_env home_state)) = 0%nat
      /\ layoutLast (st (tick idle_refresh_env home_state)) = LayoutHome).
Proof.
  repeat split; try reflexivity; vm_compute; discriminate.
Qed.

Section Stamps.

Variable e : Env.
Variable s : State.

Ltac stamp_step :=
  unfold stamps, entered_home, entered_info_page in *;
  cbn [st calls call set_layoutLast set_info_page set_logo_refresh
       set_lock_start set_display_info_start
       system_millis_lock_start system_millis_display_info_start] in *;
  rewrite ?existsb_app;
  cbn [existsb is_draw_home is_draw_info orb];
  rewrite ?orb_false_r, ?orb_true_r;
  try tauto.

Lemma stamps_start : stamps e s (mkWorld s []).
Proof. split; reflexivity. Qed.

Lemma stamps_call (c : Call) (w : World) :
  is_draw_home c = false -> is_draw_info c = false ->
  stamps e s w -> stamps e s (call c w).
Proof. intros Hh Hi H. stamp_step. rewrite Hh, Hi. stamp_step. Qed.

Lemma stamps_set_layoutLast (l : Layout) (w : World) :
  stamps e s w -> stamps e s (set_layoutLast l w).
Proof. intros H. stamp_step. Qed.

Lemma stamps_set_info_page (n : Z) (w : World) :
  stamps e s w -> stamps e s (set_info_page n w).
Proof. intros H. stamp_step. Qed.

Lemma stamps_set_logo_refresh (t : Z) (w : World) :
  stamps e s w -> stamps e s (set_logo_refresh t w).
Proof. intros H. stamp_step. Qed.

Lemma stamps_abort_and_clear (w : World) :
  stamps e s w -> stamps e s (abort_and_clear w).
Proof. intros H. unfold abort_and_clear. stamp_step. Qed.

Lemma stamps_layoutScreensaver (w : World) :
  stamps e s w -> stamps e s (layoutScreensaver w).
Proof. intros H. unfold layoutScreensaver. stamp_step. Qed.

Lemma stamps_layoutHome (w : World) :
  stamps e s w -> stamps e s (layoutHome e w).
Proof.
  intros H. unfold layoutHome, layoutStatusLogo, abort_and_clear.
  destruct (is_home (layoutLast (st w)) || is_screensaver (layoutLast (st w)));
    cbn [call set_layoutLast st calls];
    destruct (status_logo e _ true); stamp_step.
Qed.

Lemma stamps_layoutDeviceInfo (ucPage : Z) (w : World) :
  stamps e s w -> stamps e s (layoutDeviceInfo e ucPage w).
Proof. intros H. unfold layoutDeviceInfo. stamp_step. Qed.

Hint Resolve stamps_call stamps_set_layoutLast stamps_set_info_page
     stamps_set_logo_refresh stamps_abort_and_clear stamps_layoutScreensaver
     stamps_layoutHome stamps_layoutDeviceInfo : core.

Ltac split_ifs :=
  repeat match goal with
         | |- context [if ?b then _ else _] => destruct b
         end.

Lemma stamps_info_navigation (w : World) :
  stamps e s w -> stamps e s (info_navigation e w).
Proof.
  intros H. unfold info_navigation.
  destruct (is_home (layoutLast (st w)));
    [|destruct (is_device_info (layoutLast (st w)))]; [| |assumption].
  - destruct (UpUp (button e) || DownUp (button e)); auto.
  - cbv zeta.
    match goal with
    | |- stamps e s (if _ then layoutHome e ?w' else ?w') =>
        assert (Hw : stamps e s w'); [|destruct (info_page (st w') =? 0); auto]
    end.
    split_ifs; auto 6.
Qed.

Lemma stamps_home_timeouts (w : World) :
  stamps e s w -> stamps e s (home_timeouts e w).
Proof.
  intros H. unfold home_timeouts, layoutStatusLogo.
  destruct (is_home (layoutLast (st w))); [|assumption].
  cbv zeta.
  match goal with
  | |- stamps e s (if _ then _ else ?w') =>
      assert (Hw : stamps e s w') by (split_ifs; auto 6)
  end.
  split_ifs; auto 8.
Qed.

Lemma stamps_wake_or_abort (w : World) :
  stamps e s w -> stamps e s (wake_or_abort e w).
Proof. intros H. unfold wake_or_abort. split_ifs; auto 6. Qed.

Lemma stamps_tick : stamps e s (tick e s).
Proof.
  unfold tick, layoutHomeInfo.
  apply stamps_wake_or_abort, stamps_home_timeouts, stamps_info_navigation.
  destruct (layoutNeedRefresh e); auto using stamps_start.
Qed.

End Stamps.

(** C9, as the code has it.  A tick that enters the Home screen (runs
    [layoutHome]) leaves [system_millis_lock_start] at the current time; a
    tick that enters a device information page (runs [layoutDeviceInfo])
    leaves [system_millis_display_info_start] at the current time.  A tick
    that does not enter the screen leaves its timer alone, whatever the
    buttons. *)
Theorem timers_reset_on_entry (e : Env) (s : State) :
  (entered_home (tick e s) = true ->
   system_millis_lock_start (st (tick e s)) = now e)
  /\ (entered_info_page (tick e s) = true ->
      system_millis_display_info_start (st (tick e s)) = now e)
  /\ (entered_home (tick e s) = false ->
      system_millis_lock_start (st (tick e s)) = system_millis_lock_start s)
  /\ (entered_info_page (tick e s) = false ->
      system_millis_display_info_start (st (tick e s))
      = system_millis_display_info_start s).
Proof.
  destruct (stamps_tick e s) as [Hlock Hinfo].
  repeat split; intros Hentered;
    rewrite Hentered in *; assumption.
Qed.

Lemma timers_reset_on_entry_witness :
  system_millis_lock_start (st (tick cancel_env info_state)) = now cancel_env
  /\ system_millis_display_info_start (st (tick prev_next_env home_state))
     = now prev_next_env.
Proof.
  split.
  - apply (timers_reset_on_entry cancel_env info_state). reflexivity.
  - apply (timers_reset_on_entry prev_next_env home_state). reflexivity.
Defined.

(** C9 as the specification words it fails for a button edge that enters
    no screen: the confirm edge on Home leaves the lock timer at its old
    value. *)
Lemma button_edge_keeps_lock_timer_counterexample :
  YesUp (button confirm_env) = true
  /\ tick confirm_env home_state = mkWorld home_state []
  /\ system_millis_lock_start (st (tick confirm_env home_state))
     <> now confirm_env.
Proof.
  repeat split. vm_compute. discriminate.
Qed.

(** The next-page edge on Home enters an information page, which stamps
    the information timer and not the lock timer. *)
Example next_edge_keeps_lock_timer :
  st (tick (mkEnv (mkButtons false false false true) false 5000 600000
                  false true quiet_logo) home_state)
  = mkState LayoutDeviceInfo 1 5000 1000 4500.
Proof. reflexivity. Qed.

(** Waking the screensaver lands on Home without any abort call. *)
Example screensaver_wake :
  tick confirm_env (mkState LayoutScreensaver 3 0 1000 4500)
  = mkWorld (mkState LayoutHome 3 0 5000 4500)
            [OledClear; DrawHome; LayoutStatusLogo true; OledRefresh].
Proof. reflexivity. Qed.

(** * Further properties of the pager *)

Lemma length_cstr_le (l : list ascii) : (List.length (cstr l) <= List.length l)%nat.
Proof.
  induction l as [|c l IH]; [reflexivity|].
  cbn [cstr]. destruct (Ascii.eqb c NUL); cbn [List.length]; lia.
Qed.

Lemma cstr_is_nonzero (l : list ascii) : Forall nonzero (cstr l).
Proof.
  induction l as [|c l IH]; [constructor|].
  cbn [cstr]. destruct (Ascii.eqb_spec c NUL); constructor; assumption.
Qed.

Lemma cstr_incl (l : list ascii) (c : ascii) : In c (cstr l) -> In c l.
Proof.
  induction l as [|x l IH]; [intros []|].
  cbn [cstr]. destruct (Ascii.eqb x NUL); [intros []|].
  intros [->|H]; [now left | right; auto].
Qed.

Lemma cstr_skipn (k : nat) :
  forall l : list ascii,
    (k <= List.length (cstr l))%nat -> cstr (skipn k l) = skipn k (cstr l).
Proof.
  induction k as [|k IH]; intros l Hk; [reflexivity|].
  destruct l as [|c l]; [reflexivity|].
  cbn [cstr] in *. destruct (Ascii.eqb c NUL); cbn [List.length] in Hk; [lia|].
  cbn [skipn]. apply IH. lia.
Qed.

Lemma in_firstn (A : Type) (n : nat) (l : list A) (x : A) :
  In x (firstn n l) -> In x l.
Proof.
  intros H. rewrite <- (firstn_skipn n l). apply in_or_app. now left.
Qed.

Lemma in_skipn (A : Type) (n : nat) (l : list A) (x : A) :
  In x (skipn n l) -> In x l.
Proof.
  intros H. rewrite <- (firstn_skipn n l). apply in_or_app. now right.
Qed.

Lemma Forall_firstn_nonzero (n : nat) (l : list ascii) :
  Forall nonzero l -> Forall nonzero (firstn n l).
Proof.
  intros H. apply Forall_forall. intros c Hc.
  apply (proj1 (Forall_forall _ _) H). eapply in_firstn; eauto.
Qed.

Lemma length_padded_33 (t : list ascii) :
  (List.length t <= 33)%nat -> List.length (padded t) = 33%nat.
Proof. apply length_padded. Qed.

Lemma cstr_padded (t : list ascii) : cstr (padded t) = cstr t.
Proof. apply cstr_app_zeros. Qed.

Lemma row_text_nonzero (msg : list ascii) (len r k : Z) :
  Forall nonzero (row_text msg len r k).
Proof.
  unfold row_text. destruct (r * k <? len); [|constructor].
  apply Forall_firstn_nonzero, cstr_is_nonzero.
Qed.

Lemma row_text_length (msg : list ascii) (len r k : Z) :
  (List.length (row_text msg len r k) <= Z.to_nat r)%nat.
Proof.
  unfold row_text. destruct (r * k <? len); [|simpl; lia].
  rewrite length_firstn. lia.
Qed.

Lemma copy_row_value (msg : list ascii) (len r k : Z) :
  0 <= r <= 32 -> 0 <= k ->
  (r * k < len -> r * k <= Z.of_nat (List.length msg)) ->
  copy_row msg len r k = Some (padded (row_text msg len r k)).
Proof.
  intros Hr Hk Hbuf. unfold row_text.
  destruct (r * k <? len) eqn:E.
  - apply Z.ltb_lt in E. rewrite copy_row_reached by auto. reflexivity.
  - apply Z.ltb_ge in E. rewrite copy_row_not_reached by lia. reflexivity.
Qed.

(** The stores of the ellipsis leave the row when it is narrower than
    three characters. *)
Lemma store_ellipsis_narrow (row : list ascii) (r : Z) :
  List.length row = 33%nat -> 0 <= r < 3 ->
  (a <- store row (u32 (r - 1)) "." ;;
   b <- store a (u32 (r - 2)) "." ;;
   store b (u32 (r - 3)) ".") = None.
Proof.
  intros Hlen Hr.
  assert (Hout : forall buf : list ascii,
             List.length buf = 33%nat -> forall k : Z, - 3 <= k < 0 ->
             store buf (u32 k) "." = None).
  { intros buf Hb k Hk. unfold store. rewrite Hb.
    assert (Hk3 : k = -3 \/ k = -2 \/ k = -1) by lia.
    destruct Hk3 as [ -> | [ -> | -> ] ]; reflexivity. }
  assert (Hc : r = 0 \/ r = 1 \/ r = 2) by lia.
  destruct Hc as [ -> | [ -> | -> ] ].
  - rewrite (Hout row Hlen (0 - 1)) by lia. reflexivity.
  - unfold u32 at 1. change ((1 - 1) mod 2 ^ 32) with 0.
    rewrite store_in_bounds by lia. cbn [bind].
    rewrite (Hout _ ltac:(rewrite length_upd; exact Hlen) (1 - 2)) by lia.
    reflexivity.
  - unfold u32 at 1 2. change ((2 - 1) mod 2 ^ 32) with 1.
    change ((2 - 2) mod 2 ^ 32) with 0.
    rewrite store_in_bounds by lia. cbn [bind].
    rewrite store_in_bounds by (rewrite length_upd; lia). cbn [bind].
    apply Hout; [rewrite !length_upd; exact Hlen | lia].
Qed.

(** The value of [split_message] on a buffer that holds the [len] bytes. *)
Lemma split_message_value (msg : list ascii) (len rowlen : Z) :
  0 <= rowlen -> len <= Z.of_nat (List.length msg) ->
  let r := Z.min rowlen 32 in
  let row0 := padded (firstn (Z.to_nat r) (cstr msg)) in
  let row k := padded (row_text msg len r k) in
  split_message msg len rowlen
  = if r * 4 <? len then
      if 3 <=? r
      then Some [row0; row 1; row 2;
                 (firstn (Z.to_nat (r - 3)) (row 3) ++ ellipsis
                  ++ skipn (Z.to_nat r) (row 3))%list]
      else None
    else Some [row0; row 1; row 2; row 3].
Proof.
  intros Hrow Hlen r row0 row. unfold split_message.
  assert (Hclamp : (if 32 <? rowlen then 32 else rowlen) = r).
  { unfold r. destruct (32 <? rowlen) eqn:E;
      [apply Z.ltb_lt in E | apply Z.ltb_ge in E]; lia. }
  rewrite Hclamp.
  assert (Hr : 0 <= r <= 32) by (unfold r; lia).
  rewrite !copy_row_value by lia. cbn [bind].
  rewrite strlcpy_row_blank by lia. cbv zeta.
  replace (Z.to_nat (r + 1) - 1)%nat with (Z.to_nat r) by lia.
  fold (padded (firstn (Z.to_nat r) (cstr msg))). fold row0.
  fold (row 1). fold (row 2). fold (row 3).
  assert (H33 : List.length (row 3) = 33%nat).
  { apply length_padded_33. pose proof (row_text_length msg len r 3). lia. }
  destruct (r * 4 <? len); [|reflexivity].
  destruct (3 <=? r) eqn:E3.
  - apply Z.leb_le in E3. rewrite store_ellipsis by (try exact H33; lia).
    reflexivity.
  - apply Z.leb_gt in E3. rewrite store_ellipsis_narrow by (try exact H33; lia).
    reflexivity.
Qed.

(** X1.  On a buffer that holds its [len] bytes, [split_message] leaves
    its arrays in exactly one case: a row width below 3 together with an
    input of more than four rows, where the ellipsis does not fit. *)
Theorem split_message_fails_only_when_ellipsis_does_not_fit
        (msg : list ascii) (len rowlen : Z) :
  0 <= rowlen -> len <= Z.of_nat (List.length msg) ->
  (split_message msg len rowlen = None <-> rowlen < 3 /\ 4 * rowlen < len).
Proof.
  intros Hrow Hlen.
  rewrite (split_message_value msg len rowlen Hrow Hlen). cbv zeta.
  destruct (Z.min rowlen 32 * 4 <? len) eqn:E4;
    [apply Z.ltb_lt in E4 | apply Z.ltb_ge in E4].
  - destruct (3 <=? Z.min rowlen 32) eqn:E3;
      [apply Z.leb_le in E3 | apply Z.leb_gt in E3].
    + split; [discriminate | lia].
    + split; [lia | reflexivity].
  - split; [discriminate | lia].
Qed.

Lemma split_message_fails_only_when_ellipsis_does_not_fit_witness :
  split_message text9 9 2 = None <-> 2 < 3 /\ 4 * 2 < 9.
Proof.
  apply (split_message_fails_only_when_ellipsis_does_not_fit text9 9 2);
    [lia | simpl; lia].
Defined.

Lemma padded_row_facts (t : list ascii) :
  (List.length t <= 32)%nat ->
  List.length (padded t) = 33%nat
  /\ (List.length (cstr (padded t)) <= List.length t)%nat
  /\ forall c : ascii, In c (cstr (padded t)) -> In c t.
Proof.
  intros Ht. split; [apply length_padded_33; lia|].
  rewrite cstr_padded. split; [apply length_cstr_le|].
  intros c. apply cstr_incl.
Qed.

Lemma ellipsis_row_facts (t : list ascii) (r : Z) :
  3 <= r <= 32 -> (List.length t <= Z.to_nat r)%nat ->
  let row := (firstn (Z.to_nat (r - 3)) (padded t) ++ ellipsis
              ++ skipn (Z.to_nat r) (padded t))%list in
  List.length row = 33%nat
  /\ (List.length (cstr row) <= Z.to_nat r)%nat
  /\ forall c : ascii, In c (cstr row) -> In c t \/ c = "."%char.
Proof.
  intros Hr Ht row.
  assert (H33 : List.length (padded t) = 33%nat) by (apply length_padded_33; lia).
  destruct (skipn_padded t (Z.to_nat r) Ht) as [m Hm]. fold (padded t) in Hm.
  assert (Hrow : row = ((firstn (Z.to_nat (r - 3)) (padded t) ++ ellipsis)
                        ++ repeat NUL m)%list).
  { unfold row. rewrite Hm, app_assoc. reflexivity. }
  split; [|split].
  - unfold row. rewrite !length_app, length_firstn, length_skipn, H33.
    cbn [List.length ellipsis]. lia.
  - rewrite Hrow, cstr_app_zeros.
    etransitivity; [apply length_cstr_le|].
    rewrite length_app, length_firstn, H33. cbn [List.length ellipsis]. lia.
  - intros c Hc. rewrite Hrow, cstr_app_zeros in Hc.
    pose proof (cstr_is_nonzero (firstn (Z.to_nat (r - 3)) (padded t) ++ ellipsis))
      as Hnz.
    pose proof (proj1 (Forall_forall _ _) Hnz c Hc) as Hcnz.
    apply cstr_incl, in_app_or in Hc. destruct Hc as [Hc|Hc].
    + apply in_firstn in Hc. unfold padded in Hc.
      apply in_app_or in Hc. destruct Hc as [Hc|Hc]; [now left|].
      apply repeat_spec in Hc. contradiction.
    + right. cbn in Hc. intuition congruence.
Qed.

(** X2.  Every row of a result is a full array of 33 bytes, and every
    line it holds has at most [rowlen] characters, 32 when [rowlen] is
    larger. *)
Theorem split_message_line_width (msg : list ascii) (len rowlen : Z)
        (p : list (list ascii)) :
  0 <= rowlen -> len <= Z.of_nat (List.length msg) ->
  split_message msg len rowlen = Some p ->
  List.length p = 4%nat
  /\ forall k : nat, (k < 4)%nat ->
       List.length (nth k p []) = 33%nat
       /\ Z.of_nat (List.length (cstr (nth k p []))) <= Z.min rowlen 32.
Proof.
  intros Hrow Hlen Hp.
  rewrite (split_message_value msg len rowlen Hrow Hlen) in Hp.
  cbv zeta in Hp.
  set (r := Z.min rowlen 32) in *.
  assert (Hr : 0 <= r <= 32) by (unfold r; lia).
  assert (H0 : (List.length (firstn (Z.to_nat r) (cstr msg)) <= Z.to_nat r)%nat)
    by (rewrite length_firstn; lia).
  pose proof (row_text_length msg len r 1) as H1.
  pose proof (row_text_length msg len r 2) as H2.
  pose proof (row_text_length msg len r 3) as H3.
  pose proof (padded_row_facts (firstn (Z.to_nat r) (cstr msg)) ltac:(lia))
    as (L0 & C0 & _).
  pose proof (padded_row_facts (row_text msg len r 1) ltac:(lia)) as (L1 & C1 & _).
  pose proof (padded_row_facts (row_text msg len r 2) ltac:(lia)) as (L2 & C2 & _).
  pose proof (padded_row_facts (row_text msg len r 3) ltac:(lia)) as (L3 & C3 & _).
  destruct (r * 4 <? len).
  - destruct (3 <=? r) eqn:E3; [apply Z.leb_le in E3|discriminate].
    pose proof (ellipsis_row_facts (row_text msg len r 3) r ltac:(lia) H3)
      as (L3' & C3' & _).
    injection Hp as <-. split; [reflexivity|].
    intros [|[|[|[|k]]]] Hk; cbv [nth]; try lia; split; try assumption; try lia.
    apply Nat2Z.inj_le in C3'. etransitivity; [exact C3'|lia].
  - injection Hp as <-. split; [reflexivity|].
    intros [|[|[|[|k]]]] Hk; cbv [nth]; try lia; split; try assumption; lia.
Qed.

Lemma split_message_line_width_witness :
  exists p : list (list ascii),
    split_message text45 45 40 = Some p
    /\ Z.of_nat (List.length (cstr (nth 0 p []))) <= Z.min 40 32.
Proof.
  eexists. split; [reflexivity|].
  apply (split_message_line_width text45 45 40 _ ltac:(lia) ltac:(simpl; lia)
           eq_refl).
  lia.
Defined.

Lemma split_message_chars (msg : list ascii) (len rowlen : Z)
      (p : list (list ascii)) :
  0 <= rowlen -> len <= Z.of_nat (List.length msg) ->
  split_message msg len rowlen = Some p ->
  forall (k : nat) (c : ascii),
    In c (cstr (nth k p [])) -> In c msg \/ c = "."%char.
Proof.
  intros Hrow Hlen Hp.
  rewrite (split_message_value msg len rowlen Hrow Hlen) in Hp.
  cbv zeta in Hp.
  set (r := Z.min rowlen 32) in *.
  assert (Hr : 0 <= r <= 32) by (unfold r; lia).
  assert (Hin : forall k c, In c (row_text msg len r k) -> In c msg).
  { intros k c. unfold row_text. destruct (r * k <? len); [|intros []].
    intros Hc. apply in_firstn, cstr_incl, in_skipn in Hc. exact Hc. }
  assert (Hpad : forall t c, (List.length t <= 32)%nat ->
                             In c (cstr (padded t)) -> In c t).
  { intros t c Ht. apply (padded_row_facts t Ht). }
  pose proof (row_text_length msg len r 1) as H1.
  pose proof (row_text_length msg len r 2) as H2.
  pose proof (row_text_length msg len r 3) as H3.
  assert (Hfirst : forall c, In c (cstr (padded (firstn (Z.to_nat r) (cstr msg))))
                             -> In c msg).
  { intros c Hc. apply Hpad in Hc; [|rewrite length_firstn; lia].
    apply in_firstn, cstr_incl in Hc. exact Hc. }
  assert (Hrows : forall k c, (1 <= k <= 3)%Z ->
                              In c (cstr (padded (row_text msg len r k))) -> In c msg).
  { intros k c Hk Hc. apply Hpad in Hc; [eauto|].
    pose proof (row_text_length msg len r k). lia. }
  destruct (r * 4 <? len).
  - destruct (3 <=? r) eqn:E3; [apply Z.leb_le in E3|discriminate].
    pose proof (ellipsis_row_facts (row_text msg len r 3) r ltac:(lia) H3)
      as (_ & _ & Hdots).
    injection Hp as <-.
    intros [|[|[|[|k]]]] c; cbv [nth]; intros Hc.
    + left. auto.
    + left. apply (Hrows 1); [lia|exact Hc].
    + left. apply (Hrows 2); [lia|exact Hc].
    + destruct (Hdots c Hc) as [Ht|Hd]; [left; eauto | now right].
    + destruct k; destruct Hc.
  - injection Hp as <-.
    intros [|[|[|[|k]]]] c; cbv [nth]; intros Hc.
    + left. auto.
    + left. apply (Hrows 1); [lia|exact Hc].
    + left. apply (Hrows 2); [lia|exact Hc].
    + left. apply (Hrows 3); [lia|exact Hc].
    + destruct k; destruct Hc.
Qed.

Lemma firstn_cstr_incl (n : nat) :
  forall (l : list ascii) (c : ascii),
    In c (firstn n (cstr l)) -> In c (firstn n l).
Proof.
  induction n as [|n IH]; intros l c; [intros []|].
  destruct l as [|x l]; [intros []|].
  cbn [cstr]. destruct (Ascii.eqb x NUL); [intros []|].
  cbn [firstn]. intros [->|H]; [now left | right; auto].
Qed.

(** Row [k] shows bytes of its own window of the buffer only. *)
Lemma split_message_row_chars (msg : list ascii) (len rowlen : Z)
      (p : list (list ascii)) :
  0 <= rowlen -> len <= Z.of_nat (List.length msg) ->
  split_message msg len rowlen = Some p ->
  let r := Z.to_nat (Z.min rowlen 32) in
  forall (k : nat) (c : ascii),
    In c (cstr (nth k p [])) ->
    In c (firstn r (skipn (r * k) msg)) \/ c = "."%char.
Proof.
  intros Hrow Hlen Hp R.
  rewrite (split_message_value msg len rowlen Hrow Hlen) in Hp.
  cbv zeta in Hp.
  set (r := Z.min rowlen 32) in *.
  assert (Hr : 0 <= r <= 32) by (unfold r; lia).
  assert (Hin : forall (k : nat) c,
             In c (row_text msg len r (Z.of_nat k)) ->
             In c (firstn R (skipn (R * k) msg))).
  { intros k c. unfold row_text. destruct (r * Z.of_nat k <? len); [|intros []].
    replace (Z.to_nat (r * Z.of_nat k)) with (R * k)%nat by (unfold R; lia).
    apply firstn_cstr_incl. }
  assert (Hpad : forall t c, (List.length t <= 32)%nat ->
                             In c (cstr (padded t)) -> In c t).
  { intros t c Ht. apply (padded_row_facts t Ht). }
  pose proof (row_text_length msg len r 1) as H1.
  pose proof (row_text_length msg len r 2) as H2.
  pose proof (row_text_length msg len r 3) as H3.
  assert (Hfirst : forall c, In c (cstr (padded (firstn (Z.to_nat r) (cstr msg))))
                             -> In c (firstn R (skipn (R * 0) msg))).
  { intros c Hc. apply Hpad in Hc; [|rewrite length_firstn; lia].
    rewrite Nat.mul_0_r, skipn_0. now apply firstn_cstr_incl. }
  assert (Hrows : forall (k : nat) c, (1 <= k <= 3)%nat ->
             In c (cstr (padded (row_text msg len r (Z.of_nat k)))) ->
             In c (firstn R (skipn (R * k) msg))).
  { intros k c Hk Hc. apply Hpad in Hc; [auto|].
    pose proof (row_text_length msg len r (Z.of_nat k)). lia. }
  destruct (r * 4 <? len).
  - destruct (3 <=? r) eqn:E3; [apply Z.leb_le in E3|discriminate].
    pose proof (ellipsis_row_facts (row_text msg len r 3) r ltac:(lia) H3)
      as (_ & _ & Hdots).
    injection Hp as <-.
    intros [|[|[|[|k]]]] c; cbv [nth]; intros Hc.
    + left. auto.
    + left. apply (Hrows 1%nat); [lia|exact Hc].
    + left. apply (Hrows 2%nat); [lia|exact Hc].
    + destruct (Hdots c Hc) as [Ht|Hd]; [left; apply (Hin 3%nat), Ht | now right].
    + destruct k; destruct Hc.
  - injection Hp as <-.
    intros [|[|[|[|k]]]] c; cbv [nth]; intros Hc.
    + left. auto.
    + left. apply (Hrows 1%nat); [lia|exact Hc].
    + left. apply (Hrows 2%nat); [lia|exact Hc].
    + left. apply (Hrows 3%nat); [lia|exact Hc].
    + destruct k; destruct Hc.
Qed.

(** X3.  A line shows nothing but bytes of the buffer and the dots of the
    ellipsis, and line [k] takes its bytes from its own window only: the
    [rowlen] bytes (32 at most) that start [k * rowlen] bytes in.  The
    window is not cut at [len]: the row that [len] falls into, and row 0
    in any case, is copied up to its end or to the terminator, so that
    bytes behind [len] can be shown. *)
Theorem split_message_shows_input_or_dots (msg : list ascii) (len rowlen : Z)
        (p : list (list ascii)) :
  0 <= rowlen -> len <= Z.of_nat (List.length msg) ->
  split_message msg len rowlen = Some p ->
  let r := Z.to_nat (Z.min rowlen 32) in
  forall (k : nat) (c : ascii),
    In c (cstr (nth k p [])) ->
    In c (firstn r (skipn (r * k) msg)) \/ c = "."%char.
Proof. apply split_message_row_chars. Qed.

Lemma split_message_shows_input_or_dots_witness :
  In "6"%char (cstr (firstn 7 (skipn 30 text45) ++ ellipsis ++ repeat NUL 23))
  /\ (In "6"%char (firstn 10 (skipn 30 text45)) \/ "6"%char = "."%char).
Proof.
  assert (H : In "6"%char
                (cstr (firstn 7 (skipn 30 text45) ++ ellipsis ++ repeat NUL 23)))
    by (vm_compute; tauto).
  split; [exact H|].
  apply (split_message_shows_input_or_dots text45 45 10 _ ltac:(lia)
           ltac:(simpl; lia) eq_refl 3%nat "6"%char H).
Defined.

(** With [len] 3 and a row width of 5 the first row shows five bytes. *)
Example split_message_behind_len :
  option_map (fun p => (line p 0, line p 1))
             (split_message (bytes "abcdefghij") 3 5)
  = Some ("abcde", "").
Proof. reflexivity. Qed.

Lemma firstn_add_skipn (A : Type) (a b : nat) :
  forall l : list A, (firstn a l ++ firstn b (skipn a l))%list = firstn (a + b) l.
Proof.
  induction a as [|a IH]; intros l; [reflexivity|].
  destruct l as [|x l]; [cbn; now rewrite firstn_nil|].
  cbn [Nat.add firstn skipn app]. f_equal. apply IH.
Qed.

Lemma four_chunks (A : Type) (n m : nat) (l : list A) :
  (firstn n l ++ firstn n (skipn n l) ++ firstn n (skipn (2 * n) l)
   ++ firstn m (skipn (3 * n) l))%list
  = firstn (3 * n + m) l.
Proof.
  replace (3 * n)%nat with (n + (2 * n))%nat by lia.
  replace (2 * n)%nat with (n + n)%nat by lia.
  rewrite <- !skipn_skipn.
  rewrite (firstn_add_skipn A n m), (firstn_add_skipn A n (n + m)).
  rewrite firstn_add_skipn. f_equal. lia.
Qed.

(** With [len] the length of the string, a row takes its characters from
    the string itself. *)
Lemma row_text_of_string (msg : list ascii) (r k : Z) :
  0 <= r -> 0 <= k ->
  row_text msg (strlen msg) r k
  = firstn (Z.to_nat r) (skipn (Z.to_nat (r * k)) (cstr msg)).
Proof.
  intros Hr Hk. unfold row_text, strlen.
  destruct (r * k <? Z.of_nat (List.length (cstr msg))) eqn:E.
  - apply Z.ltb_lt in E. rewrite cstr_skipn by lia. reflexivity.
  - apply Z.ltb_ge in E. rewrite skipn_all2 by lia. now rewrite firstn_nil.
Qed.

Lemma cstr_padded_nonzero (t : list ascii) :
  Forall nonzero t -> cstr (padded t) = t.
Proof. intros H. rewrite cstr_padded. now apply cstr_nonzero. Qed.

Lemma strlen_le_length (msg : list ascii) :
  strlen msg <= Z.of_nat (List.length msg).
Proof. unfold strlen. pose proof (length_cstr_le msg). lia. Qed.

Lemma split_message_fits (msg : list ascii) (rowlen : Z) :
  0 <= rowlen -> strlen msg <= 4 * Z.min rowlen 32 ->
  let r := Z.to_nat (Z.min rowlen 32) in
  let c := cstr msg in
  split_message msg (strlen msg) rowlen
  = Some [padded (firstn r c); padded (firstn r (skipn r c));
          padded (firstn r (skipn (2 * r) c));
          padded (firstn r (skipn (3 * r) c))].
Proof.
  intros Hrow Hfit r c.
  rewrite (split_message_value msg (strlen msg) rowlen Hrow (strlen_le_length msg)).
  cbv zeta.
  destruct (Z.min rowlen 32 * 4 <? strlen msg) eqn:E;
    [apply Z.ltb_lt in E; lia|].
  rewrite !row_text_of_string by lia. fold c.
  replace (Z.to_nat (Z.min rowlen 32 * 1)) with r by (unfold r; lia).
  replace (Z.to_nat (Z.min rowlen 32 * 2)) with (2 * r)%nat by (unfold r; lia).
  replace (Z.to_nat (Z.min rowlen 32 * 3)) with (3 * r)%nat by (unfold r; lia).
  reflexivity.
Qed.

Lemma all_lines_padded (t0 t1 t2 t3 : list ascii) :
  Forall nonzero t0 -> Forall nonzero t1 -> Forall nonzero t2 ->
  Forall nonzero t3 ->
  all_lines [padded t0; padded t1; padded t2; padded t3]
  = (t0 ++ t1 ++ t2 ++ t3)%list.
Proof.
  intros H0 H1 H2 H3. unfold all_lines. cbv [nth].
  now rewrite !cstr_padded_nonzero.
Qed.

Lemma chunk_nonzero (msg : list ascii) (n k : nat) :
  Forall nonzero (firstn n (skipn k (cstr msg))).
Proof.
  apply Forall_firstn_nonzero, Forall_forall. intros x Hx.
  apply in_skipn in Hx.
  exact (proj1 (Forall_forall _ _) (cstr_is_nonzero msg) x Hx).
Qed.

Lemma lines_when_fits (msg : list ascii) (rowlen : Z) :
  0 <= rowlen -> strlen msg <= 4 * Z.min rowlen 32 ->
  exists p : list (list ascii),
    split_message msg (strlen msg) rowlen = Some p
    /\ all_lines p = cstr msg.
Proof.
  intros Hrow Hfit. eexists. split; [apply split_message_fits; assumption|].
  cbv zeta. set (r := Z.to_nat (Z.min rowlen 32)).
  rewrite all_lines_padded;
    try apply chunk_nonzero;
    try (apply Forall_firstn_nonzero, cstr_is_nonzero).
  rewrite four_chunks. apply firstn_all2.
  unfold strlen in Hfit. lia.
Qed.

(** X4.  A string of at most four rows is shown completely: the four
    lines, joined, are the string. *)
Theorem split_message_lossless (msg : list ascii) (rowlen : Z) :
  0 <= rowlen -> strlen msg <= 4 * Z.min rowlen 32 ->
  exists p : list (list ascii),
    split_message msg (strlen msg) rowlen = Some p
    /\ all_lines p = cstr msg.
Proof. apply lines_when_fits. Qed.

Lemma split_message_lossless_witness :
  exists p : list (list ascii),
    split_message address34 (strlen address34) 17 = Some p
    /\ all_lines p = cstr address34.
Proof.
  apply (split_message_lossless address34 17); [lia | vm_compute; discriminate].
Defined.

Lemma split_message_cut (msg : list ascii) (rowlen : Z) :
  3 <= rowlen -> 4 * Z.min rowlen 32 < strlen msg ->
  let r := Z.to_nat (Z.min rowlen 32) in
  let c := cstr msg in
  split_message msg (strlen msg) rowlen
  = Some [padded (firstn r c); padded (firstn r (skipn r c));
          padded (firstn r (skipn (2 * r) c));
          padded (firstn (r - 3) (skipn (3 * r) c) ++ ellipsis)].
Proof.
  intros Hrow Hlong r c.
  rewrite (split_message_value msg (strlen msg) rowlen ltac:(lia)
             (strlen_le_length msg)).
  cbv zeta.
  destruct (Z.min rowlen 32 * 4 <? strlen msg) eqn:E;
    [clear E | apply Z.ltb_ge in E; lia].
  destruct (3 <=? Z.min rowlen 32) eqn:E3; [clear E3 | apply Z.leb_gt in E3; lia].
  rewrite !row_text_of_string by lia. fold c.
  replace (Z.to_nat (Z.min rowlen 32 * 1)) with r by (unfold r; lia).
  replace (Z.to_nat (Z.min rowlen 32 * 2)) with (2 * r)%nat by (unfold r; lia).
  replace (Z.to_nat (Z.min rowlen 32 * 3)) with (3 * r)%nat by (unfold r; lia).
  replace (Z.to_nat (Z.min rowlen 32 - 3)) with (r - 3)%nat by (unfold r; lia).
  fold r.
  set (t3 := firstn r (skipn (3 * r) c)).
  assert (Hc : (4 * r < List.length c)%nat) by (unfold strlen in Hlong; fold c in Hlong; unfold r; lia).
  assert (Ht3 : List.length t3 = r).
  { unfold t3. rewrite length_firstn, length_skipn. lia. }
  assert (Hr : (3 <= r <= 32)%nat) by (unfold r; lia).
  do 3 f_equal. f_equal.
  unfold padded. rewrite Ht3.
  rewrite firstn_app, skipn_app, Ht3.
  rewrite (skipn_all2 (n := r) t3) by lia.
  replace (r - 3 - r)%nat with 0%nat by lia. rewrite Nat.sub_diag.
  cbn [firstn skipn]. rewrite !app_nil_r, app_nil_l.
  unfold t3. rewrite firstn_firstn. replace (Nat.min (r - 3) r) with (r - 3)%nat by lia.
  rewrite length_app, length_firstn, length_skipn. cbn [List.length ellipsis].
  replace (Nat.min (r - 3) (List.length c - 3 * r) + 3)%nat with r by lia.
  rewrite <- app_assoc. reflexivity.
Qed.

Lemma lines_when_cut (msg : list ascii) (rowlen : Z) :
  3 <= rowlen -> 4 * Z.min rowlen 32 < strlen msg ->
  exists p : list (list ascii),
    split_message msg (strlen msg) rowlen = Some p
    /\ all_lines p
       = (firstn (Z.to_nat (4 * Z.min rowlen 32 - 3)) (cstr msg) ++ ellipsis)%list.
Proof.
  intros Hrow Hlong. eexists. split; [apply split_message_cut; assumption|].
  cbv zeta. set (r := Z.to_nat (Z.min rowlen 32)).
  rewrite all_lines_padded;
    try apply chunk_nonzero;
    try (apply Forall_firstn_nonzero, cstr_is_nonzero).
  - transitivity
      ((firstn r (cstr msg) ++ firstn r (skipn r (cstr msg))
        ++ firstn r (skipn (2 * r) (cstr msg))
        ++ firstn (r - 3) (skipn (3 * r) (cstr msg))) ++ ellipsis)%list;
      [now rewrite <- !app_assoc|].
    rewrite four_chunks. do 2 f_equal. unfold r. lia.
  - apply Forall_app. split; [apply chunk_nonzero|].
    repeat constructor; discriminate.
Qed.

(** X5.  Of a string of more than four rows, at a row width of at least
    3, the lines show the first [4 * rowlen - 3] characters and then the
    ellipsis, nothing else. *)
Theorem split_message_truncated (msg : list ascii) (rowlen : Z) :
  3 <= rowlen -> 4 * Z.min rowlen 32 < strlen msg ->
  exists p : list (list ascii),
    split_message msg (strlen msg) rowlen = Some p
    /\ all_lines p
       = (firstn (Z.to_nat (4 * Z.min rowlen 32 - 3)) (cstr msg) ++ ellipsis)%list.
Proof. apply lines_when_cut. Qed.

Lemma split_message_truncated_witness :
  exists p : list (list ascii),
    split_message xpub111 (strlen xpub111) 21 = Some p
    /\ all_lines p = (firstn 81 (cstr xpub111) ++ ellipsis)%list.
Proof.
  apply (split_message_truncated xpub111 21); [lia | vm_compute; reflexivity].
Defined.

(** * Properties of the hexadecimal dialogs *)

Section HexDialogs.

Variable hexdigits : Z -> ascii.

Lemma firstn_hex_chars (n : nat) :
  forall data : list ascii,
    firstn (2 * n) (hex_chars hexdigits data)
    = hex_chars hexdigits (firstn n data).
Proof.
  induction n as [|n IH]; intros data; [reflexivity|].
  destruct data as [|c data]; [reflexivity|].
  replace (2 * S n)%nat with (S (S (2 * n))) by lia.
  unfold hex_chars in *. cbn [flat_map app firstn]. now rewrite IH.
Qed.

Lemma hex_chars_app (a b : list ascii) :
  hex_chars hexdigits (a ++ b)
  = (hex_chars hexdigits a ++ hex_chars hexdigits b)%list.
Proof. unfold hex_chars. apply flat_map_app. Qed.

(** [split_message_hex] on a buffer that holds the bytes it encodes. *)
Lemma split_message_hex_value (msg : list ascii) (len : Z) :
  0 <= len -> Z.min len 32 <= Z.of_nat (List.length msg) ->
  split_message_hex hexdigits msg len
  = split_message
      (if 32 <? len
       then (hex_chars hexdigits (firstn 31 msg) ++ ["."; "."]%char)%list
       else hex_chars hexdigits (firstn (Z.to_nat len) msg))
      (2 * Z.min len 32) 16.
Proof.
  intros Hlen Hbuf. unfold split_message_hex.
  change (32 * 2 + 1)%nat with 65%nat.
  destruct (32 <? len) eqn:E.
  - apply Z.ltb_lt in E.
    rewrite data2hex_blank by lia. cbv zeta. cbn [bind].
    change (Z.to_nat 32) with 32%nat.
    set (digits := hex_chars hexdigits (firstn 32 msg)).
    assert (Hd : List.length digits = 64%nat)
      by (unfold digits; rewrite length_hex_chars, length_firstn; lia).
    rewrite Hd. change (65 - 64)%nat with 1%nat.
    rewrite store_in_bounds by (rewrite length_app, Hd; simpl; lia).
    cbn [bind].
    rewrite store_in_bounds
      by (rewrite length_upd, length_app, Hd; simpl; lia).
    change (Z.to_nat 63) with (62 + 1)%nat.
    change (Z.to_nat 62) with 62%nat.
    rewrite upd_two by (rewrite length_app, Hd; simpl; lia).
    rewrite firstn_app, skipn_app, Hd.
    rewrite (skipn_all2 (n := 62 + 2) digits) by lia.
    change (62 - 64)%nat with 0%nat. change (62 + 2 - 64)%nat with 0%nat.
    rewrite firstn_0, skipn_0, !app_nil_r, !app_nil_l. cbn [bind].
    replace (2 * Z.min len 32) with (32 * 2) by lia.
    unfold digits. change 62%nat with (2 * 31)%nat.
    rewrite firstn_hex_chars, firstn_firstn.
    change (Nat.min 31 32) with 31%nat.
    rewrite app_assoc.
    apply (split_message_padding
             (hex_chars hexdigits (firstn 31 msg) ++ ["."; "."]%char) 1);
      [lia|].
    rewrite length_app, length_hex_chars, length_firstn.
    cbn [List.length]. lia.
  - apply Z.ltb_ge in E.
    rewrite data2hex_blank by lia. cbv zeta. cbn [bind].
    replace (2 * Z.min len 32) with (len * 2) by lia.
    apply split_message_padding; [lia|].
    rewrite length_hex_chars, length_firstn. lia.
Qed.

Hypothesis hexdigits_nonzero : forall n : Z, 0 <= n < 16 -> hexdigits n <> NUL.

Lemma nibble_range (x : Z) : 0 <= Z.land x 0xF < 16.
Proof.
  change 0xF with (Z.ones 4). rewrite Z.land_ones by lia.
  apply Z.mod_pos_bound. lia.
Qed.

Lemma hex_chars_digits (data : list ascii) (c : ascii) :
  In c (hex_chars hexdigits data) ->
  exists n : Z, 0 <= n < 16 /\ c = hexdigits n.
Proof.
  unfold hex_chars. rewrite in_flat_map. intros (b & _ & Hc).
  destruct Hc as [<-|[<-|[]]]; eexists; (split; [apply nibble_range|reflexivity]).
Qed.

Lemma hex_chars_nonzero (data : list ascii) :
  Forall nonzero (hex_chars hexdigits data).
Proof.
  apply Forall_forall. intros c Hc.
  destruct (hex_chars_digits data c Hc) as (n & Hn & ->).
  now apply hexdigits_nonzero.
Qed.

Lemma hex_text_nonzero (msg : list ascii) :
  Forall nonzero (hex_text hexdigits msg).
Proof.
  unfold hex_text. destruct (32 <? List.length msg)%nat.
  - apply Forall_app. split.
    + apply Forall_firstn_nonzero, hex_chars_nonzero.
    + repeat constructor; discriminate.
  - apply hex_chars_nonzero.
Qed.

(** The lines of [split_message_hex], joined, are the hexadecimal text. *)
Lemma split_message_hex_lines (msg : list ascii) :
  exists p : list (list ascii),
    split_message_hex hexdigits msg (Z.of_nat (List.length msg)) = Some p
    /\ all_lines p = hex_text hexdigits msg.
Proof.
  rewrite split_message_hex_as_text.
  pose proof (hex_text_nonzero msg) as Hnz.
  pose proof (hex_text_length hexdigits msg) as Hlen.
  assert (Hstr : strlen (hex_text hexdigits msg)
                 = 2 * Z.min (Z.of_nat (List.length msg)) 32).
  { unfold strlen. rewrite cstr_nonzero by assumption. lia. }
  rewrite <- Hstr.
  eexists. split; [apply split_message_fits; [lia | rewrite Hstr; lia]|].
  cbv zeta.
  rewrite all_lines_padded;
    try apply chunk_nonzero;
    try (apply Forall_firstn_nonzero, cstr_is_nonzero).
  rewrite four_chunks, cstr_nonzero by assumption.
  apply firstn_all2. simpl. lia.
Qed.

End HexDialogs.

Lemma upper_hexdigits_printable (n : Z) :
  0 <= n < 16 -> printable (upper_hexdigits n).
Proof.
  intros Hn.
  assert (Hk : (Z.to_nat n < 16)%nat) by lia.
  rewrite <- (Z2Nat.id n) by lia.
  revert Hk. generalize (Z.to_nat n). intros k Hk.
  unfold printable.
  do 16 (destruct k as [|k]; [vm_compute; split; discriminate|]).
  lia.
Qed.

Lemma printable_nonzero (c : ascii) : printable c -> c <> NUL.
Proof. intros [H _] ->. vm_compute in H. now apply H. Qed.

Lemma upper_hexdigits_nonzero (n : Z) :
  0 <= n < 16 -> upper_hexdigits n <> NUL.
Proof. intros Hn. apply printable_nonzero, upper_hexdigits_printable, Hn. Qed.

(** The rows of [split_message_hex], one by one. *)
Lemma split_message_hex_rows (hexdigits : Z -> ascii) (msg : list ascii) :
  (forall n : Z, 0 <= n < 16 -> hexdigits n <> NUL) ->
  let text := hex_text hexdigits msg in
  split_message_hex hexdigits msg (Z.of_nat (List.length msg))
  = Some [padded (firstn 16 text); padded (firstn 16 (skipn 16 text));
          padded (firstn 16 (skipn 32 text));
          padded (firstn 16 (skipn 48 text))].
Proof.
  intros Hdigits text. rewrite split_message_hex_as_text. fold text.
  pose proof (hex_text_nonzero hexdigits Hdigits msg) as Hnz. fold text in Hnz.
  pose proof (hex_text_length hexdigits msg) as Hlen. fold text in Hlen.
  assert (Hstr : strlen text = 2 * Z.min (Z.of_nat (List.length msg)) 32).
  { unfold strlen. rewrite cstr_nonzero by assumption. lia. }
  rewrite <- Hstr.
  rewrite split_message_fits by (rewrite ?Hstr; lia).
  cbv zeta. rewrite cstr_nonzero by assumption. reflexivity.
Qed.

(** C8. [split_message_hex] encodes the first 32 bytes of its input at
    most, hence 64 digits at most; when the input is longer the digits at
    the positions 62 and 63 are replaced by dots; the text is then split
    with the row width 16: there are four rows of 33 bytes, and line [k]
    holds the 16 characters of the text from position [16 * k] on, fewer
    or none where the text ends.  The digits of the table are characters,
    none of them the zero byte. *)
Theorem split_message_hex_spec (hexdigits : Z -> ascii) (msg : list ascii) :
  (forall n : Z, 0 <= n < 16 -> hexdigits n <> NUL) ->
  let len := Z.of_nat (List.length msg) in
  let text :=
    if (32 <? List.length msg)%nat
    then (firstn 62 (hex_chars hexdigits (firstn 32 msg)) ++ ["."; "."]%char)%list
    else hex_chars hexdigits msg in
  (List.length text = 2 * Nat.min 32 (List.length msg))%nat
  /\ split_message_hex hexdigits msg len = split_message text (2 * Z.min len 32) 16
  /\ exists p : list (list ascii),
       split_message_hex hexdigits msg len = Some p
       /\ List.length p = 4%nat
       /\ forall k : nat, (k < 4)%nat ->
            List.length (nth k p []) = 33%nat
            /\ cstr (nth k p []) = firstn 16 (skipn (16 * k) text).
Proof.
  intros Hdigits len text.
  assert (Htext : text = hex_text hexdigits msg).
  { unfold text, hex_text.
    destruct (32 <? List.length msg)%nat eqn:En; [reflexivity|].
    apply Nat.ltb_ge in En. rewrite firstn_all2 by lia. reflexivity. }
  rewrite Htext. clearbody text. subst text.
  split; [apply hex_text_length|].
  split; [apply split_message_hex_as_text|].
  pose proof (hex_text_nonzero hexdigits Hdigits msg) as Hnz.
  set (text := hex_text hexdigits msg) in *.
  exists [padded (firstn 16 text); padded (firstn 16 (skipn 16 text));
          padded (firstn 16 (skipn 32 text));
          padded (firstn 16 (skipn 48 text))].
  split; [apply (split_message_hex_rows hexdigits msg Hdigits)|].
  split; [reflexivity|].
  assert (Hchunk : forall n : nat, Forall nonzero (firstn 16 (skipn n text))).
  { intros n. apply Forall_firstn_nonzero, Forall_forall. intros x Hx.
    apply in_skipn in Hx. exact (proj1 (Forall_forall _ _) Hnz x Hx). }
  intros k Hk.
  destruct k as [|[|[|[|k]]]]; [| | | |lia]; cbv [nth];
    (split; [apply length_padded_33; rewrite length_firstn; lia|]);
    rewrite cstr_padded_nonzero
      by first [apply Hchunk | exact (Hchunk 0%nat)];
    reflexivity.
Qed.

Lemma split_message_hex_spec_witness :
  exists p : list (list ascii),
    split_message_hex upper_hexdigits text45 45 = Some p
    /\ cstr (nth 3 p []) = bytes "45464748494A30..".
Proof.
  destruct (split_message_hex_spec upper_hexdigits text45 upper_hexdigits_nonzero)
    as (_ & _ & p & Hp & _ & Hrows).
  exists p. split; [exact Hp|].
  destruct (Hrows 3%nat ltac:(lia)) as [_ Hrow]. rewrite Hrow. reflexivity.
Defined.

(** X6.  With a digit table that holds no zero byte, [split_message_hex]
    always delivers, and its four lines, joined, are the digits of the
    first 32 bytes, the last two replaced by ".." when there are more
    bytes: no other mark, and no digit lost between the rows. *)
Theorem split_message_hex_shows_hex_text (hexdigits : Z -> ascii)
        (msg : list ascii) :
  (forall n : Z, 0 <= n < 16 -> hexdigits n <> NUL) ->
  exists p : list (list ascii),
    split_message_hex hexdigits msg (Z.of_nat (List.length msg)) = Some p
    /\ all_lines p = hex_text hexdigits msg.
Proof. intros H. now apply split_message_hex_lines. Qed.

Lemma split_message_hex_shows_hex_text_witness :
  exists p : list (list ascii),
    split_message_hex upper_hexdigits text45 (Z.of_nat (List.length text45)) = Some p
    /\ all_lines p = hex_text upper_hexdigits text45.
Proof.
  apply (split_message_hex_shows_hex_text upper_hexdigits text45).
  exact upper_hexdigits_nonzero.
Defined.

(** X7.  [layoutPublicKey] passes the length 64 for the 32 bytes behind
    the first one, so that [split_message_hex] marks a truncation: the
    dialog shows the digits of 31 bytes and "..", and the last byte of the
    key is not shown. *)
Theorem layoutPublicKey_hides_last_byte (hexdigits : Z -> ascii)
        (pubkey : list ascii) :
  (forall n : Z, 0 <= n < 16 -> hexdigits n <> NUL) ->
  List.length pubkey = 33%nat ->
  exists p : list (list ascii),
    layoutPublicKey_rows hexdigits pubkey = Some p
    /\ all_lines p
       = (hex_chars hexdigits (firstn 31 (skipn 1 pubkey)) ++ ["."; "."]%char)%list.
Proof.
  intros Hnz Hlen. unfold layoutPublicKey_rows, offset.
  rewrite Hlen. cbn [Z.leb andb bind]. change (Z.to_nat 1) with 1%nat.
  change ((0 <=? 1) && (1 <=? Z.of_nat 33)) with true. cbn [bind].
  rewrite split_message_hex_value
    by (rewrite ?length_skipn, ?Hlen; simpl; lia).
  change (32 <? 32 * 2) with true. cbv iota.
  set (text := (hex_chars hexdigits (firstn 31 (skipn 1 pubkey))
                ++ ["."; "."]%char)%list).
  assert (Hnt : Forall nonzero text).
  { unfold text. apply Forall_app. split; [now apply hex_chars_nonzero|].
    repeat constructor; discriminate. }
  assert (Hstr : strlen text = 64).
  { unfold strlen. rewrite cstr_nonzero by assumption. unfold text.
    rewrite length_app, length_hex_chars, length_firstn, length_skipn, Hlen.
    reflexivity. }
  change (2 * Z.min (32 * 2) 32) with 64. rewrite <- Hstr.
  eexists. split; [apply split_message_fits; [lia | rewrite Hstr; lia]|].
  cbv zeta.
  rewrite all_lines_padded;
    try apply chunk_nonzero;
    try (apply Forall_firstn_nonzero, cstr_is_nonzero).
  rewrite four_chunks, cstr_nonzero by assumption.
  apply firstn_all2. unfold strlen in Hstr.
  rewrite cstr_nonzero in Hstr by assumption. simpl. lia.
Qed.

Lemma layoutPublicKey_hides_last_byte_witness :
  exists p : list (list ascii),
    layoutPublicKey_rows upper_hexdigits pubkey_a = Some p
    /\ all_lines p
       = (hex_chars upper_hexdigits (firstn 31 (skipn 1 pubkey_a))
          ++ ["."; "."]%char)%list.
Proof.
  apply (layoutPublicKey_hides_last_byte upper_hexdigits pubkey_a);
    [exact upper_hexdigits_nonzero | reflexivity].
Defined.

(** Two keys that differ in the last byte only look the same. *)
Example layoutPublicKey_same_rows :
  pubkey_a <> pubkey_b
  /\ layoutPublicKey_rows upper_hexdigits pubkey_a
     = layoutPublicKey_rows upper_hexdigits pubkey_b.
Proof. split; [discriminate | reflexivity]. Qed.

Lemma split_message_some (msg : list ascii) (len rowlen : Z) :
  3 <= rowlen -> len <= Z.of_nat (List.length msg) ->
  exists p : list (list ascii), split_message msg len rowlen = Some p.
Proof.
  intros Hrow Hlen.
  rewrite (split_message_value msg len rowlen ltac:(lia) Hlen). cbv zeta.
  destruct (3 <=? Z.min rowlen 32) eqn:E; [|apply Z.leb_gt in E; lia].
  destruct (Z.min rowlen 32 * 4 <? len); eexists; reflexivity.
Qed.

Lemma is_valid_ascii_printable (data : list ascii) :
  is_valid_ascii data (Z.of_nat (List.length data)) = true ->
  Forall printable data.
Proof.
  unfold is_valid_ascii. rewrite Nat2Z.id, firstn_all.
  intros H. apply andb_true_iff in H. destruct H as [H _].
  rewrite forallb_forall in H.
  apply Forall_forall. intros c Hc. specialize (H c Hc).
  apply negb_true_iff, orb_false_iff in H. destruct H as [Hlo Hhi].
  apply N.ltb_ge in Hlo, Hhi. split; assumption.
Qed.

Lemma dot_printable : printable "."%char.
Proof. split; vm_compute; discriminate. Qed.

(** Asked for more bytes than the buffer holds, [is_valid_ascii] meets
    the terminator. *)
Example is_valid_ascii_behind_buffer :
  is_valid_ascii text9 9 = true /\ is_valid_ascii text9 10 = false.
Proof. split; reflexivity. Qed.

Lemma printable_is_valid_ascii (data : list ascii) :
  Forall printable data ->
  is_valid_ascii data (Z.of_nat (List.length data)) = true.
Proof.
  intros H. unfold is_valid_ascii.
  rewrite Nat2Z.id, firstn_all, Z.leb_refl, andb_true_r.
  apply forallb_forall. intros c Hc.
  destruct (proj1 (Forall_forall _ _) H c Hc) as [Hlo Hhi].
  apply negb_true_iff, orb_false_iff. split; apply N.ltb_ge; assumption.
Qed.

(** The characters of the rows are printable. *)
Lemma message_rows_chars (hexdigits : Z -> ascii) (rowlen : Z)
      (msg : list ascii) (p : list (list ascii)) :
  3 <= rowlen ->
  (forall n : Z, 0 <= n < 16 -> printable (hexdigits n)) ->
  message_rows hexdigits rowlen msg (Z.of_nat (List.length msg)) = Some p ->
  forall (k : nat) (c : ascii), In c (cstr (nth k p [])) -> printable c.
Proof.
  intros Hrow Hdigits. unfold message_rows.
  destruct (is_valid_ascii msg (Z.of_nat (List.length msg))) eqn:Hascii;
    cbn [negb]; intros Hp k c Hc.
  - assert (H0 : 0 <= rowlen) by lia.
    destruct (split_message_chars _ _ _ _ H0 (Z.le_refl _) Hp k c Hc)
      as [Hin| ->]; [|exact dot_printable].
    exact (proj1 (Forall_forall _ _) (is_valid_ascii_printable msg Hascii) c Hin).
  - rewrite split_message_hex_as_text in Hp.
    pose proof (hex_text_length hexdigits msg) as Hlen.
    assert (Hfit : 2 * Z.min (Z.of_nat (List.length msg)) 32
                   <= Z.of_nat (List.length (hex_text hexdigits msg))) by lia.
    assert (H16 : 0 <= 16) by lia.
    destruct (split_message_chars _ _ _ _ H16 Hfit Hp k c Hc)
      as [Hin| ->]; [|exact dot_printable].
    unfold hex_text in Hin.
    assert (Hdig : forall data, In c (hex_chars hexdigits data) -> printable c).
    { intros data Hd. destruct (hex_chars_digits hexdigits data c Hd)
        as (n & Hn & ->). now apply Hdigits. }
    destruct (32 <? List.length msg)%nat; [|eauto].
    apply in_app_or in Hin. destruct Hin as [Hin|Hin].
    + apply in_firstn in Hin. eauto.
    + cbn in Hin. destruct Hin as [<-|[<-|[]]]; exact dot_printable.
Qed.

(** X8.  What the dialogs that sign and verify messages and confirm
    OP_RETURN data put on the screen, for a row width of at least 3 and a
    digit table of printable characters.  A message of printable ASCII
    only goes through as it is: the lines, joined, are the message, or its
    first [4 * rowlen - 3] characters and the ellipsis when it is longer
    than four rows.  Any other message is shown as the hexadecimal digits
    of its first 32 bytes, ".." in the place of the last two digits when
    it has more.  In both cases every character shown is printable. *)
Theorem message_rows_printable (hexdigits : Z -> ascii) (rowlen : Z)
        (msg : list ascii) :
  3 <= rowlen ->
  (forall n : Z, 0 <= n < 16 -> printable (hexdigits n)) ->
  let len := Z.of_nat (List.length msg) in
  exists p : list (list ascii),
    message_rows hexdigits rowlen msg len = Some p
    /\ (forall (k : nat) (c : ascii), In c (cstr (nth k p [])) -> printable c)
    /\ (Forall printable msg ->
        all_lines p
        = if len <=? 4 * Z.min rowlen 32 then msg
          else (firstn (Z.to_nat (4 * Z.min rowlen 32 - 3)) msg ++ ellipsis)%list)
    /\ (~ Forall printable msg ->
        all_lines p
        = if (32 <? List.length msg)%nat
          then (hex_chars hexdigits (firstn 31 msg) ++ ["."; "."]%char)%list
          else hex_chars hexdigits msg).
Proof.
  intros Hrow Hdigits len.
  assert (Hrows : exists p : list (list ascii),
             message_rows hexdigits rowlen msg len = Some p
             /\ (Forall printable msg ->
                 all_lines p
                 = if len <=? 4 * Z.min rowlen 32 then msg
                   else (firstn (Z.to_nat (4 * Z.min rowlen 32 - 3)) msg
                         ++ ellipsis)%list)
             /\ (~ Forall printable msg ->
                 all_lines p = hex_text hexdigits msg)).
  { unfold message_rows.
    destruct (is_valid_ascii msg len) eqn:Hascii; cbn [negb].
    - pose proof (is_valid_ascii_printable msg Hascii) as Hpr.
      pose proof (is_valid_ascii_nonzero msg Hascii) as Hnz.
      assert (Hstr : strlen msg = len)
        by (unfold strlen; now rewrite cstr_nonzero).
      replace (split_message msg len rowlen)
        with (split_message msg (strlen msg) rowlen) by now rewrite Hstr.
      destruct (len <=? 4 * Z.min rowlen 32) eqn:E.
      + apply Z.leb_le in E.
        destruct (lines_when_fits msg rowlen ltac:(lia) ltac:(lia))
          as (p & Hp & Hl).
        exists p. split; [exact Hp|].
        split; [intros _; now rewrite Hl, cstr_nonzero | contradiction].
      + apply Z.leb_gt in E.
        destruct (lines_when_cut msg rowlen Hrow ltac:(lia)) as (p & Hp & Hl).
        exists p. split; [exact Hp|].
        split; [intros _; now rewrite Hl, cstr_nonzero | contradiction].
    - destruct (split_message_hex_lines hexdigits
                  (fun n Hn => printable_nonzero _ (Hdigits n Hn)) msg)
        as (p & Hp & Hl).
      exists p. split; [exact Hp|]. split; [|intros _; exact Hl].
      intros Hpr. apply printable_is_valid_ascii in Hpr.
      fold len in Hpr. congruence. }
  destruct Hrows as (p & Hp & Htext & Hhex).
  exists p. split; [exact Hp|].
  split; [exact (message_rows_chars hexdigits rowlen msg p Hrow Hdigits Hp)|].
  split; [exact Htext|].
  intros Hn. rewrite (Hhex Hn). unfold hex_text.
  destruct (32 <? List.length msg)%nat eqn:En.
  - change 62%nat with (2 * 31)%nat.
    rewrite firstn_hex_chars, firstn_firstn. reflexivity.
  - apply Nat.ltb_ge in En. rewrite firstn_all2 by lia. reflexivity.
Qed.

Lemma message_rows_printable_witness :
  exists p : list (list ascii),
    layoutSignMessage_rows upper_hexdigits binary45 (Z.of_nat (List.length binary45))
    = Some p
    /\ forall (k : nat) (c : ascii), In c (cstr (nth k p [])) -> printable c.
Proof.
  destruct (message_rows_printable upper_hexdigits 18 binary45 ltac:(lia)
              upper_hexdigits_printable) as (p & Hp & Hc & _).
  exists p. split; [exact Hp | exact Hc].
Defined.

(** A message with a zero byte is shown in hexadecimal, cut after 31
    bytes. *)
Example layoutSignMessage_binary :
  option_map all_lines
    (layoutSignMessage_rows upper_hexdigits binary45 45)
  = Some (bytes "303132333435363738396162636465666768696A4142434445464748494A00..").
Proof. reflexivity. Qed.

(** * Properties of the address dialogs *)

Lemma strncmp_eq_prefix (b : list ascii) :
  Forall nonzero b ->
  forall a : list ascii,
    strncmp_eq a b (List.length b) = true ->
    a = (b ++ skipn (List.length b) a)%list.
Proof.
  induction 1 as [|c b Hc _ IH]; intros a Heq; [reflexivity|].
  cbn [List.length strncmp_eq hd tl] in Heq.
  destruct a as [|x a]; cbn [hd tl] in Heq.
  - destruct (Ascii.eqb_spec NUL c) as [E|_]; [|discriminate].
    symmetry in E. contradiction.
  - destruct (Ascii.eqb_spec x c) as [->|_]; [|discriminate].
    destruct (Ascii.eqb_spec c NUL) as [E|_]; [contradiction|].
    cbn [List.length skipn app]. f_equal. now apply IH.
Qed.

Lemma strncmp_eq_app (b : list ascii) :
  Forall nonzero b ->
  forall rest : list ascii, strncmp_eq (b ++ rest) b (List.length b) = true.
Proof.
  induction 1 as [|c b Hc _ IH]; intros rest; [reflexivity|].
  cbn [List.length strncmp_eq hd tl app].
  rewrite Ascii.eqb_refl.
  destruct (Ascii.eqb_spec c NUL) as [E|_]; [contradiction|]. apply IH.
Qed.

(** X9.  The cashaddr prefix of the coin, when the address carries it, is
    removed together with its colon, and nothing else is ever removed. *)
Theorem strip_cashaddr_removes_prefix (prefix address rest : list ascii) :
  Forall nonzero prefix ->
  strip_cashaddr (Some prefix) (prefix ++ ":"%char :: rest) = rest
  /\ (strip_cashaddr (Some prefix) address = address
      \/ address
         = (prefix ++ ":"%char :: strip_cashaddr (Some prefix) address)%list).
Proof.
  intros Hp. unfold strip_cashaddr. rewrite (cstr_nonzero prefix Hp). split.
  - rewrite strncmp_eq_app by assumption.
    rewrite app_nth2, Nat.sub_diag by lia. cbn [nth andb].
    rewrite Ascii.eqb_refl.
    rewrite skipn_app, skipn_all2 by lia.
    replace (List.length prefix + 1 - List.length prefix)%nat with 1%nat by lia.
    reflexivity.
  - destruct (strncmp_eq address prefix (List.length prefix)) eqn:Hcmp;
      [|now left].
    destruct (Ascii.eqb_spec (nth (List.length prefix) address NUL) ":"%char)
      as [Hcolon|_]; [|now left].
    right. cbn [andb].
    pose proof (strncmp_eq_prefix prefix Hp address Hcmp) as Ha.
    rewrite Ha at 1. f_equal.
    replace (List.length prefix + 1)%nat with (1 + List.length prefix)%nat by lia.
    rewrite <- skipn_skipn.
    assert (Hhead : nth 0 (skipn (List.length prefix) address) NUL
                    = nth (List.length prefix) address NUL)
      by (rewrite nth_skipn; f_equal; lia).
    rewrite <- Hhead in Hcolon.
    destruct (skipn (List.length prefix) address) as [|x tl0];
      cbn [nth] in Hcolon; [discriminate Hcolon|].
    now subst x.
Qed.

Lemma strip_cashaddr_removes_prefix_witness :
  strip_cashaddr (Some (bytes "bitcoincash")) cashaddr54
  = bytes "qpm2qsznhks23z7629mms6s4cwef74vcwvy22gdx6a".
Proof.
  apply (strip_cashaddr_removes_prefix (bytes "bitcoincash") cashaddr54
           (bytes "qpm2qsznhks23z7629mms6s4cwef74vcwvy22gdx6a")).
  repeat constructor; discriminate.
Defined.

Lemma address_linelen_bounds (n : Z) :
  0 <= n <= 84 ->
  1 <= address_linelen n <= 21
  /\ n <= 4 * address_linelen n
  /\ (n <= 63 <-> n <= 3 * address_linelen n).
Proof.
  intros Hn. unfold address_linelen.
  destruct (Z.eq_dec n 0) as [->|Hpos]; [vm_compute; intuition discriminate|].
  rewrite !Z.quot_div_nonneg by (try destruct (n <=? 42); lia).
  destruct (n <=? 42) eqn:E42; [apply Z.leb_le in E42 | apply Z.leb_gt in E42].
  - destruct (21 <? (n - 1) / 2 + 1) eqn:E;
      [apply Z.ltb_lt in E | apply Z.ltb_ge in E];
      Z.div_mod_to_equations; lia.
  - destruct (21 <? (n - 1) / 3 + 1) eqn:E;
      [apply Z.ltb_lt in E | apply Z.ltb_ge in E];
      Z.div_mod_to_equations; lia.
Qed.

Lemma first_char_padded (t : list ascii) :
  Forall nonzero t ->
  (Ascii.eqb (nth 0 (padded t) NUL) NUL = true <-> t = []).
Proof.
  intros Ht. destruct t as [|c t].
  - split; reflexivity.
  - cbn [padded app nth]. inversion Ht as [|? ? Hc _]; subst.
    destruct (Ascii.eqb_spec c NUL) as [E|_]; [contradiction|].
    split; discriminate.
Qed.

Lemma chunk_empty_iff (A : Type) (r k : nat) (c : list A) :
  (0 < r)%nat ->
  (firstn r (skipn k c) = [] <-> (List.length c <= k)%nat).
Proof.
  intros Hr. split.
  - intros H. apply (f_equal (@List.length A)) in H.
    rewrite length_firstn, length_skipn in H. cbn in H. lia.
  - intros H. rewrite skipn_all2 by lia. apply firstn_nil.
Qed.

(** X10.  [render_address_dialog] shows an address of up to 84 characters
    completely, whatever its length; the fourth line stays free, so that
    the path of a change output is drawn, exactly when the address has at
    most 63 characters. *)
Theorem render_address_rows_complete (cashaddr_prefix : option (list ascii))
        (address : list ascii) :
  strlen (strip_cashaddr cashaddr_prefix address) <= 84 ->
  exists p : list (list ascii),
    render_address_rows cashaddr_prefix address = Some p
    /\ all_lines p = cstr (strip_cashaddr cashaddr_prefix address)
    /\ (extra_line_drawn p = true
        <-> strlen (strip_cashaddr cashaddr_prefix address) <= 63).
Proof.
  unfold render_address_rows.
  set (a := strip_cashaddr cashaddr_prefix address). intros Hlen.
  assert (H0 : 0 <= strlen a) by (unfold strlen; lia).
  destruct (address_linelen_bounds (strlen a) ltac:(lia)) as (Hl & H4 & H3).
  set (l := address_linelen (strlen a)) in *.
  assert (Hmin : Z.min l 32 = l) by lia.
  eexists. split; [apply split_message_fits; lia|].
  cbv zeta. rewrite Hmin. set (r := Z.to_nat l). split.
  - rewrite all_lines_padded;
      try apply chunk_nonzero;
      try (apply Forall_firstn_nonzero, cstr_is_nonzero).
    rewrite four_chunks. apply firstn_all2. unfold strlen in H4. lia.
  - unfold extra_line_drawn. cbv [nth].
    rewrite first_char_padded by apply chunk_nonzero.
    rewrite chunk_empty_iff by (unfold r; lia).
    unfold strlen in *. rewrite H3. unfold r. lia.
Qed.

Lemma render_address_rows_complete_witness :
  exists p : list (list ascii),
    render_address_rows (Some (bytes "bitcoincash")) cashaddr54 = Some p
    /\ all_lines p = cstr (strip_cashaddr (Some (bytes "bitcoincash")) cashaddr54)
    /\ (extra_line_drawn p = true
        <-> strlen (strip_cashaddr (Some (bytes "bitcoincash")) cashaddr54) <= 63).
Proof.
  apply (render_address_rows_complete (Some (bytes "bitcoincash")) cashaddr54).
  vm_compute. discriminate.
Defined.

Example render_address_rows_cashaddr :
  option_map (fun p => (line p 0, line p 1, line p 2, line p 3))
             (render_address_rows (Some (bytes "bitcoincash")) cashaddr54)
  = Some ("qpm2qsznhks23z7629mms", "6s4cwef74vcwvy22gdx6a", "", "")%string.
Proof. reflexivity. Qed.

Lemma map_cstr_padded (rows : list (list ascii)) :
  Forall (Forall nonzero) rows -> map cstr (map padded rows) = rows.
Proof.
  induction 1 as [|t rows Ht _ IH]; [reflexivity|].
  cbn [map]. now rewrite cstr_padded_nonzero, IH.
Qed.

(** X11.  Without QR code [layoutAddress] draws an address of up to 84
    characters completely: the two, three or four rows it picks are
    enough.  Of a longer one it draws the first 81 characters and the
    ellipsis. *)
Theorem layoutAddress_rows_complete (address : list ascii) :
  exists rows : list (list ascii),
    layoutAddress_rows address = Some rows
    /\ List.concat rows
       = if strlen address <=? 84 then cstr address
         else (firstn 81 (cstr address) ++ ellipsis)%list.
Proof.
  unfold layoutAddress_rows.
  set (c := cstr address).
  assert (Hc : strlen address = Z.of_nat (List.length c)) by reflexivity.
  destruct (10 <? strlen address) eqn:E10.
  2:{ apply Z.ltb_ge in E10. eexists. split; [reflexivity|].
      destruct (strlen address <=? 84) eqn:E; [|apply Z.leb_gt in E; lia].
      cbn [List.concat]. apply app_nil_r. }
  apply Z.ltb_lt in E10.
  assert (Hnz : forall n k, Forall nonzero (firstn n (skipn k c)))
    by (intros n k; apply chunk_nonzero).
  assert (Hnz0 : Forall nonzero (firstn 21 c))
    by (apply Forall_firstn_nonzero, cstr_is_nonzero).
  destruct (strlen address <=? 84) eqn:E84;
    [apply Z.leb_le in E84 | apply Z.leb_gt in E84].
  - rewrite split_message_fits by lia. cbv zeta. cbn [bind].
    change (Z.to_nat (Z.min 21 32)) with 21%nat. fold c.
    assert (Hall : (firstn 21 c ++ firstn 21 (skipn 21 c)
                    ++ firstn 21 (skipn (2 * 21) c)
                    ++ firstn 21 (skipn (3 * 21) c))%list = c).
    { rewrite four_chunks. apply firstn_all2. lia. }
    pose proof (chunk_empty_iff ascii 21 (2 * 21) c ltac:(lia)) as He2.
    pose proof (chunk_empty_iff ascii 21 (3 * 21) c ltac:(lia)) as He3.
    set (t0 := firstn 21 c) in *. set (t1 := firstn 21 (skipn 21 c)) in *.
    set (t2 := firstn 21 (skipn (2 * 21) c)) in *.
    set (t3 := firstn 21 (skipn (3 * 21) c)) in *.
    assert (H1 : Forall nonzero t1) by apply Hnz.
    assert (H2 : Forall nonzero t2) by apply Hnz.
    assert (H3 : Forall nonzero t3) by apply Hnz.
    eexists. split; [reflexivity|].
    destruct (strlen address <=? 42) eqn:E42;
      [apply Z.leb_le in E42 | apply Z.leb_gt in E42].
    + cbn [firstn map List.concat]. rewrite !cstr_padded_nonzero by assumption.
      rewrite <- Hall at 1.
      rewrite (proj2 He2), (proj2 He3) by lia. reflexivity.
    + destruct (strlen address <=? 63) eqn:E63;
        [apply Z.leb_le in E63 | apply Z.leb_gt in E63].
      * cbn [firstn map List.concat]. rewrite !cstr_padded_nonzero by assumption.
        rewrite <- Hall at 1. rewrite (proj2 He3) by lia. reflexivity.
      * cbn [firstn map List.concat]. rewrite !cstr_padded_nonzero by assumption.
        rewrite app_nil_r. exact Hall.
  - rewrite split_message_cut by lia. cbv zeta. cbn [bind].
    change (Z.to_nat (Z.min 21 32)) with 21%nat. fold c.
    destruct (strlen address <=? 42) eqn:E42; [apply Z.leb_le in E42; lia|].
    destruct (strlen address <=? 63) eqn:E63; [apply Z.leb_le in E63; lia|].
    assert (Hall : ((firstn 21 c ++ firstn 21 (skipn 21 c)
                     ++ firstn 21 (skipn (2 * 21) c)
                     ++ firstn (21 - 3) (skipn (3 * 21) c)) ++ ellipsis)%list
                   = (firstn 81 c ++ ellipsis)%list)
      by (rewrite four_chunks; reflexivity).
    assert (Hlast : Forall nonzero (firstn (21 - 3) (skipn (3 * 21) c) ++ ellipsis)).
    { apply Forall_app. split; [apply Hnz|].
      repeat constructor; discriminate. }
    set (t0 := firstn 21 c) in *. set (t1 := firstn 21 (skipn 21 c)) in *.
    set (t2 := firstn 21 (skipn (2 * 21) c)) in *.
    set (t3 := firstn (21 - 3) (skipn (3 * 21) c)) in *.
    set (shown := firstn 81 c) in *.
    assert (H1 : Forall nonzero t1) by apply Hnz.
    assert (H2 : Forall nonzero t2) by apply Hnz.
    eexists. split; [reflexivity|].
    cbn [firstn map List.concat].
    rewrite !cstr_padded_nonzero by assumption.
    rewrite app_nil_r, <- Hall. now rewrite <- !app_assoc.
Qed.

(** X12.  The two pages of [layoutXPUB] are contiguous: page 0 shows the
    first 81 characters and the ellipsis, page 1 starts with character 81
    and shows the rest completely, for an extended key of 85 to 165
    characters. *)
Theorem layoutXPUB_pages_contiguous (xpub : list ascii) :
  84 < strlen xpub <= 165 ->
  exists p0 p1 : list (list ascii),
    layoutXPUB_rows xpub 0 = Some p0
    /\ layoutXPUB_rows xpub 1 = Some p1
    /\ all_lines p0 = (firstn 81 (cstr xpub) ++ ellipsis)%list
    /\ all_lines p1 = skipn 81 (cstr xpub).
Proof.
  intros Hlen. unfold layoutXPUB_rows.
  pose proof (strlen_le_length xpub) as Hbuf.
  assert (Hoff0 : offset xpub (0 * 81) = Some xpub).
  { unfold offset. change (0 * 81) with 0.
    destruct (0 <=? Z.of_nat (List.length xpub)) eqn:E;
      [reflexivity | apply Z.leb_gt in E; lia]. }
  assert (Hoff1 : offset xpub (1 * 81) = Some (skipn 81 xpub)).
  { unfold offset. change (1 * 81) with 81.
    destruct (81 <=? Z.of_nat (List.length xpub)) eqn:E;
      [reflexivity | apply Z.leb_gt in E; lia]. }
  rewrite Hoff0, Hoff1. cbn [bind].
  assert (Hc1 : cstr (skipn 81 xpub) = skipn 81 (cstr xpub))
    by (apply cstr_skipn; unfold strlen in Hlen; lia).
  destruct (lines_when_cut xpub 21 ltac:(lia) ltac:(lia)) as (p0 & Hp0 & Hl0).
  destruct (lines_when_fits (skipn 81 xpub) 21 ltac:(lia)) as (p1 & Hp1 & Hl1).
  { unfold strlen in *. rewrite Hc1, length_skipn. lia. }
  exists p0, p1. repeat split; try assumption.
  now rewrite Hl1.
Qed.

Lemma layoutXPUB_pages_contiguous_witness :
  exists p0 p1 : list (list ascii),
    layoutXPUB_rows xpub111 0 = Some p0
    /\ layoutXPUB_rows xpub111 1 = Some p1
    /\ all_lines p0 = (firstn 81 (cstr xpub111) ++ ellipsis)%list
    /\ all_lines p1 = skipn 81 (cstr xpub111).
Proof.
  apply (layoutXPUB_pages_contiguous xpub111). vm_compute.
  split; [reflexivity | discriminate].
Defined.

(** * Properties of the remaining dialogs *)

Lemma data2hex_row (hexdigits : Z -> ascii) (data : list ascii) :
  (8 <= List.length data)%nat ->
  data2hex hexdigits data 8 (repeat NUL 17)
  = Some (hex_chars hexdigits (firstn 8 data) ++ [NUL])%list.
Proof.
  intros Hd. unfold data2hex. rewrite repeat_length.
  destruct (8 <=? Z.of_nat (List.length data)) eqn:E;
    [|apply Z.leb_gt in E; lia].
  cbn [Z.leb andb]. change ((0 <=? 8) && true && (2 * 8 <? Z.of_nat 17)) with true.
  cbv iota. change (Z.to_nat 8) with 8%nat.
  rewrite length_hex_chars, length_firstn.
  replace (Nat.min 8 (List.length data)) with 8%nat by lia.
  reflexivity.
Qed.

(** X13.  [layoutCosiCommitSign] shows a digest of 32 bytes completely:
    four lines of 16 digits, the digits of all 32 bytes in order, with no
    truncation mark. *)
Theorem layoutCosiCommitSign_rows_complete (hexdigits : Z -> ascii)
        (data : list ascii) :
  (forall n : Z, 0 <= n < 16 -> hexdigits n <> NUL) ->
  List.length data = 32%nat ->
  exists p : list (list ascii),
    layoutCosiCommitSign_rows hexdigits data 32 = Some p
    /\ all_lines p = hex_chars hexdigits data
    /\ forall k : nat, (k < 4)%nat -> List.length (cstr (nth k p [])) = 16%nat.
Proof.
  intros Hnz Hlen. unfold layoutCosiCommitSign_rows, offset.
  change (32 =? 32) with true. cbv iota. rewrite Hlen.
  change ((0 <=? 8) && (8 <=? Z.of_nat 32)) with true.
  change ((0 <=? 16) && (16 <=? Z.of_nat 32)) with true.
  change ((0 <=? 24) && (24 <=? Z.of_nat 32)) with true.
  cbv iota.
  change (Z.to_nat 8) with 8%nat. change (Z.to_nat 16) with (2 * 8)%nat.
  change (Z.to_nat 24) with (3 * 8)%nat.
  unfold bind.
  do 4 (rewrite data2hex_row by (rewrite ?length_skipn, ?Hlen; lia);
        cbv beta iota).
  eexists. split; [reflexivity|].
  assert (Hrow : forall d, cstr (hex_chars hexdigits d ++ [NUL])
                           = hex_chars hexdigits d).
  { intros d. rewrite cstr_app_nonzero by now apply hex_chars_nonzero.
    cbn [cstr]. rewrite Ascii.eqb_refl. apply app_nil_r. }
  split.
  - unfold all_lines. cbv [nth]. rewrite !Hrow.
    rewrite <- !hex_chars_app, four_chunks.
    rewrite firstn_all2 by lia. reflexivity.
  - intros [|[|[|[|k]]]] Hk; cbv [nth]; try lia;
      rewrite Hrow, length_hex_chars, length_firstn, ?length_skipn; lia.
Qed.

Lemma layoutCosiCommitSign_rows_complete_witness :
  exists p : list (list ascii),
    layoutCosiCommitSign_rows upper_hexdigits digest32 32 = Some p
    /\ all_lines p = hex_chars upper_hexdigits digest32
    /\ forall k : nat, (k < 4)%nat -> List.length (cstr (nth k p [])) = 16%nat.
Proof.
  apply (layoutCosiCommitSign_rows_complete upper_hexdigits digest32);
    [exact upper_hexdigits_nonzero | reflexivity].
Defined.

(** Data of any other length is not shown at all. *)
Example layoutCosiCommitSign_other_length :
  option_map (fun p => (line p 0, line p 1, line p 2, line p 3))
             (layoutCosiCommitSign_rows upper_hexdigits text45 45)
  = Some ("Data", "of", "unsupported", "length")%string.
Proof. reflexivity. Qed.

Example layoutCosiCommitSign_index :
  string_of_list_ascii
    (layoutCosiCommitSign_desc [0x80000000 + 10018; 0x80000000 + 7] true)
  = "CoSi sign index 7?"%string
  /\ string_of_list_ascii
       (layoutCosiCommitSign_desc [0x80000000 + 10018; 0x80000000 + 7] false)
     = "CoSi commit index 7?"%string
  /\ string_of_list_ascii
       (layoutCosiCommitSign_desc [0x80000000 + 10018; 0x80000000 + 10] true)
     = "CoSi sign message?"%string.
Proof. repeat split; reflexivity. Qed.

(** X14.  [layoutNEMDialog] cuts the address into thirds without losing a
    character, provided the address has [NEM_ADDRESS_SIZE] characters and
    two thirds of that size are twice one third (as for the size 40). *)
Theorem layoutNEMDialog_rows_complete (NEM_ADDRESS_SIZE : Z)
        (address : list ascii) :
  0 <= NEM_ADDRESS_SIZE ->
  strlen address = NEM_ADDRESS_SIZE ->
  Z.quot (NEM_ADDRESS_SIZE * 2) 3 = 2 * Z.quot NEM_ADDRESS_SIZE 3 ->
  exists rows : list (list ascii),
    layoutNEMDialog_rows NEM_ADDRESS_SIZE address = Some rows
    /\ List.concat rows = cstr address.
Proof.
  intros Hsize Hlen Hthirds. unfold layoutNEMDialog_rows.
  rewrite Hthirds.
  assert (Hq : 0 <= Z.quot NEM_ADDRESS_SIZE 3 /\ 3 * Z.quot NEM_ADDRESS_SIZE 3 <= NEM_ADDRESS_SIZE).
  { rewrite Z.quot_div_nonneg by lia. Z.div_mod_to_equations. lia. }
  set (q := Z.quot NEM_ADDRESS_SIZE 3) in *.
  pose proof (strlen_le_length address) as Hbuf.
  unfold offset.
  destruct ((0 <=? q) && (q <=? Z.of_nat (List.length address))) eqn:E1.
  2:{ apply andb_false_iff in E1.
      destruct E1 as [E|E]; apply Z.leb_gt in E; lia. }
  destruct ((0 <=? 2 * q) && (2 * q <=? Z.of_nat (List.length address))) eqn:E2.
  2:{ apply andb_false_iff in E2.
      destruct E2 as [E|E]; apply Z.leb_gt in E; lia. }
  cbn [bind]. eexists. split; [reflexivity|].
  cbn [List.concat]. rewrite app_nil_r.
  replace (Z.to_nat (q + 1) - 1)%nat with (Z.to_nat q) by lia.
  unfold strlen in Hlen.
  rewrite !cstr_skipn by lia.
  replace (Z.to_nat (2 * q)) with (Z.to_nat q + Z.to_nat q)%nat by lia.
  rewrite <- skipn_skipn.
  rewrite <- (firstn_skipn (Z.to_nat q) (cstr address)) at 4.
  f_equal. apply firstn_skipn.
Qed.

Lemma layoutNEMDialog_rows_complete_witness :
  exists rows : list (list ascii),
    layoutNEMDialog_rows 40 nem_address40 = Some rows
    /\ List.concat rows = cstr nem_address40.
Proof.
  apply (layoutNEMDialog_rows_complete 40 nem_address40);
    [lia | reflexivity | reflexivity].
Defined.

Example layoutNEMDialog_thirds :
  option_map (map string_of_list_ascii) (layoutNEMDialog_rows 40 nem_address40)
  = Some ["NBZMQO7ZPBYNB"; "DUR7F75MAKA2S"; "3DHDCIFG775N3D"]%string.
Proof. reflexivity. Qed.

(** X15.  For the positions 1 to 24 of a recovery seed, [layoutResetWord]
    announces the word with the right English ordinal: "1st", "2nd",
    "3rd", "4th", ..., "11th", "12th", "13th", ..., "21st", "22nd",
    "23rd", "24th". *)
Theorem layoutResetWord_label_ordinal (word_pos : Z) :
  1 <= word_pos <= 24 ->
  layoutResetWord_label word_pos = ordinal_label word_pos.
Proof.
  intros H.
  assert (Hn : word_pos = Z.of_nat (Z.to_nat word_pos)) by lia.
  assert (Hb : (Z.to_nat word_pos <= 24)%nat) by lia.
  rewrite Hn. clear Hn H.
  generalize dependent (Z.to_nat word_pos). intros n Hb.
  do 25 (destruct n as [|n]; [vm_compute; try reflexivity; lia|]).
  lia.
Qed.

Lemma layoutResetWord_label_ordinal_witness :
  layoutResetWord_label 22 = "22nd word is:"%string.
Proof.
  apply (layoutResetWord_label_ordinal 22). lia.
Defined.

Example layoutResetWord_labels :
  map layoutResetWord_label [1; 2; 3; 4; 11; 12; 13; 21; 24]
  = ["1st word is:"; "2nd word is:"; "3rd word is:"; "4th word is:";
     "11th word is:"; "12th word is:"; "13th word is:"; "21st word is:";
     "24th word is:"]%string.
Proof. reflexivity. Qed.

(** Outside the positions of a seed the digit is whatever ['0' + n]
    gives. *)
Example layoutResetWord_label_negative :
  layoutResetWord_label (-1) = "/th word is:"%string.
Proof. reflexivity. Qed.

Lemma string_length_append (a b : string) :
  String.length (a ++ b) = (String.length a + String.length b)%nat.
Proof. induction a as [|c a IH]; cbn; [reflexivity|now rewrite IH]. Qed.

Lemma substring_whole (s : string) (n : nat) :
  (String.length s <= n)%nat -> substring 0 n s = s.
Proof.
  revert n. induction s as [|c s IH]; intros n Hn.
  - destruct n; reflexivity.
  - destruct n as [|n]; cbn in Hn; [lia|].
    cbn. f_equal. apply IH. lia.
Qed.

Lemma strlcat_fits (dst src : string) (size : nat) :
  (String.length dst + String.length src <= size - 1)%nat ->
  strlcat dst src size = (dst ++ src)%string.
Proof.
  intros H. unfold strlcat. now rewrite substring_whole by lia.
Qed.

Lemma auto_lock_amount_cases (delay_ms : Z) :
  0 <= delay_ms ->
  let '(num, unit) := auto_lock_amount delay_ms in
  unit_ms unit * num <= delay_ms < unit_ms unit * (num + 1)
  /\ (unit = "second"%string /\ 0 <= num < 60
      \/ unit = "minute"%string /\ 1 <= num < 60
      \/ unit = "hour"%string /\ 1 <= num).
Proof.
  intros Hd. unfold auto_lock_amount.
  destruct (60 * 60 * 1000 <=? delay_ms) eqn:Eh;
    [apply Z.leb_le in Eh | apply Z.leb_gt in Eh].
  - change (unit_ms "hour") with 3600000.
    split; [|right; right; split; [reflexivity|]];
      Z.div_mod_to_equations; lia.
  - destruct (60 * 1000 <=? delay_ms) eqn:Em;
      [apply Z.leb_le in Em | apply Z.leb_gt in Em].
    + change (unit_ms "minute") with 60000.
      split; [|right; left; split; [reflexivity|]];
        Z.div_mod_to_equations; lia.
    + change (unit_ms "second") with 1000.
      split; [|left; split; [reflexivity|]];
        Z.div_mod_to_equations; lia.
Qed.

(** X16.  The line of [layoutConfirmAutoLockDelay] names the delay in
    whole seconds below a minute, whole minutes below an hour and whole
    hours from there on, rounded down, with a plural "s" above 1; the
    buffer of [sizeof("after 4294967296 minutes?")], 26 bytes, never cuts
    it, as long as the formatted number has at most ten characters. *)
Theorem layoutConfirmAutoLockDelay_line_spec
        (bn_format_uint64 : Z -> nat -> string) (delay_ms : Z) :
  0 <= delay_ms ->
  (String.length (bn_format_uint64 (fst (auto_lock_amount delay_ms)) 20) <= 10)%nat ->
  let num := fst (auto_lock_amount delay_ms) in
  let unit := snd (auto_lock_amount delay_ms) in
  unit_ms unit * num <= delay_ms < unit_ms unit * (num + 1)
  /\ (unit = "second"%string /\ 0 <= num < 60
      \/ unit = "minute"%string /\ 1 <= num < 60
      \/ unit = "hour"%string /\ 1 <= num)
  /\ layoutConfirmAutoLockDelay_line bn_format_uint64 delay_ms
     = ("after " ++ bn_format_uint64 num 20%nat ++ " " ++ unit
        ++ (if (1 <? num)%Z then "s" else "") ++ "?")%string.
Proof.
  intros Hd Hfmt num unit0.
  pose proof (auto_lock_amount_cases delay_ms Hd) as Hcases.
  unfold layoutConfirmAutoLockDelay_line.
  subst num unit0.
  destruct (auto_lock_amount delay_ms) as [num unit0]. cbn [fst snd] in *.
  destruct Hcases as [Hbound Hunit].
  split; [exact Hbound|]. split; [exact Hunit|].
  change (strlcpy "after " 26) with "after "%string.
  change (26 - String.length "after ")%nat with 20%nat.
  set (digits := bn_format_uint64 num 20%nat) in *.
  assert (Hu : (String.length unit0 <= 6)%nat).
  { destruct Hunit as [[-> _]|[[-> _]|[-> _]]]; cbn; lia. }
  rewrite (strlcat_fits ("after " ++ digits) " ")
    by (rewrite string_length_append; cbn [String.length]; lia).
  rewrite (strlcat_fits _ unit0)
    by (rewrite !string_length_append; cbn [String.length]; lia).
  destruct (1 <? num).
  - rewrite (strlcat_fits _ "s")
      by (rewrite !string_length_append; cbn [String.length]; lia).
    rewrite (strlcat_fits _ "?")
      by (rewrite !string_length_append; cbn [String.length]; lia).
    assert (Hassoc : forall a b c : string, ((a ++ b) ++ c = a ++ b ++ c)%string)
      by (intros a b c; induction a; cbn; congruence).
    now rewrite !Hassoc.
  - rewrite (strlcat_fits _ "?")
      by (rewrite !string_length_append; cbn [String.length]; lia).
    assert (Hassoc : forall a b c : string, ((a ++ b) ++ c = a ++ b ++ c)%string)
      by (intros a b c; induction a; cbn; congruence).
    now rewrite !Hassoc.
Qed.

Lemma layoutConfirmAutoLockDelay_line_spec_witness :
  layoutConfirmAutoLockDelay_line (fun n _ => put_decimal 9 n "") 600000
  = "after 10 minutes?"%string.
Proof.
  apply (layoutConfirmAutoLockDelay_line_spec
           (fun n _ => put_decimal 9 n "") 600000);
    [lia | vm_compute; lia].
Defined.

(** A number of eleven characters costs the line its question mark. *)
Example layoutConfirmAutoLockDelay_cut :
  layoutConfirmAutoLockDelay_line (fun _ _ => "12345678901"%string) 120000
  = "after 12345678901 minutes"%string.
Proof. reflexivity. Qed.

Example layoutConfirmAutoLockDelay_lines :
  map (layoutConfirmAutoLockDelay_line (fun n _ => put_decimal 9 n ""))
      [0; 1000; 59999; 60000; 3599999; 3600000; 4294967295]
  = ["after 0 second?"; "after 1 second?"; "after 59 seconds?";
     "after 1 minute?"; "after 59 minutes?"; "after 1 hour?";
     "after 1193 hours?"]%string.
Proof. reflexivity. Qed.

(** * Further properties of the path humanizer *)

Lemma string_app_assoc (a b c : string) :
  ((a ++ b) ++ c = a ++ b ++ c)%string.
Proof. induction a as [|x a IH]; cbn; congruence. Qed.

(** The digit loop writes its digits in front of what is there. *)
Lemma put_decimal_app (fuel : nat) :
  forall (i : Z) (c : string),
    put_decimal fuel i c = (put_decimal fuel i "" ++ c)%string.
Proof.
  induction fuel as [|fuel IH]; intros i c; [reflexivity|].
  cbn [put_decimal]. destruct (0 <? i / 10); [|reflexivity].
  rewrite IH. rewrite (IH _ (String _ "")).
  now rewrite string_app_assoc.
Qed.

Lemma digit_char_is_digit (d : Z) :
  0 <= d < 10 -> is_digit (digit_char d) = true
                 /\ Z.of_N (N_of_ascii (digit_char d)) - 48 = d.
Proof.
  intros H.
  assert (Hc : d = 0 \/ d = 1 \/ d = 2 \/ d = 3 \/ d = 4 \/ d = 5 \/ d = 6
               \/ d = 7 \/ d = 8 \/ d = 9) by lia.
  repeat (destruct Hc as [ -> | Hc ]; [split; reflexivity|]).
  subst d. split; reflexivity.
Qed.

Lemma all_digits_app (a b : string) :
  all_digits (a ++ b) = all_digits a && all_digits b.
Proof.
  induction a as [|c a IH]; [reflexivity|].
  cbn. rewrite IH. apply andb_assoc.
Qed.

Lemma decimal_value_app (a b : string) (acc : Z) :
  decimal_value acc (a ++ b) = decimal_value (decimal_value acc a) b.
Proof.
  revert acc. induction a as [|c a IH]; intros acc; [reflexivity|].
  cbn. apply IH.
Qed.

(** The digits of a number: never empty, digits only, and they denote the
    number. *)
Lemma put_decimal_digits (fuel : nat) :
  forall i : Z,
    0 <= i < 10 ^ Z.of_nat (S fuel) ->
    put_decimal fuel i "" <> ""%string
    /\ all_digits (put_decimal fuel i "") = true
    /\ decimal_value 0 (put_decimal fuel i "") = i.
Proof.
  induction fuel as [|fuel IH]; intros i Hi.
  - cbn [put_decimal]. change (10 ^ Z.of_nat 1) with 10 in Hi.
    rewrite Z.mod_small by lia.
    destruct (digit_char_is_digit i Hi) as [Hd Hv].
    split; [discriminate|]. split.
    + cbn [all_digits]. now rewrite Hd.
    + cbn [decimal_value]. lia.
  - cbn [put_decimal].
    assert (Hm : 0 <= i mod 10 < 10) by (apply Z.mod_pos_bound; lia).
    destruct (digit_char_is_digit _ Hm) as [Hd Hv].
    destruct (0 <? i / 10) eqn:E.
    + apply Z.ltb_lt in E.
      assert (Hq : 0 <= i / 10 < 10 ^ Z.of_nat (S fuel)).
      { split; [lia|]. apply Z.div_lt_upper_bound; [lia|].
        replace (10 * 10 ^ Z.of_nat (S fuel)) with (10 ^ Z.of_nat (S (S fuel)));
          [lia|].
        rewrite (Nat2Z.inj_succ (S fuel)), Z.pow_succ_r by lia. reflexivity. }
      destruct (IH _ Hq) as (Hne & Hall & Hval).
      rewrite put_decimal_app. split; [|split].
      * destruct (put_decimal fuel (i / 10) ""); [contradiction|discriminate].
      * rewrite all_digits_app, Hall. cbn [all_digits andb]. now rewrite Hd.
      * rewrite decimal_value_app, Hval. cbn [decimal_value]. rewrite Hv.
        pose proof (Z.div_mod i 10 ltac:(lia)). lia.
    + apply Z.ltb_ge in E.
      assert (Hsmall : i / 10 = 0).
      { pose proof (Z.div_pos i 10 ltac:(lia) ltac:(lia)). lia. }
      assert (Hi10 : i mod 10 = i).
      { pose proof (Z.div_mod i 10 ltac:(lia)). lia. }
      split; [discriminate|]. split.
      * cbn [all_digits]. now rewrite Hd.
      * cbn [decimal_value]. rewrite Hv. lia.
Qed.

Lemma put_decimal_round_trip_aux (x : Z) :
  decimal_value 0 (put_decimal 9 (unharden x) "") = unharden x
  /\ all_digits (put_decimal 9 (unharden x) "") = true.
Proof.
  pose proof (unharden_range x) as Hx.
  destruct (put_decimal_digits 9 (unharden x)) as (_ & Hall & Hval).
  - change (10 ^ Z.of_nat 10) with 10000000000.
    change (2 ^ 31) with 2147483648 in Hx. lia.
  - split; assumption.
Qed.

(** X17.  The digits written for a path component read back as its
    unhardened value: the rendering loses nothing of the number. *)
Theorem put_decimal_round_trip (x : Z) :
  decimal_value 0 (put_decimal 9 (unharden x) "") = unharden x
  /\ all_digits (put_decimal 9 (unharden x) "") = true.
Proof. apply put_decimal_round_trip_aux. Qed.

Lemma split_digits (d1 : string) :
  forall d2 t1 t2 : string,
    all_digits d1 = true -> all_digits d2 = true ->
    no_digit_ahead t1 = true -> no_digit_ahead t2 = true ->
    (d1 ++ t1 = d2 ++ t2)%string -> d1 = d2 /\ t1 = t2.
Proof.
  induction d1 as [|c d1 IH]; intros d2 t1 t2 H1 H2 Ht1 Ht2 Heq.
  - destruct d2 as [|c2 d2]; [now split|].
    cbn in Heq. subst t1. cbn in Ht1, H2.
    apply andb_prop in H2. destruct H2 as [H2 _]. rewrite H2 in Ht1.
    discriminate.
  - destruct d2 as [|c2 d2].
    + cbn in Heq. subst t2. cbn in Ht2, H1.
      apply andb_prop in H1. destruct H1 as [H1 _]. rewrite H1 in Ht2.
      discriminate.
    + cbn in Heq. injection Heq as -> Heq.
      cbn in H1, H2. apply andb_prop in H1, H2.
      destruct (IH d2 t1 t2) as [-> ->]; intuition.
Qed.

Lemma hardened_high_bit (i : Z) :
  0 <= i < 2 ^ 32 -> hardened i = (2 ^ 31 <=? i).
Proof.
  intros Hi. unfold hardened, HARDENED.
  change 0x80000000 with (2 ^ 31).
  assert (Hbit : Z.land i (2 ^ 31) = if Z.testbit i 31 then 2 ^ 31 else 0).
  { apply Z.bits_inj'. intros n Hn.
    rewrite Z.land_spec, Z.pow2_bits_eqb by lia.
    destruct (Z.eqb_spec 31 n) as [<-|Hne].
    - rewrite andb_true_r. destruct (Z.testbit i 31).
      + now rewrite Z.pow2_bits_true by lia.
      + now rewrite Z.bits_0.
    - rewrite andb_false_r. destruct (Z.testbit i 31).
      + now rewrite Z.pow2_bits_false by lia.
      + now rewrite Z.bits_0. }
  rewrite Hbit.
  assert (Htest : Z.testbit i 31 = (2 ^ 31 <=? i)).
  { rewrite Z.testbit_eqb by lia.
    destruct (2 ^ 31 <=? i) eqn:E; [apply Z.leb_le in E | apply Z.leb_gt in E].
    - replace (i / 2 ^ 31) with 1; [reflexivity|].
      apply Z.div_unique with (r := i - 2 ^ 31); lia.
    - rewrite Z.div_small by lia. reflexivity. }
  rewrite Htest. destruct (2 ^ 31 <=? i); reflexivity.
Qed.

Lemma unharden_low_bits (i : Z) : unharden i = i mod 2 ^ 31.
Proof.
  unfold unharden. change 0x7fffffff with (Z.ones 31).
  now rewrite Z.land_ones by lia.
Qed.

Lemma component_determined (i j : Z) :
  0 <= i < 2 ^ 32 -> 0 <= j < 2 ^ 32 ->
  unharden i = unharden j -> hardened i = hardened j -> i = j.
Proof.
  intros Hi Hj Hu Hh.
  rewrite !unharden_low_bits in Hu.
  rewrite !hardened_high_bit in Hh by assumption.
  destruct (2 ^ 31 <=? i) eqn:Ei; destruct (2 ^ 31 <=? j) eqn:Ej;
    try discriminate;
    try apply Z.leb_le in Ei; try apply Z.leb_gt in Ei;
    try apply Z.leb_le in Ej; try apply Z.leb_gt in Ej.
  - assert (i mod 2 ^ 31 = i - 2 ^ 31)
      by (symmetry; apply Z.mod_unique with (q := 1); lia).
    assert (j mod 2 ^ 31 = j - 2 ^ 31)
      by (symmetry; apply Z.mod_unique with (q := 1); lia).
    lia.
  - rewrite !Z.mod_small in Hu by lia. exact Hu.
Qed.

Lemma put_component_shape (i : Z) (c : string) :
  put_component i c
  = String "/" (put_decimal 9 (unharden i) ""
                ++ (if hardened i then String "'" c else c))%string.
Proof. unfold put_component. now rewrite put_decimal_app. Qed.

Lemma path_body_no_digit (p : list Z) (quote : bool) :
  no_digit_ahead (if quote then String "'" (fold_right put_component "" p)
                  else fold_right put_component "" p) = true.
Proof.
  destruct quote; [reflexivity|].
  destruct p as [|i p]; [reflexivity|].
  cbn [fold_right]. rewrite put_component_shape. reflexivity.
Qed.

Lemma path_body_injective (p : list Z) :
  forall q : list Z,
    uint32_path p -> uint32_path q ->
    fold_right put_component "" p = fold_right put_component "" q ->
    p = q.
Proof.
  induction p as [|i p IH]; intros q Hp Hq Heq.
  - destruct q as [|j q]; [reflexivity|].
    cbn [fold_right] in Heq. rewrite put_component_shape in Heq. discriminate.
  - destruct q as [|j q].
    + cbn [fold_right] in Heq. rewrite put_component_shape in Heq. discriminate.
    + cbn [fold_right] in Heq. rewrite !put_component_shape in Heq.
      inversion Hp as [|? ? Hi Hp']; subst. inversion Hq as [|? ? Hj Hq']; subst.
      destruct (put_decimal_round_trip_aux i) as [Hvi Hdi].
      destruct (put_decimal_round_trip_aux j) as [Hvj Hdj].
      set (di := put_decimal 9 (unharden i) "") in *.
      set (dj := put_decimal 9 (unharden j) "") in *.
      injection Heq as Heq.
      apply split_digits in Heq; try assumption; try apply path_body_no_digit.
      destruct Heq as [Hd Ht].
      assert (Hu : unharden i = unharden j) by congruence.
      assert (Hh : hardened i = hardened j /\
                   fold_right put_component "" p = fold_right put_component "" q).
      { destruct (hardened i), (hardened j).
        - injection Ht as Ht. now split.
        - destruct q as [|k q]; [discriminate|].
          cbn [fold_right] in Ht. rewrite put_component_shape in Ht. discriminate.
        - destruct p as [|k p]; [discriminate|].
          cbn [fold_right] in Ht. rewrite put_component_shape in Ht. discriminate.
        - now split. }
      destruct Hh as [Hh Hrest].
      f_equal; [now apply component_determined | now apply IH].
Qed.

Lemma string_app_cancel (s a b : string) :
  (s ++ a = s ++ b)%string -> a = b.
Proof. induction s as [|c s IH]; cbn; intros H; [exact H|]. injection H. exact IH. Qed.

(** X18.  The raw rendering identifies the path: two paths of [uint32_t]
    components that are rendered alike are the same path. *)
Theorem raw_path_injective (p q : list Z) :
  uint32_path p -> uint32_path q -> raw_path p = raw_path q -> p = q.
Proof.
  intros Hp Hq Heq. unfold raw_path in Heq.
  apply string_app_cancel in Heq. now apply path_body_injective.
Qed.

Lemma raw_path_injective_witness :
  [h 44; h 0; h 0; 0; 5] = [h 44; h 0; h 0; 0; 5].
Proof.
  apply (raw_path_injective [h 44; h 0; h 0; 0; 5] [h 44; h 0; h 0; 0; 5]);
    try reflexivity;
    repeat constructor; try discriminate.
Defined.

Example raw_path_tells_hardened_apart :
  raw_path [h 1; 2] = "Path: m/1'/2"%string
  /\ raw_path [1; h 2] = "Path: m/1/2'"%string
  /\ raw_path [12] = "Path: m/12"%string
  /\ raw_path [1; 2] = "Path: m/1/2"%string.
Proof. repeat split; reflexivity. Qed.

Lemma put_decimal_length (fuel : nat) :
  forall (i : Z) (c : string),
    (String.length (put_decimal fuel i c) <= S fuel + String.length c)%nat.
Proof.
  induction fuel as [|fuel IH]; intros i c; cbn [put_decimal].
  - cbn [String.length]. lia.
  - destruct (0 <? i / 10).
    + etransitivity; [apply IH|]. cbn [String.length]. lia.
    + cbn [String.length]. lia.
Qed.

Lemma path_body_length (p : list Z) :
  (String.length (fold_right put_component "" p) <= 12 * List.length p)%nat.
Proof.
  induction p as [|i p IH]; [cbn; lia|].
  cbn [fold_right List.length]. unfold put_component at 1.
  cbn [String.length].
  pose proof (put_decimal_length 9 (unharden i)
                (if hardened i then String "'" (fold_right put_component "" p)
                 else fold_right put_component "" p)) as H.
  destruct (hardened i); cbn [String.length] in H; lia.
Qed.

(** X19.  The raw rendering of a path of at most 8 components has at most
    103 characters: with its terminator it fits the 104 bytes of
    [address_str]. *)
Theorem raw_path_fits_buffer (p : list Z) :
  (List.length p <= 8)%nat -> (String.length (raw_path p) <= 103)%nat.
Proof.
  intros Hp. unfold raw_path. rewrite string_length_append.
  pose proof (path_body_length p). cbn [String.length]. lia.
Qed.

Lemma raw_path_fits_buffer_witness :
  (String.length (raw_path widest_path) <= 103)%nat.
Proof.
  apply (raw_path_fits_buffer widest_path). simpl. lia.
Defined.

(** Eight hardened components of ten digits fill the buffer to the last
    byte. *)
Example raw_path_longest :
  String.length (raw_path widest_path) = 103%nat.
Proof. reflexivity. Qed.

Lemma acc_string_decimal (n : Z) :
  0 <= n < 100 -> acc_string n = put_decimal 9 n "".
Proof.
  intros H.
  assert (Hn : n = Z.of_nat (Z.to_nat n)) by lia.
  assert (Hb : (Z.to_nat n < 100)%nat) by lia.
  rewrite Hn. clear Hn H.
  generalize dependent (Z.to_nat n). intros k Hb.
  do 100 (destruct k as [|k]; [reflexivity|]).
  lia.
Qed.

(** X20.  The label of a known path: the ticker, " legacy" for purpose 44
    of a coin with segwit, " segwit" for purpose 84, the noun, and the
    account number in plain decimal, for a ticker of at most 73
    characters and an account number below 100. *)
Theorem address_n_str_label (coinBySlip44 : Z -> option CoinInfo)
        (address_n : list Z) (address_is_account legacy : bool)
        (abbr : string) :
  known_path address_n = true ->
  choose_abbr coinBySlip44 slip44_extras
              (at_index address_n 0 =? HARDENED + 84)
              (at_index address_n 0 =? HARDENED + 49)
              (at_index address_n 1) = (legacy, Some abbr) ->
  (String.length abbr <= 73)%nat ->
  (if address_is_account then unharden (at_index address_n 4) + 1
   else unharden (at_index address_n 2) + 1) < 100 ->
  address_n_str coinBySlip44 address_n address_is_account
  = (abbr ++ (if legacy then " legacy" else "")
     ++ (if (at_index address_n 0 =? HARDENED + 84)%Z then " segwit" else "")
     ++ (if address_is_account then " address #" else " account #")
     ++ put_decimal 9 (if address_is_account
                       then (unharden (at_index address_n 4) + 1)%Z
                       else (unharden (at_index address_n 2) + 1)%Z) "")%string.
Proof.
  intros Hk Hc Hlen Hacc. unfold address_n_str.
  rewrite (address_n_str_known _ _ _ _ legacy (Some abbr) Hk Hc). cbv zeta.
  set (accnum := if address_is_account
                 then unharden (at_index address_n 4) + 1
                 else unharden (at_index address_n 2) + 1) in *.
  assert (H0 : 0 <= accnum).
  { unfold accnum. pose proof (unharden_range (at_index address_n 4)).
    pose proof (unharden_range (at_index address_n 2)).
    destruct address_is_account; lia. }
  destruct (accnum <? 100) eqn:E; [|apply Z.ltb_ge in E; lia].
  rewrite acc_string_decimal by lia.
  assert (Hd : (String.length (put_decimal 9 accnum "") <= 2)%nat).
  { rewrite <- acc_string_decimal by lia. unfold acc_string.
    destruct (accnum <? 10); cbn; lia. }
  unfold strlcpy. rewrite substring_whole by lia.
  destruct legacy; destruct (at_index address_n 0 =? HARDENED + 84);
    destruct address_is_account;
    repeat match goal with
           | |- context [strlcat ?d ?s ?n] =>
               lazymatch d with
               | context [strlcat] => fail
               | _ => rewrite (strlcat_fits d s n)
                   by (rewrite ?string_length_append; cbn [String.length]; lia)
               end
           end;
    rewrite ?string_app_assoc; reflexivity.
Qed.

Lemma address_n_str_label_witness :
  address_n_str btc_registry [h 44; h 0; h 41; 0; 0] false
  = "BTC legacy account #42"%string.
Proof.
  apply (address_n_str_label btc_registry [h 44; h 0; h 41; 0; 0] false true "BTC");
    [reflexivity | reflexivity | simpl; lia | vm_compute; reflexivity].
Defined.

(** * Further properties of the navigation state machine *)

Section TickCalls.

Variable e : Env.

Lemma tick_calls_call (c : Call) (w : World) :
  is_display c = true ->
  tick_calls e (calls w) -> tick_calls e (calls (call c w)).
Proof. intros Hc H. now apply calls_display. Qed.

Lemma tick_calls_layoutScreensaver (w : World) :
  tick_calls e (calls w) -> tick_calls e (calls (layoutScreensaver w)).
Proof.
  intros H. unfold layoutScreensaver.
  apply tick_calls_call; [reflexivity|].
  apply tick_calls_call; [reflexivity|]. exact H.
Qed.

Lemma tick_calls_layoutDeviceInfo (ucPage : Z) (w : World) :
  tick_calls e (calls w) -> tick_calls e (calls (layoutDeviceInfo e ucPage w)).
Proof.
  intros H. unfold layoutDeviceInfo.
  cbn [calls set_display_info_start set_layoutLast].
  apply tick_calls_call; [reflexivity|].
  apply tick_calls_call; [reflexivity|]. exact H.
Qed.

(** A status query and what follows it. *)
Lemma tick_calls_status (force : bool) (w : World) :
  tick_calls e (calls w) ->
  tick_calls e
    (calls (if status_logo e (calls w) force
            then abort_and_clear (call (LayoutStatusLogo force) w)
            else call (LayoutStatusLogo force) w)).
Proof.
  intros H. destruct (status_logo e (calls w) force) eqn:E.
  - unfold abort_and_clear, call. cbn [calls st].
    rewrite <- !app_assoc. cbn [app]. now apply calls_status_changed.
  - now apply calls_status_same.
Qed.

Lemma tick_calls_layoutHome (w : World) :
  tick_calls e (calls w) -> tick_calls e (calls (layoutHome e w)).
Proof.
  intros H. unfold layoutHome, layoutStatusLogo.
  set (w1 := if is_home (layoutLast (st w)) || is_screensaver (layoutLast (st w))
             then call OledClear w else call LayoutSwipe w).
  assert (H1 : tick_calls e (calls w1))
    by (unfold w1; destruct (_ || _); now apply tick_calls_call).
  set (w2 := call DrawHome (set_layoutLast LayoutHome w1)).
  assert (H2 : tick_calls e (calls w2))
    by (unfold w2; apply tick_calls_call; [reflexivity | exact H1]).
  pose proof (tick_calls_status true w2 H2) as H3.
  cbn [set_lock_start calls].
  destruct (status_logo e (calls w2) true);
    apply tick_calls_call; try reflexivity; exact H3.
Qed.

Lemma tick_calls_set_info_page (n : Z) (w : World) :
  tick_calls e (calls w) -> tick_calls e (calls (set_info_page n w)).
Proof. intros H. exact H. Qed.

Hint Resolve tick_calls_layoutHome tick_calls_layoutDeviceInfo
     tick_calls_layoutScreensaver tick_calls_set_info_page : core.

Ltac split_ifs :=
  repeat match goal with
         | |- context [if ?b then _ else _] => destruct b eqn:?
         end.

Lemma tick_calls_info_navigation (w : World) :
  tick_calls e (calls w) -> tick_calls e (calls (info_navigation e w)).
Proof.
  intros H. unfold info_navigation.
  destruct (is_home (layoutLast (st w)));
    [|destruct (is_device_info (layoutLast (st w)))]; [| |assumption].
  - destruct (UpUp (button e) || DownUp (button e)); auto.
  - cbv zeta.
    match goal with
    | |- tick_calls e (calls (if _ then layoutHome e ?w' else ?w')) =>
        assert (Hw : tick_calls e (calls w'));
        [|destruct (info_page (st w') =? 0); auto]
    end.
    split_ifs; auto 6.
Qed.

Lemma tick_calls_home_timeouts (w : World) :
  tick_calls e (calls w) -> tick_calls e (calls (home_timeouts e w)).
Proof.
  intros H. unfold home_timeouts, layoutStatusLogo.
  destruct (is_home (layoutLast (st w))); [|assumption].
  cbv zeta.
  match goal with
  | |- tick_calls e (calls (if _ then _ else ?w')) =>
      assert (Hw : tick_calls e (calls w'))
  end.
  { destruct (_ <=? _); [|assumption].
    destruct (sys_nfcState e || sys_usbState e) eqn:Et.
    - apply tick_calls_layoutScreensaver. now apply calls_lock.
    - now apply calls_shutdown. }
  match goal with
  | |- tick_calls e (calls (if _ then _ else ?w')) => set (w1 := w') in *
  end.
  destruct (1000 <=? _); [|assumption].
  cbn [set_logo_refresh calls].
  pose proof (tick_calls_status false w1 Hw) as Hs.
  destruct (status_logo e (calls w1) false); auto.
Qed.

Lemma tick_calls_wake_or_abort (w : World) :
  tick_calls e (calls w) -> tick_calls e (calls (wake_or_abort e w)).
Proof.
  intros H. unfold wake_or_abort.
  destruct (_ && _); [auto|].
  destruct (_ && _); [|assumption].
  destruct (NoUp (button e)) eqn:En; [|assumption].
  unfold call. cbn [calls st]. rewrite <- app_assoc. cbn [app].
  now apply calls_cancel.
Qed.

(** The calls of every tick have the shape of [tick_calls]. *)
Lemma tick_calls_tick (s : State) : tick_calls e (calls (tick e s)).
Proof.
  unfold tick, layoutHomeInfo.
  apply tick_calls_wake_or_abort, tick_calls_home_timeouts,
    tick_calls_info_navigation.
  destruct (layoutNeedRefresh e); [apply tick_calls_layoutHome|];
    apply calls_none.
Qed.

End TickCalls.

Section TickCallsFacts.

Variable e : Env.

Ltac count_calls :=
  unfold calls_of in *; rewrite ?count_occ_app; cbn [count_occ];
  repeat match goal with
         | |- context [Call_eq_dec ?a ?b] =>
             destruct (Call_eq_dec a b); try discriminate; try congruence
         end;
  try lia.

Lemma tick_calls_paired (l : list Call) :
  tick_calls e l -> calls_of RecoveryAbort l = calls_of SigningAbort l.
Proof.
  induction 1 as [|l c Hc _ IH|l f _ _ IH|l f _ _ IH|l _ _ IH|l _ _ IH|l _ _ IH];
    [reflexivity|destruct c; try discriminate Hc|..]; count_calls.
Qed.

Lemma tick_calls_shutdown (l : list Call) :
  tick_calls e l ->
  sys_nfcState e || sys_usbState e = true -> calls_of Shutdown l = 0%nat.
Proof.
  intros H Ht.
  induction H as [|l c Hc _ IH|l f _ _ IH|l f _ _ IH|l _ _ IH|l Hf _ IH|l _ _ IH];
    [reflexivity|destruct c; try discriminate Hc|..|congruence|]; count_calls.
Qed.

Lemma tick_calls_cause (l : list Call) :
  tick_calls e l -> status_quiet e -> NoUp (button e) = false ->
  calls_of RecoveryAbort l = 0%nat /\ calls_of SigningAbort l = 0%nat.
Proof.
  intros H Hq Hn.
  induction H as [|l c Hc _ IH|l f _ _ IH|l f Hf _ IH|l _ _ IH|l _ _ IH|l Hc _ IH];
    [split; reflexivity|destruct c; try discriminate Hc|
     |rewrite Hq in Hf; discriminate| | |congruence];
    destruct IH as [IH1 IH2]; split; count_calls.
Qed.

Lemma tick_calls_clear_unplugged (l : list Call) :
  tick_calls e l -> status_quiet e ->
  sys_nfcState e || sys_usbState e = false ->
  calls_of (SessionClear true) l = 0%nat.
Proof.
  intros H Hq Ht.
  induction H as [|l c Hc _ IH|l f _ _ IH|l f Hf _ IH|l Hc _ IH|l _ _ IH|l _ _ IH];
    [reflexivity|destruct c; try discriminate Hc|
     |rewrite Hq in Hf; discriminate|congruence| |]; count_calls.
Qed.

End TickCallsFacts.

(** X21.  In every tick [recovery_abort] and [signing_abort] are called the
    same number of times, whatever the screen, the buttons, the timers and
    the answers of [layoutStatusLogo]. *)
Theorem tick_aborts_paired (e : Env) (s : State) :
  calls_of RecoveryAbort (calls (tick e s))
  = calls_of SigningAbort (calls (tick e s)).
Proof. apply (tick_calls_paired e), tick_calls_tick. Qed.

(** X22.  A tick aborts recovery and signing only for a cause: when the
    cancel edge is not set and no [layoutStatusLogo] call reports a change,
    neither [recovery_abort] nor [signing_abort] is called. *)
Theorem tick_aborts_have_cause (e : Env) (s : State) :
  status_quiet e -> NoUp (button e) = false ->
  calls_of RecoveryAbort (calls (tick e s)) = 0%nat
  /\ calls_of SigningAbort (calls (tick e s)) = 0%nat.
Proof. intros Hq Hn. apply (tick_calls_cause e); auto using tick_calls_tick. Qed.

Lemma tick_aborts_have_cause_witness :
  calls_of RecoveryAbort (calls (tick confirm_env dialog_state)) = 0%nat
  /\ calls_of SigningAbort (calls (tick confirm_env dialog_state)) = 0%nat.
Proof.
  apply tick_aborts_have_cause; [intros done force|]; reflexivity.
Defined.

(** X23.  With NFC or USB present a tick never calls [shutdown], whatever
    the screen, the buttons and the timers. *)
Theorem tick_never_shuts_down_when_connected (e : Env) (s : State) :
  sys_nfcState e || sys_usbState e = true ->
  calls_of Shutdown (calls (tick e s)) = 0%nat.
Proof.
  intros Ht. apply (tick_calls_shutdown e); auto using tick_calls_tick.
Qed.

Lemma tick_never_shuts_down_when_connected_witness :
  calls_of Shutdown (calls (tick idle_env home_state)) = 0%nat.
Proof.
  apply (tick_never_shuts_down_when_connected idle_env home_state). reflexivity.
Defined.

(** X24.  Without NFC and USB, and with no status change reported, a tick
    never clears the session: the auto-lock shuts the device down
    instead. *)
Theorem tick_keeps_session_when_unplugged (e : Env) (s : State) :
  status_quiet e -> sys_nfcState e || sys_usbState e = false ->
  calls_of (SessionClear true) (calls (tick e s)) = 0%nat.
Proof.
  intros Hq Ht. apply (tick_calls_clear_unplugged e); auto using tick_calls_tick.
Qed.

Lemma tick_keeps_session_when_unplugged_witness :
  calls_of (SessionClear true) (calls (tick idle_unplugged_env home_state)) = 0%nat.
Proof.
  apply tick_keeps_session_when_unplugged; [intros done force|]; reflexivity.
Defined.

(** * The states a tick leaves behind *)

Ltac split_if :=
  match goal with
  | |- context [if ?b then _ else _] =>
      lazymatch b with
      | context [if _ then _ else _] => fail
      | _ => destruct b eqn:?
      end
  end.

Ltac state_simpl :=
  rewrite ?layoutHome_state, ?layoutDeviceInfo_state;
  cbn [st info_page layoutLast system_millis_display_info_start
       system_millis_lock_start system_millis_logo_refresh
       set_info_page set_layoutLast set_lock_start set_logo_refresh
       set_display_info_start call is_home is_device_info is_screensaver
       negb andb orb].

Section TickStates.

Variable e : Env.

Lemma elapsed_now : elapsed e (now e) = 0.
Proof. unfold elapsed. now rewrite Z.sub_diag. Qed.

Lemma page_ok_layoutHome (w : World) :
  page_ok (st w) -> page_ok (st (layoutHome e w)).
Proof.
  intros [Hr _]. rewrite layoutHome_state. split; [exact Hr|discriminate].
Qed.

(** The later blocks keep the page and never enter the device
    information. *)
Lemma home_timeouts_page (w : World) :
  info_page (st (home_timeouts e w)) = info_page (st w)
  /\ (layoutLast (st (home_timeouts e w)) = LayoutDeviceInfo ->
      layoutLast (st w) = LayoutDeviceInfo).
Proof.
  unfold home_timeouts, layoutStatusLogo, layoutScreensaver, abort_and_clear.
  destruct (is_home (layoutLast (st w))) eqn:EL; [|split; auto].
  cbv zeta. repeat (split_if; state_simpl); state_simpl;
    split; try reflexivity; intros; try discriminate; auto.
Qed.

Lemma wake_or_abort_page (w : World) :
  info_page (st (wake_or_abort e w)) = info_page (st w)
  /\ (layoutLast (st (wake_or_abort e w)) = LayoutDeviceInfo ->
      layoutLast (st w) = LayoutDeviceInfo).
Proof.
  unfold wake_or_abort.
  repeat (split_if; state_simpl); state_simpl;
    split; try reflexivity; intros; try discriminate; auto.
Qed.

Lemma page_ok_kept (w w' : World) :
  info_page (st w') = info_page (st w) ->
  (layoutLast (st w') = LayoutDeviceInfo -> layoutLast (st w) = LayoutDeviceInfo) ->
  page_ok (st w) -> page_ok (st w').
Proof.
  intros Hp Hl [Hr Hd]. split; rewrite Hp; auto.
Qed.

Lemma page_ok_info_navigation (w : World) :
  page_ok (st w) -> page_ok (st (info_navigation e w)).
Proof.
  intros [Hr Hd]. unfold info_navigation, page_ok, DEVICE_INFO_PAGE_NUM in *.
  destruct (is_home (layoutLast (st w))) eqn:EH;
    [|destruct (is_device_info (layoutLast (st w))) eqn:ED; [|split; auto]].
  - cbv zeta. repeat (split_if; state_simpl); state_simpl;
      split; intros; try lia; try discriminate; auto.
  - assert (Hd' : 1 <= info_page (st w))
      by (apply Hd; destruct (layoutLast (st w)); try discriminate; reflexivity).
    cbv zeta.
    repeat (split_if; state_simpl); state_simpl;
      rewrite ?Z.eqb_eq, ?Z.eqb_neq, ?Z.ltb_lt, ?Z.ltb_ge, ?negb_true_iff,
        ?negb_false_iff in *;
      split; intros; try lia; try discriminate; auto.
Qed.

Lemma page_ok_tick (s : State) : page_ok s -> page_ok (st (tick e s)).
Proof.
  intros H. unfold tick, layoutHomeInfo. cbv zeta.
  eapply page_ok_kept; [apply wake_or_abort_page..|].
  eapply page_ok_kept; [apply home_timeouts_page..|].
  apply page_ok_info_navigation.
  destruct (layoutNeedRefresh e); [apply page_ok_layoutHome|]; exact H.
Qed.

(** Nothing is due and no edge is set: the tick does nothing. *)
Lemma tick_settled (s : State) :
  settled e s -> button e = no_buttons -> layoutNeedRefresh e = false ->
  tick e s = mkWorld s [].
Proof.
  intros [Hh Hd] Hb Hr. unfold tick, layoutHomeInfo. rewrite Hr. cbv zeta.
  rewrite wake_or_abort_idle by exact Hb.
  unfold info_navigation, home_timeouts. rewrite Hb.
  cbn [st UpUp DownUp NoUp no_buttons orb].
  destruct (is_home (layoutLast s)) eqn:EH.
  - assert (HL : layoutLast s = LayoutHome)
      by (destruct (layoutLast s); try discriminate; reflexivity).
    destruct (Hh HL) as [H1 H2]. cbn [st]. rewrite EH.
    apply Z.leb_gt in H1, H2. rewrite H1. cbv zeta. cbn [st]. rewrite H2.
    reflexivity.
  - destruct (is_device_info (layoutLast s)) eqn:ED.
    + assert (HL : layoutLast s = LayoutDeviceInfo)
        by (destruct (layoutLast s); try discriminate; reflexivity).
      destruct (Hd HL) as [H1 H2].
      apply Z.leb_gt in H1. apply Z.eqb_neq in H2. rewrite H1. cbv zeta.
      cbn [st]. rewrite H2. cbn [st]. rewrite EH. reflexivity.
    + cbn [st]. rewrite EH. reflexivity.
Qed.

(** Without edges a tick leaves a state in which nothing is due. *)
Lemma tick_settles (s : State) :
  button e = no_buttons -> layoutNeedRefresh e = false ->
  0 < config_getAutoLockDelayMs e ->
  sys_nfcState e || sys_usbState e = true ->
  settled e (st (tick e s)).
Proof.
  intros Hb Hr Hdelay Ht. unfold tick, layoutHomeInfo. rewrite Hr. cbv zeta.
  rewrite wake_or_abort_idle by exact Hb.
  unfold info_navigation, home_timeouts, layoutStatusLogo, layoutScreensaver,
    abort_and_clear.
  rewrite Hb, Ht. cbn [st UpUp DownUp NoUp no_buttons orb]. cbv zeta.
  destruct (is_home (layoutLast s)) eqn:EH;
    [|destruct (is_device_info (layoutLast s)) eqn:ED];
    repeat (repeat progress (state_simpl; rewrite ?EH; cbn [Z.eqb]); split_if);
    repeat progress (state_simpl; rewrite ?EH; cbn [Z.eqb]);
    unfold settled; state_simpl;
    rewrite ?elapsed_now in *;
    rewrite ?Z.leb_gt, ?Z.leb_le, ?Z.eqb_eq, ?Z.eqb_neq in *;
    (split; intros HL; try discriminate HL;
     try (rewrite HL in *; discriminate);
     try (cbn [st] in *; congruence);
     try (split; first [assumption | lia])).
Qed.

End TickStates.

(** X25.  The page counter stays in range.  When [info_page] is between 0
    and [DEVICE_INFO_PAGE_NUM], and at least 1 while the device information
    is shown, the same holds after the tick: the [uint8_t] counter never
    wraps and the screen never shows a page above 4. *)
Theorem tick_keeps_page_in_range (e : Env) (s : State) :
  page_ok s -> page_ok (st (tick e s)).
Proof. apply page_ok_tick. Qed.

Lemma tick_keeps_page_in_range_witness :
  page_ok (st (tick next_env info_state)).
Proof.
  apply tick_keeps_page_in_range.
  split; [cbv; split; discriminate | intros _; cbv; discriminate].
Defined.

(** X26.  When nothing is due the tick does nothing.  With no button edge,
    no refresh request, the home timers not run out and the device
    information not timed out, the tick leaves the state as it was and
    calls nothing: no drawing, no abort, no lock. *)
Theorem tick_idle_does_nothing (e : Env) (s : State) :
  settled e s -> button e = no_buttons -> layoutNeedRefresh e = false ->
  tick e s = mkWorld s [].
Proof. apply tick_settled. Qed.

Lemma tick_idle_does_nothing_witness :
  tick quiet_env home_state = mkWorld home_state [].
Proof.
  apply tick_idle_does_nothing; try reflexivity.
  split; intros H; [split; reflexivity | discriminate H].
Defined.

(** X27.  A tick without button edges reaches a state of rest.  With a
    transport present and a positive auto-lock delay, a second tick at the
    same time changes nothing and calls nothing, whatever the first one
    did. *)
Theorem tick_twice_is_tick_once (e : Env) (s : State) :
  button e = no_buttons -> layoutNeedRefresh e = false ->
  0 < config_getAutoLockDelayMs e ->
  sys_nfcState e || sys_usbState e = true ->
  tick e (st (tick e s)) = mkWorld (st (tick e s)) [].
Proof.
  intros Hb Hr Hd Ht. apply tick_settled; auto using tick_settles.
Qed.

Lemma tick_twice_is_tick_once_witness :
  tick idle_status_change_env (st (tick idle_status_change_env home_state))
  = mkWorld (st (tick idle_status_change_env home_state)) [].
Proof.
  apply tick_twice_is_tick_once; reflexivity.
Defined.

(** X28.  Any button edge wakes the screensaver.  From the screensaver,
    with no refresh request, the tick ends on Home with the lock timer
    restarted and the other fields kept; when no status change is reported
    it only draws, so the cancel edge aborts nothing there. *)
Theorem screensaver_wakes_on_any_edge (e : Env) (s : State) :
  layoutLast s = LayoutScreensaver -> layoutNeedRefresh e = false ->
  NoUp (button e) || YesUp (button e) || UpUp (button e) || DownUp (button e)
  = true ->
  st (tick e s)
  = mkState LayoutHome (info_page s) (system_millis_display_info_start s)
            (now e) (system_millis_logo_refresh s)
  /\ (status_quiet e ->
      calls (tick e s) = [OledClear; DrawHome; LayoutStatusLogo true; OledRefresh]).
Proof.
  intros HL Hr Hb. unfold tick, layoutHomeInfo. rewrite Hr. cbv zeta.
  rewrite info_navigation_elsewhere by (cbn [st]; rewrite HL; reflexivity).
  rewrite home_timeouts_elsewhere by (cbn [st]; rewrite HL; reflexivity).
  unfold wake_or_abort. cbn [st]. rewrite HL. cbn [is_screensaver andb].
  rewrite Hb. split.
  - rewrite layoutHome_state. reflexivity.
  - intros Hq. unfold layoutHome, layoutStatusLogo. cbn [st]. rewrite HL.
    cbn [is_home is_screensaver orb call set_layoutLast st calls app].
    rewrite Hq. reflexivity.
Qed.

Lemma screensaver_wakes_on_any_edge_witness :
  st (tick cancel_env saver_state) = mkState LayoutHome 3 0 5000 4500
  /\ (status_quiet cancel_env ->
      calls (tick cancel_env saver_state)
      = [OledClear; DrawHome; LayoutStatusLogo true; OledRefresh]).
Proof.
  apply (screensaver_wakes_on_any_edge cancel_env saver_state); reflexivity.
Defined.

(** X29.  Turning a page of the device information.  With no refresh
    request, the previous-page edge goes one page back and, without it, the
    next-page edge one page on, from the page the screen stands on (page 0
    once the ten seconds have run out).  When that page is one of 1 to 4,
    the tick draws it, restarts the ten seconds and stays on the device
    information; the cancel edge still aborts recovery and signing. *)
Theorem device_info_turns_page (e : Env) (s : State) :
  let from :=
    if 10 * 1000 <=? elapsed e (system_millis_display_info_start s)
    then 0 else info_page s in
  let to := if UpUp (button e) then from - 1 else from + 1 in
  layoutLast s = LayoutDeviceInfo -> layoutNeedRefresh e = false ->
  UpUp (button e) || DownUp (button e) = true ->
  1 <= to <= DEVICE_INFO_PAGE_NUM ->
  tick e s
  = mkWorld (mkState LayoutDeviceInfo to (now e) (system_millis_lock_start s)
               (system_millis_logo_refresh s))
            ([DrawDeviceInfo to; OledRefresh]
             ++ (if NoUp (button e) then [RecoveryAbort; SigningAbort] else [])).
Proof.
  intros from to HL Hr Hb Hto. unfold DEVICE_INFO_PAGE_NUM in Hto.
  unfold tick, layoutHomeInfo. rewrite Hr. cbv zeta.
  assert (Hnav : info_navigation e (mkWorld s [])
                 = mkWorld (mkState LayoutDeviceInfo to (now e)
                              (system_millis_lock_start s)
                              (system_millis_logo_refresh s))
                           [DrawDeviceInfo to; OledRefresh]).
  { unfold info_navigation, layoutDeviceInfo, DEVICE_INFO_PAGE_NUM.
    cbn [st]. rewrite HL. cbn [is_home is_device_info]. cbv zeta.
    subst to from.
    destruct (10 * 1000 <=? elapsed e (system_millis_display_info_start s));
      destruct (UpUp (button e)); destruct (DownUp (button e));
      try discriminate Hb; state_simpl; cbn [Z.eqb negb];
      try lia;
      repeat match goal with
             | |- context [?a =? 0] =>
                 destruct (Z.eqb_spec a 0); [lia|]
             | |- context [?a <? 4] =>
                 destruct (Z.ltb_spec a 4); [|lia]
             end;
      cbn [negb]; state_simpl;
      repeat match goal with
             | |- context [?a =? 0] =>
                 destruct (Z.eqb_spec a 0); [lia|]
             end;
      reflexivity. }
  rewrite Hnav.
  rewrite home_timeouts_elsewhere by reflexivity.
  rewrite wake_or_abort_elsewhere by reflexivity.
  destruct (NoUp (button e)); reflexivity.
Qed.

Lemma device_info_turns_page_witness :
  tick next_env info_state
  = mkWorld (mkState LayoutDeviceInfo 3 5000 1000 4500)
            [DrawDeviceInfo 3; OledRefresh].
Proof.
  apply (device_info_turns_page next_env info_state); try reflexivity.
  split; discriminate.
Defined.

(** A home screen entered in this tick stays: the lock cannot be due. *)
Lemma home_timeouts_fresh (e : Env) (w : World) :
  layoutLast (st w) = LayoutHome -> system_millis_lock_start (st w) = now e ->
  0 < config_getAutoLockDelayMs e ->
  layoutLast (st (home_timeouts e w)) = LayoutHome
  /\ info_page (st (home_timeouts e w)) = info_page (st w)
  /\ system_millis_lock_start (st (home_timeouts e w)) = now e.
Proof.
  intros HL Hs Hd. unfold home_timeouts, layoutStatusLogo, abort_and_clear.
  rewrite HL, Hs, elapsed_now. cbn [is_home].
  destruct (Z.leb_spec (config_getAutoLockDelayMs e) 0); [lia|].
  cbv zeta.
  repeat (repeat progress state_simpl; split_if); repeat progress state_simpl;
    auto.
Qed.

Lemma wake_or_abort_home (e : Env) (w : World) :
  layoutLast (st w) = LayoutHome -> wake_or_abort e w = w.
Proof. intros HL. unfold wake_or_abort. rewrite HL. reflexivity. Qed.

(** X30.  Leaving the device information.  With no refresh request and a
    positive auto-lock delay, the tick ends on Home with the page counter
    at 0 and the lock timer restarted when the ten seconds have run out
    and the next-page edge is not set, when the cancel edge is set without
    a paging edge, when the previous-page edge is set on page 1, or when
    the next-page edge alone is set on the last page. *)
Theorem device_info_returns_home (e : Env) (s : State) :
  layoutLast s = LayoutDeviceInfo -> layoutNeedRefresh e = false ->
  0 < config_getAutoLockDelayMs e ->
  (10 * 1000 <= elapsed e (system_millis_display_info_start s)
   /\ DownUp (button e) = false)
  \/ (UpUp (button e) = false /\ DownUp (button e) = false
      /\ NoUp (button e) = true)
  \/ (UpUp (button e) = true /\ info_page s = 1)
  \/ (UpUp (button e) = false /\ DownUp (button e) = true
      /\ elapsed e (system_millis_display_info_start s) < 10 * 1000
      /\ DEVICE_INFO_PAGE_NUM <= info_page s) ->
  layoutLast (st (tick e s)) = LayoutHome
  /\ info_page (st (tick e s)) = 0
  /\ system_millis_lock_start (st (tick e s)) = now e.
Proof.
  intros HL Hr Hd Hleave. unfold DEVICE_INFO_PAGE_NUM in Hleave.
  unfold tick, layoutHomeInfo. rewrite Hr. cbv zeta.
  assert (Hnav : layoutLast (st (info_navigation e (mkWorld s []))) = LayoutHome
                 /\ info_page (st (info_navigation e (mkWorld s []))) = 0
                 /\ system_millis_lock_start (st (info_navigation e (mkWorld s [])))
                    = now e).
  { unfold info_navigation, DEVICE_INFO_PAGE_NUM.
    cbn [st]. rewrite HL. cbn [is_home is_device_info]. cbv zeta.
    destruct (Z.leb_spec (10 * 1000)
                (elapsed e (system_millis_display_info_start s)));
      destruct (UpUp (button e)); destruct (DownUp (button e));
      destruct (NoUp (button e));
      try (exfalso; intuition (discriminate || lia));
      repeat progress (state_simpl; cbn [Z.eqb Z.ltb Z.compare negb]);
      repeat first
        [ progress (state_simpl; cbn [Z.eqb negb])
        | match goal with
          | |- context [?a =? 0] =>
              lazymatch a with
              | context [if _ then _ else _] => fail
              | _ => destruct (Z.eqb_spec a 0)
              end
          | |- context [?a <? 4] =>
              lazymatch a with
              | context [if _ then _ else _] => fail
              | _ => destruct (Z.ltb_spec a 4)
              end
          end ];
      try (exfalso; intuition (discriminate || lia));
      auto. }
  destruct Hnav as (H1 & H2 & H3).
  destruct (home_timeouts_fresh e _ H1 H3 Hd) as (H4 & H5 & H6).
  rewrite wake_or_abort_home by exact H4.
  rewrite H5. auto.
Qed.

Lemma device_info_returns_home_witness :
  layoutLast (st (tick late_env info_state)) = LayoutHome
  /\ info_page (st (tick late_env info_state)) = 0
  /\ system_millis_lock_start (st (tick late_env info_state)) = now late_env.
Proof.
  apply device_info_returns_home; try reflexivity.
  left. split; [discriminate | reflexivity].
Defined.
